(** * Client-side analytics and cart-abandonment engine (pmcell-site-2025)

    Shallow embedding of the analytics module: the [Analytics] class (session
    store, event recorders, server sync, abandonment timer, webhook
    dispatcher) and the global sweep [checkAbandonedCartGlobal].

    Conventions of the embedding.
    - The model is the browser side: [window] is defined, so the
      [typeof window === 'undefined'] guards (server-side rendering) are not
      taken.
    - Timestamps and counters are integers ([Z]).  Prices and quantities are
      JavaScript numbers: IEEE 754 binary64 values ([float]), with their
      rounding, their infinities, their two zeros and [NaN].
    - A synchronous handler runs at one instant: every [Date.now()] inside it
      reads the same clock value [now].
    - [localStorage] holds JSON text.  A slot is absent or empty ([None]:
      every read of the module tests the text for truthiness before it
      parses it), holds other text that [JSON.parse] rejects ([Corrupt]) or
      holds text that [JSON.parse] reads as the value [v], of the shape the
      TypeScript types declare ([Json v]).  JSON has no [NaN], no infinity
      and no negative zero: [JSON.stringify] writes [null] for the first
      two and [0] for the last.
      A value that goes from memory into storage goes through [toJSON], which
      is [JSON.parse] after [JSON.stringify]; a [null] in a number field is
      modelled as [NaN] (the module only tests such a field for truthiness
      and serialises it again, and the two behave alike in both).
    - Exceptions are explicit: a computation ends [Normal] or [Throw]s, and
      keeps the side effects it made before throwing.
    - [fetch] calls are recorded, oldest first, in [requests]; what the
      network answers is an input of the continuation that consumes it.  A
      request aborted by its timeout is a rejected fetch ([AbortError]).
    - An [async] method is cut at its [await]: the part before it runs in the
      caller's handler, the part after it is a function of the answer.
    - [console] output is not modelled. *)

From Stdlib Require Import PrimFloat.
From Stdlib Require Import ZArith String Ascii List Bool Lia.
From stdpp Require Import base option list strings gmap pretty.

Local Open Scope string_scope.
Local Open Scope Z_scope.

(** ** Data model: [UserAnalytics] and its collections *)

Module CategoryVisit.
Record t := mk {
  name : string;
  visits : Z;
  lastVisit : Z;
  hasCartItems : option bool;
  categoryId : option string }.
End CategoryVisit.

Module SearchTerm.
Record t := mk {
  term : string;
  count : Z;
  lastSearch : Z }.
End SearchTerm.

Module ProductView.
Record t := mk {
  id : string;
  name : string;
  category : string;
  visits : Z;
  lastView : Z;
  addedToCart : option bool }.
End ProductView.

Inductive CartEventType := add | remove | update | clear | complete | abandon.

Module CartEvent.
Record t := mk {
  type : CartEventType;
  productId : string;
  productName : option string;
  quantity : float;
  unitPrice : option float;
  totalPrice : option float;
  timestamp : Z }.
End CartEvent.

Record UserAnalytics := mkUserAnalytics {
  sessionId : string;
  startTime : Z;
  lastActivity : Z;
  timeOnSite : Z;
  categoriesVisited : list CategoryVisit.t;
  searchTerms : list SearchTerm.t;
  productsViewed : list ProductView.t;
  cartEvents : list CartEvent.t;
  lastCartActivity : Z;
  whatsappCollected : option string;
  whatsappCollectedAt : option Z }.

(** ** Persisted cart state, owned by the cart store (key [cart-storage]) *)

Module CartItem.
Record t := mk {
  productId : string;
  quantity : float;
  image : option string }.
End CartItem.

(** [{ state: { items: [...] } }]; both levels may be missing: [None] is a
    value without a (truthy) [state], [Some None] one whose [state] has no
    [items]. *)
Record CartBlob := mkCartBlob { state_items : option (option (list CartItem.t)) }.

(** What the cart mirror sends: the [state] of the stored value, or the whole
    value when it has none. *)
Inductive CartData :=
| CartState (items : option (list CartItem.t))
| WholeCart (cart : CartBlob).

(** [cartData.state || cartData] *)
Definition stateOrCart (cartData : CartBlob) : CartData :=
  match state_items cartData with
  | Some state => CartState state
  | None => WholeCart cartData
  end.

(** [cart.state?.items?.length], [undefined] read as 0. *)
Definition itemsLength (cart : CartBlob) : Z :=
  match state_items cart with
  | Some (Some items) => Z.of_nat (length items)
  | _ => 0
  end.

Definition cartItemsOf (cart : CartBlob) : list CartItem.t :=
  match state_items cart with
  | Some (Some items) => items
  | _ => []
  end.

(** ** The local queue and the webhook delivery log *)

Module QueueItem.
Record t := mk {
  sessionId : string;
  timestamp : Z;
  data : UserAnalytics;
  retries : Z }.
End QueueItem.

Module WebhookLog.
Record t := mk {
  id : Z;
  timestamp : Z;
  webhook : string;
  environment : string;
  status : string;
  url : string }.
End WebhookLog.

(** ** localStorage *)

Inductive Stored (A : Type) :=
| Corrupt
| Json (v : A).
Arguments Corrupt {A}.
Arguments Json {A} v.

Record LocalStorage := mkLocalStorage {
  pmcell_analytics : option (Stored UserAnalytics);
  cart_storage : option (Stored CartBlob);
  analytics_queue : option (Stored (list QueueItem.t));
  webhookLogs : option (Stored (list WebhookLog.t));
  (** [setItem] throws (quota exceeded, storage disabled) *)
  quotaExceeded : bool }.

(** ** Errors *)

Record JsError := mkError { errName : string; errMessage : string }.

Definition SyntaxError (msg : string) := mkError "SyntaxError" msg.
Definition QuotaExceededError := mkError "QuotaExceededError" "The quota has been exceeded.".
Definition Error (msg : string) := mkError "Error" msg.

Inductive completion (A : Type) :=
| Normal (a : A)
| Throw (e : JsError).
Arguments Normal {A} a.
Arguments Throw {A} e.

(** [JSON.parse] of a stored text. *)
Definition JSON_parse {A} (s : Stored A) : completion A :=
  match s with
  | Corrupt => Throw (SyntaxError "Unexpected token in JSON")
  | Json v => Normal v
  end.

(** ** The network

    A request is what [fetch] was called with; a [Fetched] value is what the
    awaited promise settles to. *)

Module SaveEvent.
Record t := mk {
  type : CartEventType;
  productId : string;
  productName : string;
  quantity : float;
  unitPrice : float;
  totalPrice : float;
  timestamp : Z }.
End SaveEvent.

Module SavePayload.
Record t := mk {
  sessionId : string;
  whatsapp : option string;
  startTime : Z;
  lastActivity : Z;
  timeOnSite : Z;
  whatsappCollectedAt : option Z;
  categoriesVisited : list CategoryVisit.t;
  searchTerms : list SearchTerm.t;
  productsViewed : list ProductView.t;
  cartEvents : list SaveEvent.t }.
End SavePayload.

(** The payload that the queue processor builds from a queued session: the
    cart events go as they were stored. *)
Module QueuedPayload.
Record t := mk {
  sessionId : string;
  whatsapp : option string;
  startTime : Z;
  lastActivity : Z;
  timeOnSite : Z;
  whatsappCollectedAt : option Z;
  categoriesVisited : list CategoryVisit.t;
  searchTerms : list SearchTerm.t;
  productsViewed : list ProductView.t;
  cartEvents : list CartEvent.t }.
End QueuedPayload.

Module Snapshot.
Record t := mk {
  sessionId : string;
  timeOnSite : Z;
  categoriesVisited : list CategoryVisit.t;
  searchTerms : list SearchTerm.t;
  productsViewed : list ProductView.t;
  totalCartEvents : Z;
  lastCartActivity : Z;
  (** absent in the payload the global sweep builds *)
  whatsapp : option (option string * option Z) }.
End Snapshot.

(** [orderData: any]: the line items, when it has an array of them, and the
    other fields as they came. *)
Record OrderData := mkOrderData {
  order_items : option (list CartItem.t);
  order_rest : string }.

Inductive WebhookData :=
| WhatsAppCollectedData (whatsapp : option string) (collectedAt : option Z)
| OrderCompletedData (order : OrderData)
| CartAbandonedData (cartItems : list CartItem.t) (abandonedAt : Z)
    (timeSinceLastActivity : Z) (session : string) (whatsapp : option string).

Module WebhookPayload.
Record t := mk {
  event : string;
  (** [new Date().toISOString()], kept as the clock value it renders *)
  timestamp : Z;
  user_whatsapp : option string;
  user_sessionId : string;
  analytics : Snapshot.t;
  data : WebhookData }.
End WebhookPayload.

Module CartUpdatePayload.
Record t := mk {
  sessionId : string;
  whatsapp : option string;
  cartData : CartData;
  analyticsData : Snapshot.t;
  lastActivity : Z }.
End CartUpdatePayload.

Inductive Request :=
| GET_webhook_settings
| POST_analytics_save (payload : SavePayload.t)
| POST_analytics_save_queued (payload : QueuedPayload.t)
| POST_cart_simple_update (payload : CartUpdatePayload.t)
| POST_mark_contacted (session : string)
| POST_webhook (url : string) (payload : WebhookPayload.t).

Inductive Fetched (B : Type) :=
| Rejected (e : JsError)
| Response (status : Z) (statusText : string) (body : B).
Arguments Rejected {B} e.
Arguments Response {B} status statusText body.

(** [response.ok] *)
Definition ok (status : Z) : bool := (200 <=? status) && (status <=? 299).

(** Body of an answer of [/api/analytics/save]: what [response.json()] and
    [response.text()] give. *)
Record SaveJson := mkSaveJson { fallback : bool; message : option string }.
Record SaveBody := mkSaveBody { json : completion SaveJson; text : string }.

(** One row of [/api/webhook-settings]. *)
Module Setting.
Record t := mk {
  webhookType : string;
  enabled : bool;
  environment : string }.
End Setting.

Definition SettingsBody := completion (list Setting.t).

(** ** Timers *)

Inductive Callback :=
| CartAbandonTimerFired
| SaveAnalyticsToServer
| ProcessLocalQueue.

Record Timeout := mkTimeout {
  handle : nat;
  setAt : Z;
  delay : Z;
  callback : Callback }.

(** ** Suspended asynchronous calls (awaiting their first network answer) *)

Inductive Job :=
| SendWebhookJob (eventType : string) (data : WebhookData) (maxRetries : Z)
| SaveAnalyticsJob
(** the walk of the local queue, with the array it read *)
| ProcessLocalQueueJob (queue : list QueueItem.t).

(** ** The browser and the [Analytics] instance *)

Record Location := mkLocation {
  hostname : string;
  port : string;
  NODE_ENV : string }.

Record World := mkWorld {
  now : Z;
  random36 : string;
  location : Location;
  localStorage : LocalStorage;
  timeouts : list Timeout;
  nextHandle : nat;
  intervals : list (Z * Callback);
  requests : list Request;
  jobs : list Job;
  (* fields of the Analytics instance *)
  analytics : UserAnalytics;
  cartAbandonTimer : option nat;
  saveToServerRetryCount : Z;
  serverSaveTimeout : option nat }.

Definition CART_ABANDON_TIME : Z := 1 * 60 * 1000.
Definition MAX_SERVER_SAVE_RETRIES : Z := 3.
Definition storageKey : string := "pmcell_analytics".

(** ** State and exception monad of the handlers *)

Definition Js (A : Type) : Type := World -> completion A * World.

Definition ret {A} (a : A) : Js A := fun w => (Normal a, w).

Definition throw {A} (e : JsError) : Js A := fun w => (Throw e, w).

Definition bind {A B} (m : Js A) (k : A -> Js B) : Js B :=
  fun w =>
    match m w with
    | (Normal a, w') => k a w'
    | (Throw e, w') => (Throw e, w')
    end.

(** [try { m } catch (e) { h e }] *)
Definition try_catch {A} (m : Js A) (h : JsError -> Js A) : Js A :=
  fun w =>
    match m w with
    | (Normal a, w') => (Normal a, w')
    | (Throw e, w') => h e w'
    end.

Definition lift {A} (c : completion A) : Js A := fun w => (c, w).
Definition gets {A} (f : World -> A) : Js A := fun w => (Normal (f w), w).
Definition modify (f : World -> World) : Js unit := fun w => (Normal tt, f w).

Notation "'let!' x ':=' m 'in' k" := (bind m (fun x => k))
  (at level 10, x name, m at level 100, k at level 200).
Notation "m '>>' k" := (bind m (fun _ => k))
  (at level 100, k at level 200, right associativity).

(** The final state and the result of running a handler. *)
Definition exec {A} (m : Js A) (w : World) : World := snd (m w).
Definition result {A} (m : Js A) (w : World) : completion A := fst (m w).

(** ** Field updates *)

Definition set_localStorage (s : LocalStorage) (w : World) : World :=
  mkWorld (now w) (random36 w) (location w) s (timeouts w) (nextHandle w)
    (intervals w) (requests w) (jobs w) (analytics w) (cartAbandonTimer w)
    (saveToServerRetryCount w) (serverSaveTimeout w).

Definition set_timeouts (ts : list Timeout) (n : nat) (w : World) : World :=
  mkWorld (now w) (random36 w) (location w) (localStorage w) ts n
    (intervals w) (requests w) (jobs w) (analytics w) (cartAbandonTimer w)
    (saveToServerRetryCount w) (serverSaveTimeout w).

Definition set_intervals (i : list (Z * Callback)) (w : World) : World :=
  mkWorld (now w) (random36 w) (location w) (localStorage w) (timeouts w)
    (nextHandle w) i (requests w) (jobs w) (analytics w) (cartAbandonTimer w)
    (saveToServerRetryCount w) (serverSaveTimeout w).

Definition set_requests (r : list Request) (w : World) : World :=
  mkWorld (now w) (random36 w) (location w) (localStorage w) (timeouts w)
    (nextHandle w) (intervals w) r (jobs w) (analytics w) (cartAbandonTimer w)
    (saveToServerRetryCount w) (serverSaveTimeout w).

Definition set_jobs (j : list Job) (w : World) : World :=
  mkWorld (now w) (random36 w) (location w) (localStorage w) (timeouts w)
    (nextHandle w) (intervals w) (requests w) j (analytics w)
    (cartAbandonTimer w) (saveToServerRetryCount w) (serverSaveTimeout w).

Definition set_analytics (a : UserAnalytics) (w : World) : World :=
  mkWorld (now w) (random36 w) (location w) (localStorage w) (timeouts w)
    (nextHandle w) (intervals w) (requests w) (jobs w) a (cartAbandonTimer w)
    (saveToServerRetryCount w) (serverSaveTimeout w).

Definition set_cartAbandonTimer (t : option nat) (w : World) : World :=
  mkWorld (now w) (random36 w) (location w) (localStorage w) (timeouts w)
    (nextHandle w) (intervals w) (requests w) (jobs w) (analytics w) t
    (saveToServerRetryCount w) (serverSaveTimeout w).

Definition set_saveToServerRetryCount (c : Z) (w : World) : World :=
  mkWorld (now w) (random36 w) (location w) (localStorage w) (timeouts w)
    (nextHandle w) (intervals w) (requests w) (jobs w) (analytics w)
    (cartAbandonTimer w) c (serverSaveTimeout w).

Definition set_serverSaveTimeout (t : option nat) (w : World) : World :=
  mkWorld (now w) (random36 w) (location w) (localStorage w) (timeouts w)
    (nextHandle w) (intervals w) (requests w) (jobs w) (analytics w)
    (cartAbandonTimer w) (saveToServerRetryCount w) t.

Definition set_activity (last time : Z) (a : UserAnalytics) : UserAnalytics :=
  mkUserAnalytics (sessionId a) (startTime a) last time (categoriesVisited a)
    (searchTerms a) (productsViewed a) (cartEvents a) (lastCartActivity a)
    (whatsappCollected a) (whatsappCollectedAt a).

Definition set_categoriesVisited (l : list CategoryVisit.t) (a : UserAnalytics) : UserAnalytics :=
  mkUserAnalytics (sessionId a) (startTime a) (lastActivity a) (timeOnSite a) l
    (searchTerms a) (productsViewed a) (cartEvents a) (lastCartActivity a)
    (whatsappCollected a) (whatsappCollectedAt a).

Definition set_searchTerms (l : list SearchTerm.t) (a : UserAnalytics) : UserAnalytics :=
  mkUserAnalytics (sessionId a) (startTime a) (lastActivity a) (timeOnSite a)
    (categoriesVisited a) l (productsViewed a) (cartEvents a)
    (lastCartActivity a) (whatsappCollected a) (whatsappCollectedAt a).

Definition set_productsViewed (l : list ProductView.t) (a : UserAnalytics) : UserAnalytics :=
  mkUserAnalytics (sessionId a) (startTime a) (lastActivity a) (timeOnSite a)
    (categoriesVisited a) (searchTerms a) l (cartEvents a) (lastCartActivity a)
    (whatsappCollected a) (whatsappCollectedAt a).

Definition set_cartEvents (l : list CartEvent.t) (a : UserAnalytics) : UserAnalytics :=
  mkUserAnalytics (sessionId a) (startTime a) (lastActivity a) (timeOnSite a)
    (categoriesVisited a) (searchTerms a) (productsViewed a) l
    (lastCartActivity a) (whatsappCollected a) (whatsappCollectedAt a).

Definition set_lastCartActivity (t : Z) (a : UserAnalytics) : UserAnalytics :=
  mkUserAnalytics (sessionId a) (startTime a) (lastActivity a) (timeOnSite a)
    (categoriesVisited a) (searchTerms a) (productsViewed a) (cartEvents a) t
    (whatsappCollected a) (whatsappCollectedAt a).

Definition set_whatsapp (n : option string) (t : option Z) (a : UserAnalytics) : UserAnalytics :=
  mkUserAnalytics (sessionId a) (startTime a) (lastActivity a) (timeOnSite a)
    (categoriesVisited a) (searchTerms a) (productsViewed a) (cartEvents a)
    (lastCartActivity a) n t.

Definition set_pmcell_analytics (v : option (Stored UserAnalytics)) (s : LocalStorage) : LocalStorage :=
  mkLocalStorage v (cart_storage s) (analytics_queue s) (webhookLogs s) (quotaExceeded s).

Definition set_analytics_queue (v : option (Stored (list QueueItem.t))) (s : LocalStorage) : LocalStorage :=
  mkLocalStorage (pmcell_analytics s) (cart_storage s) v (webhookLogs s) (quotaExceeded s).

Definition set_webhookLogs (v : option (Stored (list WebhookLog.t))) (s : LocalStorage) : LocalStorage :=
  mkLocalStorage (pmcell_analytics s) (cart_storage s) (analytics_queue s) v (quotaExceeded s).

(** ** Browser primitives *)

Definition Date_now : Js Z := gets now.

(** [localStorage.getItem(key)]: one reader per key. *)
Definition getItem {A} (slot : LocalStorage -> option (Stored A)) : Js (option (Stored A)) :=
  gets (fun w => slot (localStorage w)).

(** [localStorage.setItem(key, JSON.stringify(v))]: throws when the browser
    refuses the write, and then stores nothing. *)
Definition setItem (put : LocalStorage -> LocalStorage) : Js unit :=
  fun w =>
    if quotaExceeded (localStorage w) then (Throw QuotaExceededError, w)
    else (Normal tt, set_localStorage (put (localStorage w)) w).

(** [setTimeout(cb, delay)] returns the new handle. *)
Definition setTimeout (cb : Callback) (d : Z) : Js nat :=
  fun w =>
    (Normal (nextHandle w),
     set_timeouts (timeouts w ++ [mkTimeout (nextHandle w) (now w) d cb])
       (S (nextHandle w)) w).

(** [clearTimeout(h)] drops the pending timeout with that handle, if any. *)
Definition clearTimeout (h : nat) : Js unit :=
  modify (fun w =>
    set_timeouts (filter (fun t => handle t ≠ h) (timeouts w)) (nextHandle w) w).

Definition setInterval (cb : Callback) (period : Z) : Js unit :=
  modify (fun w => set_intervals (intervals w ++ [(period, cb)]) w).

(** [fetch(...)]: the call is recorded. *)
Definition fetch (r : Request) : Js unit :=
  modify (fun w => set_requests (requests w ++ [r]) w).

(** An [async] method called without [await]: it is suspended at its first
    network wait and continues as a job. *)
Definition spawn (j : Job) : Js unit :=
  modify (fun w => set_jobs (jobs w ++ [j]) w).

(** ** String and array helpers *)

(** [s.includes(sub)] *)
Definition includes (s sub : string) : bool :=
  match String.index 0 sub s with
  | Some _ => true
  | None => false
  end.

(** [n.toString(36)] *)
Definition digit36 (d : Z) : ascii :=
  if d <? 10 then ascii_of_nat (48 + Z.to_nat d) else ascii_of_nat (87 + Z.to_nat d).

Fixpoint toString36_digits (fuel : nat) (n : Z) (acc : string) : string :=
  match fuel with
  | O => acc
  | S fuel' =>
      let acc' := String (digit36 (n mod 36)) acc in
      if n / 36 =? 0 then acc' else toString36_digits fuel' (n / 36) acc'
  end.

Definition toString36 (n : Z) : string :=
  if n <? 0 then "-" ++ toString36_digits (S (Z.to_nat (Z.log2 (- n)))) (- n) EmptyString
  else toString36_digits (S (Z.to_nat (Z.log2 n))) n EmptyString.

(** [l.slice(-n)]: the last [n] elements. *)
Definition slice_last {A} (n : nat) (l : list A) : list A :=
  drop (length l - n) l.

(** [l.slice(0, n)] *)
Definition slice_first {A} (n : nat) (l : list A) : list A := take n l.

(** [const x = l.find(p); if (x) { mutate x }]: the first element that
    satisfies [p] is changed in place. *)
Fixpoint update_found {A} (p : A -> bool) (f : A -> A) (l : list A) : list A :=
  match l with
  | [] => []
  | x :: l' => if p x then f x :: l' else x :: update_found p f l'
  end.

(** [x || d] on an optional string: [undefined] and the empty string are
    falsy. *)
Definition or_string (x : option string) (d : string) : string :=
  match x with
  | Some s => if String.eqb s EmptyString then d else s
  | None => d
  end.

(** Truthiness of a number: [0], [-0] and [NaN] are falsy.  ([x == 0] holds
    of both zeros.) *)
Definition truthy (x : float) : bool :=
  negb (PrimFloat.eqb x 0 || PrimFloat.is_nan x).

(** [x || 0] on an optional number. *)
Definition or_zero (x : option float) : float :=
  match x with
  | Some n => if truthy n then n else 0%float
  | None => 0%float
  end.

(** ** Numbers through JSON

    [JSON.parse(JSON.stringify(x))] on a number: a finite number comes back
    as it was, but for [-0], which is written [0]; [NaN] and the infinities
    are written [null], which stands here as [NaN]. *)
Definition toJSON_number (x : float) : float :=
  if PrimFloat.is_finite x then (if PrimFloat.eqb x 0 then 0%float else x)
  else PrimFloat.nan.

Definition toJSON_event (e : CartEvent.t) : CartEvent.t :=
  {| CartEvent.type := CartEvent.type e;
     CartEvent.productId := CartEvent.productId e;
     CartEvent.productName := CartEvent.productName e;
     CartEvent.quantity := toJSON_number (CartEvent.quantity e);
     CartEvent.unitPrice := option_map toJSON_number (CartEvent.unitPrice e);
     CartEvent.totalPrice := option_map toJSON_number (CartEvent.totalPrice e);
     CartEvent.timestamp := CartEvent.timestamp e |}.

(** The session as it reads once stored: the numbers of its cart events are
    the only ones that JSON can change. *)
Definition toJSON (a : UserAnalytics) : UserAnalytics :=
  set_cartEvents (map toJSON_event (cartEvents a)) a.

(** The local queue as it reads once stored. *)
Definition toJSON_queueItem (queueItem : QueueItem.t) : QueueItem.t :=
  QueueItem.mk (QueueItem.sessionId queueItem) (QueueItem.timestamp queueItem)
    (toJSON (QueueItem.data queueItem)) (QueueItem.retries queueItem).

Definition toJSON_queue (queue : list QueueItem.t) : list QueueItem.t :=
  map toJSON_queueItem queue.

(** ** The [Analytics] class: session store *)

Definition generateSessionId : Js string :=
  let! t := Date_now in
  let! r := gets random36 in
  ret (toString36 t ++ r).

Definition createNewSession : Js UserAnalytics :=
  let! sid := generateSessionId in
  let! t := Date_now in
  ret {| sessionId := sid;
         startTime := t;
         lastActivity := t;
         timeOnSite := 0;
         categoriesVisited := [];
         searchTerms := [];
         productsViewed := [];
         cartEvents := [];
         lastCartActivity := 0;
         whatsappCollected := None;
         whatsappCollectedAt := None |}.

Definition loadAnalytics : Js UserAnalytics :=
  let! stored := getItem pmcell_analytics in
  match stored with
  | Some s =>
      let! parsed := lift (JSON_parse s) in
      let! t := Date_now in
      if t - lastActivity parsed >? 24 * 60 * 60 * 1000 then createNewSession
      else ret parsed
  | None => createNewSession
  end.

Definition debouncedServerSave : Js unit :=
  let! pending := gets serverSaveTimeout in
  (match pending with
   | Some h => clearTimeout h
   | None => ret tt
   end) >>
  let! h := setTimeout SaveAnalyticsToServer 2000 in
  modify (set_serverSaveTimeout (Some h)).

Definition saveAnalytics : Js unit :=
  let! a := gets analytics in
  setItem (set_pmcell_analytics (Some (Json (toJSON a)))) >>
  debouncedServerSave.

Definition updateLastActivity : Js unit :=
  let! t := Date_now in
  modify (fun w => set_analytics (set_activity t (t - startTime (analytics w)) (analytics w)) w) >>
  saveAnalytics.

(** ** Server sync engine *)

Definition saveEvent (e : CartEvent.t) : SaveEvent.t :=
  {| SaveEvent.type := CartEvent.type e;
     SaveEvent.productId := CartEvent.productId e;
     SaveEvent.productName := or_string (CartEvent.productName e) "Nome não disponível";
     SaveEvent.quantity := CartEvent.quantity e;
     SaveEvent.unitPrice := or_zero (CartEvent.unitPrice e);
     SaveEvent.totalPrice := or_zero (CartEvent.totalPrice e);
     SaveEvent.timestamp := CartEvent.timestamp e |}.

Definition savePayload (a : UserAnalytics) : SavePayload.t :=
  {| SavePayload.sessionId := sessionId a;
     SavePayload.whatsapp := whatsappCollected a;
     SavePayload.startTime := startTime a;
     SavePayload.lastActivity := lastActivity a;
     SavePayload.timeOnSite := timeOnSite a;
     SavePayload.whatsappCollectedAt := whatsappCollectedAt a;
     SavePayload.categoriesVisited := categoriesVisited a;
     SavePayload.searchTerms := searchTerms a;
     SavePayload.productsViewed := productsViewed a;
     SavePayload.cartEvents := map saveEvent (cartEvents a) |}.

(** [JSON.parse(localStorage.getItem('analytics_queue') || '[]')] *)
Definition readQueue : Js (list QueueItem.t) :=
  let! stored := getItem analytics_queue in
  match stored with
  | Some s => lift (JSON_parse s)
  | None => ret []
  end.

Definition saveToLocalQueue : Js unit :=
  try_catch
    (let! queue := readQueue in
     let! a := gets analytics in
     let! t := Date_now in
     let queueItem :=
       {| QueueItem.sessionId := sessionId a;
          QueueItem.timestamp := t;
          QueueItem.data := a;
          QueueItem.retries := 0 |} in
     let trimmedQueue := slice_last 50 (queue ++ [queueItem]) in
     setItem (set_analytics_queue (Some (Json (toJSON_queue trimmedQueue)))))
    (fun _ => ret tt).

Definition queuedPayload (queueItem : QueueItem.t) : QueuedPayload.t :=
  let data := QueueItem.data queueItem in
  {| QueuedPayload.sessionId := sessionId data;
     QueuedPayload.whatsapp := whatsappCollected data;
     QueuedPayload.startTime := startTime data;
     QueuedPayload.lastActivity := lastActivity data;
     QueuedPayload.timeOnSite := timeOnSite data;
     QueuedPayload.whatsappCollectedAt := whatsappCollectedAt data;
     QueuedPayload.categoriesVisited := categoriesVisited data;
     QueuedPayload.searchTerms := searchTerms data;
     QueuedPayload.productsViewed := productsViewed data;
     QueuedPayload.cartEvents := cartEvents data |}.

(** [processLocalQueue], up to its first [await]: the queue is read; when it
    is empty the call returns, else the oldest item is POSTed and the call
    waits for the answer, holding the array it read.  An unreadable queue
    ends the call in its [catch]. *)
Definition processLocalQueue : Js unit :=
  try_catch
    (let! queue := readQueue in
     match queue with
     | [] => ret tt
     | queueItem :: _ =>
         fetch (POST_analytics_save_queued (queuedPayload queueItem)) >>
         spawn (ProcessLocalQueueJob queue)
     end)
    (fun _ => ret tt).

(** [saveAnalyticsToServer], up to its [await fetch(...)]. *)
Definition saveAnalyticsToServer : Js unit :=
  let! c := gets saveToServerRetryCount in
  if c >=? MAX_SERVER_SAVE_RETRIES then saveToLocalQueue
  else
    let! a := gets analytics in
    fetch (POST_analytics_save (savePayload a)) >>
    spawn SaveAnalyticsJob.

(** The [catch] block of [saveAnalyticsToServer]. *)
Definition saveAnalyticsToServer_catch (error : JsError) : Js unit :=
  modify (fun w => set_saveToServerRetryCount (saveToServerRetryCount w + 1) w) >>
  let! c := gets saveToServerRetryCount in
  let errorMessage := errMessage error in
  let errorName := errName error in
  let isNetworkError :=
    String.eqb errorName "AbortError" || includes errorMessage "fetch"
    || includes errorMessage "network" || includes errorMessage "timeout" in
  let isServerError := includes errorMessage "5" in
  if (c <? MAX_SERVER_SAVE_RETRIES) && (isNetworkError || isServerError) then
    let delay := 2 ^ c * 2500 in
    let! _ := setTimeout SaveAnalyticsToServer delay in
    ret tt
  else saveToLocalQueue.

(** [saveAnalyticsToServer], from the answer of the network on. *)
Definition saveAnalyticsToServer_resume (r : Fetched SaveBody) : Js unit :=
  try_catch
    (match r with
     | Rejected e => throw e
     | Response status statusText body =>
         if ok status then
           modify (set_saveToServerRetryCount 0) >>
           processLocalQueue
         else if status =? 503 then
           let! responseData := lift (json body) in
           if fallback responseData then modify (set_saveToServerRetryCount 0)
           else throw (Error ("Service Unavailable: " ++ or_string (message responseData) statusText))
         else
           throw (Error ("HTTP " ++ pretty status ++ ": " ++ text body))
     end)
    saveAnalyticsToServer_catch.

(** One whole sync call whose request is answered by [r]. *)
Definition syncAttempt (r : Fetched SaveBody) : Js unit :=
  let! c := gets saveToServerRetryCount in
  saveAnalyticsToServer >>
  if c >=? MAX_SERVER_SAVE_RETRIES then ret tt else saveAnalyticsToServer_resume r.


(** ** Webhook dispatcher *)

Definition getAnalyticsSnapshot : Js Snapshot.t :=
  let! a := gets analytics in
  let! t := Date_now in
  ret {| Snapshot.sessionId := sessionId a;
         Snapshot.timeOnSite := (t - startTime a) / 1000;
         Snapshot.categoriesVisited := categoriesVisited a;
         Snapshot.searchTerms := searchTerms a;
         Snapshot.productsViewed := slice_first 10 (productsViewed a);
         Snapshot.totalCartEvents := Z.of_nat (length (cartEvents a));
         Snapshot.lastCartActivity := lastCartActivity a;
         Snapshot.whatsapp := Some (whatsappCollected a, whatsappCollectedAt a) |}.

Definition removeImagesFromCartItems (cartItems : list CartItem.t) : list CartItem.t :=
  map (fun item => CartItem.mk (CartItem.productId item) (CartItem.quantity item) None) cartItems.

Record WebhookConfig := mkConfig { enabled : bool; environment : string }.


(** [s.toLowerCase()] of a string of ASCII characters: the letters [A] to
    [Z] are the only ones with another lower case.  The bytes of other
    characters are left as they are: the case mapping of Unicode beyond
    ASCII is not modelled, and a statement that depends on it is made of
    ASCII strings only. *)
Definition lower_ascii (c : ascii) : ascii :=
  let n := nat_of_ascii c in
  if (65 <=? n)%nat && (n <=? 90)%nat then ascii_of_nat (n + 32) else c.

Fixpoint toLowerCase (s : string) : string :=
  match s with
  | EmptyString => EmptyString
  | String c s' => String (lower_ascii c) (toLowerCase s')
  end.

Definition isDevelopment (loc : Location) : bool :=
  String.eqb (hostname loc) "localhost" || String.eqb (hostname loc) "127.0.0.1"
  || String.eqb (port loc) "3000" || String.eqb (port loc) "3001"
  || String.eqb (NODE_ENV loc) "development".

(** [dbSettings.forEach(setting => settings[setting.webhookType] = ...)] *)
Definition convertSettings (dbSettings : list Setting.t) : gmap string WebhookConfig :=
  foldl (fun settings setting =>
           <[Setting.webhookType setting :=
               mkConfig (Setting.enabled setting) (toLowerCase (Setting.environment setting))]> settings)
        ∅ dbSettings.

Definition productionSettings (settings : gmap string WebhookConfig) : gmap string WebhookConfig :=
  (fun setting =>
     mkConfig (enabled setting && String.eqb (environment setting) "production")
              (environment setting)) <$> settings.

Definition fallbackSettings (dev : bool) : gmap string WebhookConfig :=
  let cfg := if dev then mkConfig false "test" else mkConfig true "production" in
  <["whatsappCollected" := cfg]>
    (<["orderCompleted" := cfg]>
       (<["cartAbandoned" := cfg]> (<["analyticsUpdate" := cfg]> ∅))).

(** [getWebhookSettings], given what [fetch('/api/webhook-settings')] settles
    to.  A failed fetch, a non-2xx answer or a body that is not the expected
    JSON falls back on the environment defaults. *)
Definition getWebhookSettings (loc : Location) (reply : Fetched SettingsBody)
  : gmap string WebhookConfig :=
  let dev := isDevelopment loc in
  match reply with
  | Response status _ (Normal dbSettings) =>
      if ok status then
        let settings := convertSettings dbSettings in
        if dev then settings else productionSettings settings
      else fallbackSettings dev
  | _ => fallbackSettings dev
  end.

Definition logWebhook (webhook env url : string) : Js unit :=
  let! stored := getItem webhookLogs in
  let! logs := match stored with
               | Some s => lift (JSON_parse s)
               | None => ret []
               end in
  let! t := Date_now in
  let newLog := WebhookLog.mk t t webhook env "success" url in
  setItem (set_webhookLogs (Some (Json (slice_first 50 (newLog :: logs))))).

(** What the network answers during one pass of the retry loop. *)
Record Attempt := mkAttempt {
  settingsReply : Fetched SettingsBody;
  postReply : Fetched unit }.

(** [sendWebhook], up to its first [await]: the loop is entered and the
    settings are requested. *)
Definition sendWebhook (eventType : string) (data : WebhookData) (maxRetries : Z) : Js unit :=
  if 0 <=? maxRetries then
    fetch GET_webhook_settings >>
    spawn (SendWebhookJob eventType data maxRetries)
  else ret tt.

(** The [try] block of one pass, from the answer of the settings request on. *)
Definition sendWebhook_try (eventType : string) (data : WebhookData) (a : Attempt) : Js unit :=
  let! loc := gets location in
  let settings := getWebhookSettings loc (settingsReply a) in
  match settings !! eventType with
  | None => ret tt
  | Some webhookConfig =>
      if negb (enabled webhookConfig) then ret tt
      else
        let baseUrl :=
          if String.eqb (environment webhookConfig) "production"
          then "https://n8n.pmcell.shop/webhook/"
          else "https://n8n.pmcell.shop/webhook-test/" in
        let fullUrl := (baseUrl ++ eventType)%string in
        let! t := Date_now in
        let! a0 := gets analytics in
        let! snapshot := getAnalyticsSnapshot in
        let payload :=
          WebhookPayload.mk eventType t (whatsappCollected a0) (sessionId a0) snapshot data in
        fetch (POST_webhook fullUrl payload) >>
        try_catch
          (match postReply a with
           | Rejected e => throw e
           | Response status _ _ =>
               if ok status then logWebhook eventType (environment webhookConfig) fullUrl
               else throw (Error ("HTTP " ++ pretty status))
           end)
          (fun fetchError =>
             if String.eqb (errName fetchError) "AbortError" then
               throw (Error "Timeout - webhook demorou mais de 10 segundos")
             else if includes (errMessage fetchError) "CORS"
                     || includes (errMessage fetchError) "network" then
               throw (Error ("Erro de rede/CORS: " ++ errMessage fetchError))
             else throw fetchError)
  end.

(** The retry loop of [sendWebhook], resumed with the answers received so
    far, one [Attempt] per pass; with no answer left the call stays
    suspended. *)
Fixpoint sendWebhook_resume (eventType : string) (data : WebhookData)
    (maxRetries retryCount : Z) (net : list Attempt) : Js unit :=
  match net with
  | [] => ret tt
  | a :: net' =>
      try_catch (sendWebhook_try eventType data a)
        (fun _ =>
           let retryCount' := retryCount + 1 in
           if retryCount' <=? maxRetries then
             fetch GET_webhook_settings >>
             sendWebhook_resume eventType data maxRetries retryCount' net'
           else ret tt)
  end.

Definition sendWhatsAppCollectedWebhook : Js unit :=
  let! a := gets analytics in
  sendWebhook "whatsappCollected"
    (WhatsAppCollectedData (whatsappCollected a) (whatsappCollectedAt a)) 2.

Definition sendOrderCompletedWebhook (orderData : OrderData) : Js unit :=
  let filteredOrderData :=
    match order_items orderData with
    | Some items => mkOrderData (Some (removeImagesFromCartItems items)) (order_rest orderData)
    | None => orderData
    end in
  sendWebhook "orderCompleted" (OrderCompletedData filteredOrderData) 2.

Definition sendCartAbandonedWebhook : Js unit :=
  let! cartStore := getItem cart_storage in
  match cartStore with
  | Some s =>
      try_catch
        (let! cart := lift (JSON_parse s) in
         if itemsLength cart >? 0 then
           let! a := gets analytics in
           let! t := Date_now in
           let webhookData :=
             CartAbandonedData
               (removeImagesFromCartItems (cartItemsOf cart))
               t
               (if lastCartActivity a >? 0 then t - lastCartActivity a else 0)
               (sessionId a)
               (whatsappCollected a) in
           sendWebhook "cartAbandoned" webhookData 2
         else ret tt)
        (fun _ => ret tt)
  | None => ret tt
  end.

(** ** Cart abandonment detector *)

Definition resetLastCartActivity : Js unit :=
  modify (fun w => set_analytics (set_lastCartActivity 0 (analytics w)) w).

(** The [try] block of [checkForAbandonedCart]. *)
Definition checkForAbandonedCart_try : Js unit :=
  let! cartStore := getItem cart_storage in
  match cartStore with
  | None => ret tt
  | Some s =>
      let! cart := lift (JSON_parse s) in
      if itemsLength cart =? 0 then ret tt
      else
        let! a := gets analytics in
        if lastCartActivity a =? 0 then ret tt
        else
          let! t := Date_now in
          let timeSinceLastCart := t - lastCartActivity a in
          if timeSinceLastCart >=? CART_ABANDON_TIME then
            sendCartAbandonedWebhook >>
            resetLastCartActivity >>
            saveAnalytics
          else ret tt
  end.

(** The one-shot check of the constructor. *)
Definition checkForAbandonedCart : Js unit :=
  try_catch checkForAbandonedCart_try (fun _ => ret tt).

(** The callback that [setupCartAbandonTimer] hands to [setTimeout]. *)
Definition cartAbandonTimerFired : Js unit :=
  sendCartAbandonedWebhook >>
  resetLastCartActivity >>
  saveAnalytics.

Definition setupCartAbandonTimer : Js unit :=
  let! timer := gets cartAbandonTimer in
  (match timer with
   | Some h => clearTimeout h
   | None => ret tt
   end) >>
  let! a := gets analytics in
  if lastCartActivity a >? 0 then
    let! t := Date_now in
    let timeSinceLastCart := t - lastCartActivity a in
    let remainingTime := CART_ABANDON_TIME - timeSinceLastCart in
    if remainingTime >? 0 then
      let! h := setTimeout CartAbandonTimerFired remainingTime in
      modify (set_cartAbandonTimer (Some h))
    else ret tt
  else ret tt.

(** ** Event recorders *)

(** [l.sort((a, b) => key(b) - key(a))]: stable, larger keys first. *)
Fixpoint insert_desc {A} (key : A -> Z) (x : A) (l : list A) : list A :=
  match l with
  | [] => [x]
  | y :: l' => if key y <=? key x then x :: y :: l' else y :: insert_desc key x l'
  end.

Fixpoint sort_desc {A} (key : A -> Z) (l : list A) : list A :=
  match l with
  | [] => []
  | x :: l' => insert_desc key x (sort_desc key l')
  end.

Definition nonempty (s : option string) : bool :=
  match s with
  | Some s' => negb (String.eqb s' EmptyString)
  | None => false
  end.

Definition trackCategoryVisit (categoryName : string) (categoryId : option string) : Js unit :=
  updateLastActivity >>
  let! t := Date_now in
  modify (fun w =>
    let a := analytics w in
    let is_it := fun c => String.eqb (CategoryVisit.name c) categoryName in
    let visited :=
      match find is_it (categoriesVisited a) with
      | Some _ =>
          update_found is_it
            (fun existing =>
               CategoryVisit.mk (CategoryVisit.name existing)
                 (CategoryVisit.visits existing + 1) t
                 (CategoryVisit.hasCartItems existing)
                 (if nonempty categoryId then categoryId
                  else CategoryVisit.categoryId existing))
            (categoriesVisited a)
      | None =>
          (categoriesVisited a ++ [CategoryVisit.mk categoryName 1 t (Some false) categoryId])%list
      end in
    set_analytics (set_categoriesVisited (sort_desc CategoryVisit.visits visited) a) w) >>
  saveAnalytics.

Definition trackProductView (productId productName category : string) : Js unit :=
  updateLastActivity >>
  let! t := Date_now in
  modify (fun w =>
    let a := analytics w in
    let is_it := fun p => String.eqb (ProductView.id p) productId in
    let viewed :=
      match find is_it (productsViewed a) with
      | Some _ =>
          update_found is_it
            (fun existing =>
               ProductView.mk (ProductView.id existing) (ProductView.name existing)
                 (ProductView.category existing) (ProductView.visits existing + 1) t
                 (ProductView.addedToCart existing))
            (productsViewed a)
      | None =>
          (productsViewed a ++ [ProductView.mk productId productName category 1 t (Some false)])%list
      end in
    set_analytics
      (set_productsViewed (slice_first 50 (sort_desc ProductView.visits viewed)) a) w) >>
  saveAnalytics.

(** [s.trim()] of a string of ASCII characters: the white space of ASCII is
    the space and the characters 9 to 13.  The white space of Unicode beyond
    ASCII (the no-break space and the like) is not modelled. *)
Definition is_space (c : ascii) : bool :=
  let n := nat_of_ascii c in
  (n =? 32)%nat || ((9 <=? n)%nat && (n <=? 13)%nat).

Fixpoint trimStart (s : string) : string :=
  match s with
  | EmptyString => EmptyString
  | String c s' => if is_space c then trimStart s' else s
  end.

Fixpoint trimEnd (s : string) : string :=
  match s with
  | EmptyString => EmptyString
  | String c s' =>
      match trimEnd s' with
      | EmptyString => if is_space c then EmptyString else String c EmptyString
      | rest => String c rest
      end
  end.

Definition trim (s : string) : string := trimEnd (trimStart s).

Definition trackSearch (searchTerm : string) : Js unit :=
  updateLastActivity >>
  let term := trim (toLowerCase searchTerm) in
  if String.eqb term EmptyString then ret tt
  else
    let! t := Date_now in
    modify (fun w =>
      let a := analytics w in
      let is_it := fun s => String.eqb (SearchTerm.term s) term in
      let terms :=
        match find is_it (searchTerms a) with
        | Some _ =>
            update_found is_it
              (fun existing =>
                 SearchTerm.mk (SearchTerm.term existing) (SearchTerm.count existing + 1) t)
              (searchTerms a)
        | None => (searchTerms a ++ [SearchTerm.mk term 1 t])%list
        end in
      set_analytics (set_searchTerms (sort_desc SearchTerm.count terms) a) w) >>
    saveAnalytics.

(** The cart mirror: fire and forget. *)
Definition saveCartToServer : Js unit :=
  try_catch
    (let! cartStore := getItem cart_storage in
     match cartStore with
     | None => ret tt
     | Some s =>
         let! cartData := lift (JSON_parse s) in
         let! a := gets analytics in
         let! snapshot := getAnalyticsSnapshot in
         fetch (POST_cart_simple_update
                  (CartUpdatePayload.mk (sessionId a) (whatsappCollected a)
                     (stateOrCart cartData) snapshot (lastCartActivity a)))
     end)
    (fun _ => ret tt).

Definition markCartAsCompleted : Js unit :=
  let! a := gets analytics in
  fetch (POST_mark_contacted (sessionId a)).

Definition is_add (type : CartEventType) : bool :=
  match type with
  | add => true
  | _ => false
  end.

(** The event that [trackCartEvent] pushes. *)
Definition newCartEvent (type : CartEventType) (productId : string) (quantity : float)
    (productName : option string) (unitPrice : option float) (timestamp : Z) : CartEvent.t :=
  {| CartEvent.type := type;
     CartEvent.productId := productId;
     CartEvent.productName := productName;
     CartEvent.quantity := quantity;
     CartEvent.unitPrice := unitPrice;
     CartEvent.totalPrice :=
       match unitPrice with
       | Some price => if truthy price then Some (PrimFloat.mul price quantity) else None
       | None => None
       end;
     CartEvent.timestamp := timestamp |}.

(** [productView.addedToCart = true] *)
Definition withAddedToCart (productView : ProductView.t) : ProductView.t :=
  ProductView.mk (ProductView.id productView) (ProductView.name productView)
    (ProductView.category productView) (ProductView.visits productView)
    (ProductView.lastView productView) (Some true).

(** [categoryVisit.hasCartItems = true] *)
Definition withHasCartItems (categoryVisit : CategoryVisit.t) : CategoryVisit.t :=
  CategoryVisit.mk (CategoryVisit.name categoryVisit) (CategoryVisit.visits categoryVisit)
    (CategoryVisit.lastVisit categoryVisit) (Some true)
    (CategoryVisit.categoryId categoryVisit).

(** The [if (type === 'add')] block of [trackCartEvent]. *)
Definition markAddedToCart (productId : string) (a : UserAnalytics) : UserAnalytics :=
  let is_it := fun p => String.eqb (ProductView.id p) productId in
  let flagged :=
    set_productsViewed (update_found is_it withAddedToCart (productsViewed a)) a in
  match find is_it (productsViewed flagged) with
  | Some product =>
      set_categoriesVisited
        (update_found
           (fun c => String.eqb (CategoryVisit.name c) (ProductView.category product))
           withHasCartItems
           (categoriesVisited flagged)) flagged
  | None => flagged
  end.

(** The TypeScript signature admits the types [add], [remove] and [update]. *)
Definition trackCartEvent (type : CartEventType) (productId : string) (quantity : float)
    (productName : option string) (unitPrice : option float) : Js unit :=
  updateLastActivity >>
  let! timestamp := Date_now in
  modify (fun w =>
    let a := analytics w in
    let pushed :=
      set_cartEvents
        (cartEvents a ++ [newCartEvent type productId quantity productName unitPrice timestamp])%list
        a in
    let stamped := set_lastCartActivity timestamp pushed in
    let flagged := if is_add type then markAddedToCart productId stamped else stamped in
    set_analytics (set_cartEvents (slice_last 100 (cartEvents flagged)) flagged) w) >>
  saveAnalytics >>
  setupCartAbandonTimer >>
  saveCartToServer.

Definition trackWhatsAppCollection (whatsapp : string) : Js unit :=
  updateLastActivity >>
  let! t := Date_now in
  modify (fun w => set_analytics (set_whatsapp (Some whatsapp) (Some t) (analytics w)) w) >>
  saveAnalytics >>
  sendWhatsAppCollectedWebhook.

Definition trackOrderCompletion (orderData : OrderData) : Js unit :=
  updateLastActivity >>
  (let! timer := gets cartAbandonTimer in
   match timer with
   | Some h => clearTimeout h >> modify (set_cartAbandonTimer None)
   | None => ret tt
   end) >>
  sendOrderCompletedWebhook orderData >>
  markCartAsCompleted.

(** [new Analytics()] *)
Definition constructor : Js unit :=
  modify (set_cartAbandonTimer None) >>
  modify (set_saveToServerRetryCount 0) >>
  modify (set_serverSaveTimeout None) >>
  let! loaded := loadAnalytics in
  modify (set_analytics loaded) >>
  updateLastActivity >>
  checkForAbandonedCart >>
  setupCartAbandonTimer >>
  processLocalQueue >>
  setInterval ProcessLocalQueue 120000.

(** A pending timeout comes due: the browser drops it and runs its callback. *)
Definition runCallback (cb : Callback) : Js unit :=
  match cb with
  | CartAbandonTimerFired => cartAbandonTimerFired
  | SaveAnalyticsToServer => saveAnalyticsToServer
  | ProcessLocalQueue => processLocalQueue
  end.

Definition fireTimeout (t : Timeout) : Js unit :=
  clearTimeout (handle t) >>
  runCallback (callback t).

(** ** The periodic global sweep

    [checkAbandonedCartGlobal] works on [localStorage] alone, not on the
    [Analytics] instance.  It awaits the settings and then the webhook POST;
    [net] is what the network answers to the two requests. *)
Definition checkAbandonedCartGlobal (net : Attempt) : Js bool :=
  try_catch
    (let! cartStore := getItem cart_storage in
     match cartStore with
     | None => ret false
     | Some s =>
         let! cart := lift (JSON_parse s) in
         if itemsLength cart =? 0 then ret false
         else
           let! analyticsStore := getItem pmcell_analytics in
           match analyticsStore with
           | None => ret false
           | Some s' =>
               let! stored := lift (JSON_parse s') in
               if lastCartActivity stored =? 0 then ret false
               else
                 let! t := Date_now in
                 let timeSinceLastCart := t - lastCartActivity stored in
                 if timeSinceLastCart >=? 1 * 60 * 1000 then
                   try_catch
                     (fetch GET_webhook_settings >>
                      match settingsReply net with
                      | Rejected e => throw e
                      | Response status _ body =>
                          if negb (ok status) then ret false
                          else
                            let! settings := lift body in
                            match find (fun s => String.eqb (Setting.webhookType s) "cartAbandoned") settings with
                            | None => ret false
                            | Some cartSetting =>
                                if negb (Setting.enabled cartSetting) then ret false
                                else
                                  let webhookData :=
                                    WebhookPayload.mk "cartAbandoned" t
                                      (whatsappCollected stored) (sessionId stored)
                                      (Snapshot.mk (sessionId stored)
                                         (timeSinceLastCart / 1000)
                                         (categoriesVisited stored) (searchTerms stored)
                                         (productsViewed stored)
                                         (Z.of_nat (length (cartEvents stored)))
                                         (lastCartActivity stored) None)
                                      (CartAbandonedData
                                         (removeImagesFromCartItems (cartItemsOf cart))
                                         t timeSinceLastCart (sessionId stored)
                                         (whatsappCollected stored)) in
                                  let webhookUrl :=
                                    if String.eqb (Setting.environment cartSetting) "PRODUCTION"
                                    then "https://n8n.pmcell.shop/webhook/cartAbandoned"
                                    else "https://n8n.pmcell.shop/webhook-test/cartAbandoned" in
                                  fetch (POST_webhook webhookUrl webhookData) >>
                                  match postReply net with
                                  | Rejected e => throw e
                                  | Response status' _ _ =>
                                      if ok status' then
                                        setItem (set_pmcell_analytics
                                                   (Some (Json (toJSON (set_lastCartActivity 0 stored))))) >>
                                        ret true
                                      else ret false
                                  end
                            end
                      end)
                     (fun _ => ret false)
                 else ret false
           end
     end)
    (fun _ => ret false).

(** ** Observations used by the statements *)

(** The [cartAbandoned] webhook POSTs among the requests issued. *)
Definition is_cartAbandoned_post (r : Request) : bool :=
  match r with
  | POST_webhook _ payload => String.eqb (WebhookPayload.event payload) "cartAbandoned"
  | _ => false
  end.

Definition cartAbandonedPosts (w : World) : nat :=
  length (List.filter is_cartAbandoned_post (requests w)).

(** The suspended [sendWebhook('cartAbandoned', ...)] calls. *)
Definition is_cartAbandoned_job (j : Job) : bool :=
  match j with
  | SendWebhookJob eventType _ _ => String.eqb eventType "cartAbandoned"
  | _ => false
  end.

Definition cartAbandonedCalls (w : World) : nat :=
  length (List.filter is_cartAbandoned_job (jobs w)).

(** [lastCartActivity] of the persisted session, when one is stored. *)
Definition persistedLastCartActivity (w : World) : option Z :=
  match pmcell_analytics (localStorage w) with
  | Some (Json a) => Some (lastCartActivity a)
  | _ => None
  end.

(** The persisted cart holds at least one item. *)
Definition cartNonEmpty (w : World) : Prop :=
  exists cart, cart_storage (localStorage w) = Some (Json cart) /\ 0 < itemsLength cart.

(** ** Derived descriptions used by the statements *)

(** The session [createNewSession] builds in world [w]. *)
Definition freshSession (w : World) : UserAnalytics :=
  mkUserAnalytics (toString36 (now w) ++ random36 w) (now w) (now w) 0 [] [] [] [] 0 None None.

(** The session after [trackCartEvent] ran at time [t] on session [a]. *)
Definition afterCartEvent (type : CartEventType) (productId : string) (quantity : float)
    (productName : option string) (unitPrice : option float) (t : Z) (a : UserAnalytics)
  : UserAnalytics :=
  let touched := set_activity t (t - startTime a) a in
  let pushed :=
    set_cartEvents
      (cartEvents touched ++ [newCartEvent type productId quantity productName unitPrice t])%list
      touched in
  let stamped := set_lastCartActivity t pushed in
  let flagged := if is_add type then markAddedToCart productId stamped else stamped in
  set_cartEvents (slice_last 100 (cartEvents flagged)) flagged.

(** The row of the fetched settings that decides a webhook type: rows are
    written into the settings object in order, so the last one stands. *)
Definition fetchedSetting (webhookType : string) (dbSettings : list Setting.t)
  : option Setting.t :=
  find (fun setting => String.eqb (Setting.webhookType setting) webhookType) (rev dbSettings).

(** The pending timeouts once [clearTimeout] ran on the handle a field holds. *)
Definition cancelled (field : option nat) (ts : list Timeout) : list Timeout :=
  match field with
  | Some h => filter (fun t => handle t ≠ h) ts
  | None => ts
  end.


(** The local queue as [saveToLocalQueue] reads it. *)
Definition storedQueue (w : World) : list QueueItem.t :=
  match analytics_queue (localStorage w) with
  | Some (Json queue) => queue
  | _ => []
  end.

(** The queue can be read and written. *)
Definition queueUsable (w : World) : Prop :=
  quotaExceeded (localStorage w) = false
  /\ analytics_queue (localStorage w) <> Some Corrupt.

(** The item [saveToLocalQueue] makes of the current session, and that item
    as the queue holds it. *)
Definition queueItemOf (w : World) : QueueItem.t :=
  QueueItem.mk (sessionId (analytics w)) (now w) (analytics w) 0.

Definition queuedItemOf (w : World) : QueueItem.t := toJSON_queueItem (queueItemOf w).

(** The answers under which the sweep gets its webhook delivered: the
    settings arrive with a 2xx status and a readable body in which
    [cartAbandoned] is enabled, and the POST is answered 2xx. *)
Definition sweepDelivers (net : Attempt) : bool :=
  match settingsReply net with
  | Response status _ (Normal settings) =>
      ok status
      && match find (fun s => String.eqb (Setting.webhookType s) "cartAbandoned") settings with
         | Some cartSetting => Setting.enabled cartSetting
         | None => false
         end
      && match postReply net with
         | Response status' _ _ => ok status'
         | Rejected _ => false
         end
  | _ => false
  end.

(** The answers under which a pass of [sendWebhook] on page [loc] gets a
    [cartAbandoned] webhook delivered. *)
Definition dispatcherDelivers (loc : Location) (a : Attempt) : bool :=
  match getWebhookSettings loc (settingsReply a) !! "cartAbandoned" with
  | Some webhookConfig => enabled webhookConfig
  | None => false
  end
  && match postReply a with
     | Response status _ _ => ok status
     | Rejected _ => false
     end.

(** The data [sendCartAbandonedWebhook] sends for cart [cart] in world [w]. *)
Definition abandonedData (cart : CartBlob) (w : World) : WebhookData :=
  CartAbandonedData
    (removeImagesFromCartItems (cartItemsOf cart))
    (now w)
    (if lastCartActivity (analytics w) >? 0 then now w - lastCartActivity (analytics w) else 0)
    (sessionId (analytics w))
    (whatsappCollected (analytics w)).

(** The world once [sendWebhook('cartAbandoned', data)] was called. *)
Definition withCartAbandonedCall (data : WebhookData) (w : World) : World :=
  set_jobs (jobs w ++ [SendWebhookJob "cartAbandoned" data 2])
    (set_requests (requests w ++ [GET_webhook_settings]) w).

(** Time passes: the clock reads [t] from now on. *)
Definition set_now (t : Z) (w : World) : World :=
  mkWorld t (random36 w) (location w) (localStorage w) (timeouts w) (nextHandle w)
    (intervals w) (requests w) (jobs w) (analytics w) (cartAbandonTimer w)
    (saveToServerRetryCount w) (serverSaveTimeout w).

(** One call of [trackCartEvent], made at time [at_time]. *)
Record CartCall := mkCartCall {
  at_time : Z;
  call_type : CartEventType;
  call_productId : string;
  call_quantity : float;
  call_productName : option string;
  call_unitPrice : option float }.

Definition eventOf (c : CartCall) : CartEvent.t :=
  newCartEvent (call_type c) (call_productId c) (call_quantity c) (call_productName c)
    (call_unitPrice c) (at_time c).

Definition callAt (c : CartCall) : Js unit :=
  modify (set_now (at_time c)) >>
  trackCartEvent (call_type c) (call_productId c) (call_quantity c) (call_productName c)
    (call_unitPrice c).

(** The calls of [cs], one after the other. *)
Fixpoint recordAll (cs : list CartCall) : Js unit :=
  match cs with
  | [] => ret tt
  | c :: cs' => callAt c >> recordAll cs'
  end.

Ltac js_unfold :=
  repeat (progress unfold exec, result, bind, try_catch, ret, throw, lift, gets,
            modify, Date_now, getItem, setItem, setTimeout, clearTimeout,
            setInterval, fetch, spawn, JSON_parse in * ).

Ltac js_cases :=
  repeat (case_match; simpl in *; simplify_eq; try reflexivity; try done).

(** ** The local queue processor

    [processLocalQueue] reads the queue once, walks the array it read from
    the oldest item on, awaits one POST to [/api/analytics/save] per item
    and then writes that array back.  The walk is a function of the array
    and of what the network answers to each item, in order. *)

(** [queueItem.retries = (queueItem.retries || 0) + 1] *)
Definition bumpRetries (queueItem : QueueItem.t) : QueueItem.t :=
  QueueItem.mk (QueueItem.sessionId queueItem) (QueueItem.timestamp queueItem)
    (QueueItem.data queueItem) (QueueItem.retries queueItem + 1).

(** [if (queueItem.retries > ceiling) { queue.splice(i, 1); i-- }] *)
Definition keepBelow (ceiling : Z) (queueItem : QueueItem.t) : option QueueItem.t :=
  if QueueItem.retries queueItem >? ceiling then None else Some queueItem.

(** The body of the loop for one item, given the answer to its POST: [None]
    when the item is spliced out of the queue, else the item as it stays. *)
Definition processQueueItem (queueItem : QueueItem.t) (r : Fetched SaveBody)
  : option QueueItem.t :=
  match r with
  | Response status _ body =>
      if ok status then None
      else if status =? 503 then
        match json body with
        | Normal responseData =>
            if fallback responseData then None
            else keepBelow 3 (bumpRetries queueItem)
        | Throw _ => keepBelow 3 (bumpRetries queueItem)
        end
      else keepBelow 5 (bumpRetries queueItem)
  | Rejected itemError =>
      if String.eqb (errName itemError) "AbortError" || includes (errMessage itemError) "fetch"
      then keepBelow 3 (bumpRetries queueItem)
      else None
  end.

(** The loop over the queue, one answer per item. *)
Fixpoint processQueue (queue : list QueueItem.t) (replies : list (Fetched SaveBody))
  : list QueueItem.t :=
  match queue, replies with
  | queueItem :: queue', r :: replies' =>
      match processQueueItem queueItem r with
      | Some kept => kept :: processQueue queue' replies'
      | None => processQueue queue' replies'
      end
  | _, _ => queue
  end.

(** The loop of [processLocalQueue] at an item whose POST is awaited:
    [kept] holds the items before it that stay in the array, [queue] the
    items from it on, [replies] what the network answers from now on, one
    answer per item.  An answer handled, the POST of the next item goes out;
    past the last item the array is written back.  With an answer missing
    the call stays suspended where it is. *)
Fixpoint processLocalQueue_loop (kept queue : list QueueItem.t)
    (replies : list (Fetched SaveBody)) : Js unit :=
  match queue with
  | [] => setItem (set_analytics_queue (Some (Json (toJSON_queue kept))))
  | queueItem :: queue' =>
      match replies with
      | [] => ret tt
      | r :: replies' =>
          let kept' :=
            match processQueueItem queueItem r with
            | Some stays => (kept ++ [stays])%list
            | None => kept
            end in
          (match queue' with
           | next :: _ => fetch (POST_analytics_save_queued (queuedPayload next))
           | [] => ret tt
           end) >>
          processLocalQueue_loop kept' queue' replies'
      end
  end.

(** [processLocalQueue], from its first [await] on: [queue] is the array the
    call read when it started, and the storage is not read again. *)
Definition processLocalQueue_resume (queue : list QueueItem.t)
    (replies : list (Fetched SaveBody)) : Js unit :=
  try_catch (processLocalQueue_loop [] queue replies) (fun _ => ret tt).

(** The POSTs of a walk that follow the first one. *)
Definition laterPosts (queue : list QueueItem.t) (replies : list (Fetched SaveBody))
  : list Request :=
  map (fun queueItem => POST_analytics_save_queued (queuedPayload queueItem))
    (take (length replies) (tail queue)).

(** The suspended walks of the local queue, and the POSTs of queued
    sessions, in a world. *)
Definition is_queueWalk (j : Job) : bool :=
  match j with
  | ProcessLocalQueueJob _ => true
  | _ => false
  end.

Definition queueWalks (w : World) : list Job := List.filter is_queueWalk (jobs w).

Definition is_queuedPost (r : Request) : bool :=
  match r with
  | POST_analytics_save_queued _ => true
  | _ => false
  end.

Definition queuedPosts (w : World) : list Request := List.filter is_queuedPost (requests w).

(** Several walks of the queue, one after the other, each with its answers. *)
Fixpoint processPasses (passes : list (list (Fetched SaveBody))) (queue : list QueueItem.t)
  : list QueueItem.t :=
  match passes with
  | [] => queue
  | replies :: passes' => processPasses passes' (processQueue queue replies)
  end.

(** The number of retries beyond which the walk drops an item, by the kind
    of answer: 3 for a rejected fetch and for a 503, 5 for another status. *)
Definition retryCeiling (r : Fetched SaveBody) : Z :=
  match r with
  | Rejected _ => 3
  | Response status _ _ => if status =? 503 then 3 else 5
  end.

(** ** Descriptions of the recorders, used by the statements *)

(** Larger keys first. *)
Fixpoint descending {A} (key : A -> Z) (l : list A) : Prop :=
  match l with
  | [] => True
  | x :: l' => Forall (fun y => key y <= key x) l' /\ descending key l'
  end.

(** [existing.visits++; existing.lastVisit = Date.now(); if (categoryId)
    existing.categoryId = categoryId] *)
Definition revisited (t : Z) (categoryId : option string) (existing : CategoryVisit.t)
  : CategoryVisit.t :=
  CategoryVisit.mk (CategoryVisit.name existing) (CategoryVisit.visits existing + 1) t
    (CategoryVisit.hasCartItems existing)
    (if nonempty categoryId then categoryId else CategoryVisit.categoryId existing).

(** The session after [trackCategoryVisit] ran at time [t] on session [a]. *)
Definition afterCategoryVisit (categoryName : string) (categoryId : option string) (t : Z)
    (a : UserAnalytics) : UserAnalytics :=
  let touched := set_activity t (t - startTime a) a in
  let is_it := fun c => String.eqb (CategoryVisit.name c) categoryName in
  let visited :=
    match find is_it (categoriesVisited touched) with
    | Some _ => update_found is_it (revisited t categoryId) (categoriesVisited touched)
    | None =>
        (categoriesVisited touched ++ [CategoryVisit.mk categoryName 1 t (Some false) categoryId])%list
    end in
  set_categoriesVisited (sort_desc CategoryVisit.visits visited) touched.

(** [existing.visits++; existing.lastView = Date.now()] *)
Definition reviewed (t : Z) (existing : ProductView.t) : ProductView.t :=
  ProductView.mk (ProductView.id existing) (ProductView.name existing)
    (ProductView.category existing) (ProductView.visits existing + 1) t
    (ProductView.addedToCart existing).

(** The session after [trackProductView] ran at time [t] on session [a]. *)
Definition afterProductView (productId productName category : string) (t : Z)
    (a : UserAnalytics) : UserAnalytics :=
  let touched := set_activity t (t - startTime a) a in
  let is_it := fun p => String.eqb (ProductView.id p) productId in
  let viewed :=
    match find is_it (productsViewed touched) with
    | Some _ => update_found is_it (reviewed t) (productsViewed touched)
    | None =>
        (productsViewed touched ++ [ProductView.mk productId productName category 1 t (Some false)])%list
    end in
  set_productsViewed (slice_first 50 (sort_desc ProductView.visits viewed)) touched.



(** ** The debounce of the server sync *)

(** A pending timeout set by [debouncedServerSave]. *)
Definition is_debounce (t : Timeout) : bool :=
  match callback t with
  | SaveAnalyticsToServer => delay t =? 2000
  | _ => false
  end.

Definition debouncePending (w : World) : list Timeout :=
  List.filter is_debounce (timeouts w).

(** [saveAnalytics] called at each of the given times, in turn. *)
Fixpoint saveAt (times : list Z) : Js unit :=
  match times with
  | [] => ret tt
  | t :: times' => modify (set_now t) >> saveAnalytics >> saveAt times'
  end.

(** ** Observations on webhooks *)

Definition is_webhook_post (r : Request) : bool :=
  match r with
  | POST_webhook _ _ => true
  | _ => false
  end.

(** The webhook POSTs among the requests issued. *)
Definition webhookPosts (w : World) : nat :=
  length (List.filter is_webhook_post (requests w)).

(** The line items a webhook carries hold no image. *)
Definition noImages (d : WebhookData) : Prop :=
  match d with
  | CartAbandonedData cartItems _ _ _ _ =>
      Forall (fun item => CartItem.image item = None) cartItems
  | OrderCompletedData order =>
      match order_items order with
      | Some items => Forall (fun item => CartItem.image item = None) items
      | None => True
      end
  | WhatsAppCollectedData _ _ => True
  end.

(** The settings request brought no usable settings: it was rejected, or
    answered with another status than 2xx, or with a body that is not the
    expected JSON. *)
Definition settingsUnavailable (reply : Fetched SettingsBody) : bool :=
  match reply with
  | Response status _ (Normal _) => negb (ok status)
  | _ => true
  end.

(** Saving to [webhookLogs] fails: the stored log is non-empty text that is
    not JSON, or the browser refuses the write. *)
Definition logUnusable (w : World) : Prop :=
  webhookLogs (localStorage w) = Some Corrupt \/ quotaExceeded (localStorage w) = true.

Definition productionUrl : string := "https://n8n.pmcell.shop/webhook/".
Definition testUrl : string := "https://n8n.pmcell.shop/webhook-test/".

(** The webhook POSTs among [rs] all go to [url]. *)
Definition postsGoTo (url : string) (rs : list Request) : Prop :=
  Forall (fun r => match r with
                   | POST_webhook u _ => u = url
                   | _ => True
                   end) rs.

(** The webhook types that the fallback settings list. *)
Definition knownWebhook (eventType : string) : bool :=
  String.eqb eventType "whatsappCollected" || String.eqb eventType "orderCompleted"
  || String.eqb eventType "cartAbandoned" || String.eqb eventType "analyticsUpdate".

(** What a suspended webhook call, or a webhook POST, carries holds no image. *)
Definition jobNoImages (j : Job) : Prop :=
  match j with
  | SendWebhookJob _ data _ => noImages data
  | _ => True
  end.

Definition requestNoImages (r : Request) : Prop :=
  match r with
  | POST_webhook _ payload => noImages (WebhookPayload.data payload)
  | _ => True
  end.

(** The delivery log as [logWebhook] reads it. *)
Definition storedLogs (w : World) : list WebhookLog.t :=
  match webhookLogs (localStorage w) with
  | Some (Json logs) => logs
  | _ => []
  end.

(** [a'] is the session [a] going on: same id, same start, same history. *)
Definition sameSession (a a' : UserAnalytics) : Prop :=
  sessionId a' = sessionId a
  /\ startTime a' = startTime a
  /\ categoriesVisited a' = categoriesVisited a
  /\ searchTerms a' = searchTerms a
  /\ productsViewed a' = productsViewed a
  /\ cartEvents a' = cartEvents a
  /\ whatsappCollected a' = whatsappCollected a.

(** The session [loadAnalytics] hands to the constructor in world [w]: the
    stored one when it was active in the last 24 hours, a new one otherwise. *)
Definition loadedSession (w : World) : UserAnalytics :=
  match pmcell_analytics (localStorage w) with
  | Some (Json a) =>
      if now w - lastActivity a >? 24 * 60 * 60 * 1000 then freshSession w else a
  | _ => freshSession w
  end.

(** ** Observations on the abandonment timer *)

Definition is_abandon (t : Timeout) : bool :=
  match callback t with
  | CartAbandonTimerFired => true
  | _ => false
  end.

(** The pending timeouts that [setupCartAbandonTimer] set. *)
Definition abandonPending (w : World) : list Timeout :=
  List.filter is_abandon (timeouts w).

(** At most one abandonment timeout is pending, and it is the one whose
    handle the instance holds. *)
Definition timerTracked (w : World) : Prop :=
  abandonPending w = []
  \/ exists tm, abandonPending w = [tm] /\ cartAbandonTimer w = Some (handle tm).

(** From [w] to [w'] no abandonment timeout was set and the instance holds
    the same handle. *)
Definition timerKept (w w' : World) : Prop :=
  sublist (abandonPending w') (abandonPending w)
  /\ cartAbandonTimer w' = cartAbandonTimer w.

(** ** The public recorders, as the pages call them *)

Inductive Recorder :=
  | TrackCategoryVisit (categoryName : string) (categoryId : option string)
  | TrackSearch (searchTerm : string)
  | TrackProductView (productId productName category : string)
  | TrackCartEvent (type : CartEventType) (productId : string) (quantity : float)
      (productName : option string) (unitPrice : option float)
  | TrackWhatsAppCollection (whatsapp : string)
  | TrackOrderCompletion (orderData : OrderData).

Definition record (r : Recorder) : Js unit :=
  match r with
  | TrackCategoryVisit categoryName categoryId => trackCategoryVisit categoryName categoryId
  | TrackSearch searchTerm => trackSearch searchTerm
  | TrackProductView productId productName category =>
      trackProductView productId productName category
  | TrackCartEvent type productId quantity productName unitPrice =>
      trackCartEvent type productId quantity productName unitPrice
  | TrackWhatsAppCollection whatsapp => trackWhatsAppCollection whatsapp
  | TrackOrderCompletion orderData => trackOrderCompletion orderData
  end.

(** The recorder calls of [calls], each made at its time, in turn. *)
Fixpoint recordTrace (calls : list (Z * Recorder)) : Js unit :=
  match calls with
  | [] => ret tt
  | (t, r) :: calls' => modify (set_now t) >> record r >> recordTrace calls'
  end.

(** The stored session is the one in memory, as JSON holds it. *)
Definition inSync (w : World) : Prop :=
  pmcell_analytics (localStorage w) = Some (Json (toJSON (analytics w))).

(** ** Observations on a failed sync *)

(** What the [try] block of [saveAnalyticsToServer] throws on the answer
    [r], if it throws. *)
Definition thrownBy (r : Fetched SaveBody) : option JsError :=
  match r with
  | Rejected e => Some e
  | Response status statusText body =>
      if ok status then None
      else if status =? 503 then
        match json body with
        | Normal responseData =>
            if fallback responseData then None
            else Some (Error ("Service Unavailable: "
                              ++ or_string (message responseData) statusText))
        | Throw e => Some e
        end
      else Some (Error ("HTTP " ++ pretty status ++ ": " ++ text body))
  end.

(** [isNetworkError || isServerError] of the [catch] block. *)
Definition retryable (error : JsError) : bool :=
  String.eqb (errName error) "AbortError"
  || includes (errMessage error) "fetch"
  || includes (errMessage error) "network"
  || includes (errMessage error) "timeout"
  || includes (errMessage error) "5".

(** ** The rate limiter of the save endpoint (server side)

    [rateLimitMap] is a [Map] that lives as long as the server module of
    [/api/analytics/save]; [checkRateLimit] reads the clock once, and is
    given that reading and the map. *)

Module RateLimit.
Record ClientData := mkClientData { count : Z; resetTime : Z }.

Definition RATE_LIMIT_WINDOW : Z := 60 * 1000.
Definition RATE_LIMIT_MAX_REQUESTS : Z := 60.

Definition checkRateLimit (now : Z) (sessionId : string)
    (rateLimitMap : gmap string ClientData) : bool * gmap string ClientData :=
  match rateLimitMap !! sessionId with
  | Some clientData =>
      if now >? resetTime clientData then
        (true, <[sessionId := mkClientData 1 (now + RATE_LIMIT_WINDOW)]> rateLimitMap)
      else if count clientData >=? RATE_LIMIT_MAX_REQUESTS then (false, rateLimitMap)
      else
        (true,
         <[sessionId := mkClientData (count clientData + 1) (resetTime clientData)]>
           rateLimitMap)
  | None => (true, <[sessionId := mkClientData 1 (now + RATE_LIMIT_WINDOW)]> rateLimitMap)
  end.

(** Requests checked one after the other; each comes at a time, for a
    session.  The answers are in the order of the requests. *)
Fixpoint checkAll (calls : list (Z * string)) (rateLimitMap : gmap string ClientData)
  : list bool * gmap string ClientData :=
  match calls with
  | [] => ([], rateLimitMap)
  | (now, sessionId) :: calls' =>
      let checked := checkRateLimit now sessionId rateLimitMap in
      let others := checkAll calls' (snd checked) in
      (fst checked :: fst others, snd others)
  end.

(** The answers given to the requests of one session. *)
Fixpoint answersTo (sessionId : string) (calls : list (Z * string)) (answers : list bool)
  : list bool :=
  match calls, answers with
  | (_, s) :: calls', answer :: answers' =>
      if String.eqb s sessionId then answer :: answersTo sessionId calls' answers'
      else answersTo sessionId calls' answers'
  | _, _ => []
  end.

(** The requests of one session. *)
Definition callsOf (sessionId : string) (calls : list (Z * string)) : list (Z * string) :=
  List.filter (fun call => String.eqb (snd call) sessionId) calls.
End RateLimit.

(** ** Concrete sessions, carts and browsers used by examples *)

Module Sample.
Definition shop : Location := mkLocation "pmcell.shop" EmptyString "production".

Definition capa : ProductView.t := ProductView.mk "p1" "Capa Anti-Impacto" "Capas" 1 900 (Some false).
Definition capas : CategoryVisit.t := CategoryVisit.mk "Capas" 1 800 (Some false) None.

(** A session started at 500 whose last cart activity was at [cartAt]. *)
Definition session (cartAt : Z) : UserAnalytics :=
  {| sessionId := "m2r1bz7kx9";
     startTime := 500;
     lastActivity := 1000;
     timeOnSite := 500;
     categoriesVisited := [capas];
     searchTerms := [];
     productsViewed := [capa];
     cartEvents := [];
     lastCartActivity := cartAt;
     whatsappCollected := None;
     whatsappCollectedAt := None |}.

Definition item : CartItem.t := CartItem.mk "p1" 2 (Some "data:image/png;base64,AAAA").
Definition cart : CartBlob := mkCartBlob (Some (Some [item])).

(** Storage holding the session and a cart of one line. *)
Definition storage (a : UserAnalytics) : LocalStorage :=
  mkLocalStorage (Some (Json a)) (Some (Json cart)) None None false.

Definition corrupt_storage : LocalStorage :=
  mkLocalStorage (Some Corrupt) None None None false.

Definition full_storage (a : UserAnalytics) : LocalStorage :=
  mkLocalStorage (Some (Json a)) (Some (Json cart)) None None true.

(** A page at time [t] whose instance holds [a], with nothing pending. *)
Definition world (t : Z) (a : UserAnalytics) (s : LocalStorage) : World :=
  mkWorld t "k3x9" shop s [] 1 [] [] [] a None 0 None.

Definition settings (on : bool) (env : string) : Fetched SettingsBody :=
  Response 200 "OK" (Normal [Setting.mk "cartAbandoned" on env]).

(** 150 calls, one every second from time 1000 on. *)
Definition call (i : nat) : CartCall :=
  mkCartCall (1000 + 1000 * Z.of_nat i) add "p1" 1 None (Some 10%float).
Definition calls : list CartCall := map call (seq 0 150).

(** What [sendCartAbandonedWebhook] builds for [cart] at time [t]. *)
Definition abandoned (t idle : Z) : WebhookData :=
  CartAbandonedData (removeImagesFromCartItems [item]) t idle "m2r1bz7kx9" None.

(** Answers of the sync endpoint: the network is down, and all is well. *)
Definition offline : Fetched SaveBody := Rejected (mkError "TypeError" "Failed to fetch").
Definition saved : Fetched SaveBody :=
  Response 200 "OK" (mkSaveBody (Normal (mkSaveJson false None)) "{}").


(** A queued session that was never retried. *)
Definition queued (a : UserAnalytics) : QueueItem.t := QueueItem.mk (sessionId a) 4000 a 0.

(** Fifty products, each viewed once. *)
Definition viewed (i : nat) : ProductView.t :=
  ProductView.mk ("p" ++ pretty (Z.of_nat i)) "Pelicula" "Peliculas" 1 900 (Some false).
Definition fifty : list ProductView.t := map viewed (seq 100 50).

(** The session of [session], with the fifty products viewed. *)
Definition browsing : UserAnalytics := set_productsViewed fifty (session 0).

Definition delivered : Fetched unit := Response 200 "OK" tt.
Definition refused : Fetched unit := Response 500 "Internal Server Error" tt.
End Sample.

(** * Properties *)

(** ** Stepping through handlers *)

Lemma exec_bind {A B} (m : Js A) (k : A -> Js B) w :
  exec (bind m k) w =
  match result m w with
  | Normal a => exec (k a) (exec m w)
  | Throw _ => exec m w
  end.
Proof. unfold exec, result, bind. destruct (m w) as [[a|e] w']; reflexivity. Qed.

Lemma result_bind {A B} (m : Js A) (k : A -> Js B) w :
  result (bind m k) w =
  match result m w with
  | Normal a => result (k a) (exec m w)
  | Throw e => Throw e
  end.
Proof. unfold exec, result, bind. destruct (m w) as [[a|e] w']; reflexivity. Qed.

Lemma exec_try_catch {A} (m : Js A) (h : JsError -> Js A) w :
  exec (try_catch m h) w =
  match result m w with
  | Normal _ => exec m w
  | Throw e => exec (h e) (exec m w)
  end.
Proof. unfold exec, result, try_catch. destruct (m w) as [[a|e] w']; reflexivity. Qed.

Lemma result_try_catch {A} (m : Js A) (h : JsError -> Js A) w :
  result (try_catch m h) w =
  match result m w with
  | Normal a => Normal a
  | Throw e => result (h e) (exec m w)
  end.
Proof. unfold exec, result, try_catch. destruct (m w) as [[a|e] w']; reflexivity. Qed.

Lemma run_eta {A} (m : Js A) w : m w = (result m w, exec m w).
Proof. unfold result, exec. destruct (m w); reflexivity. Qed.

(** ** Session store *)

Lemma createNewSession_fresh w : createNewSession w = (Normal (freshSession w), w).
Proof. reflexivity. Qed.

(** With nothing stored, [loadAnalytics] makes a fresh session. *)
Lemma loadAnalytics_absent w :
  pmcell_analytics (localStorage w) = None ->
  loadAnalytics w = (Normal (freshSession w), w).
Proof. intros H. unfold loadAnalytics. js_unfold. rewrite H. reflexivity. Qed.

(** A stored session idle for more than 24 hours is replaced by a fresh one. *)
Lemma loadAnalytics_expired w a :
  pmcell_analytics (localStorage w) = Some (Json a) ->
  now w - lastActivity a > 24 * 60 * 60 * 1000 ->
  loadAnalytics w = (Normal (freshSession w), w).
Proof.
  intros H Hold. unfold loadAnalytics. js_unfold. rewrite H. simpl.
  destruct (Z.gtb_spec (now w - lastActivity a) (24 * 60 * 60 * 1000)); [reflexivity | lia].
Qed.

(** A stored session that is recent enough is returned as it is. *)
Lemma loadAnalytics_recent w a :
  pmcell_analytics (localStorage w) = Some (Json a) ->
  now w - lastActivity a <= 24 * 60 * 60 * 1000 ->
  loadAnalytics w = (Normal a, w).
Proof.
  intros H Hnew. unfold loadAnalytics. js_unfold. rewrite H. simpl.
  destruct (Z.gtb_spec (now w - lastActivity a) (24 * 60 * 60 * 1000)); [lia | reflexivity].
Qed.

(** Text that [JSON.parse] rejects makes [loadAnalytics] throw: the call has
    no [try]. *)
Lemma loadAnalytics_corrupt w :
  pmcell_analytics (localStorage w) = Some Corrupt ->
  loadAnalytics w = (Throw (SyntaxError "Unexpected token in JSON"), w).
Proof. intros H. unfold loadAnalytics. js_unfold. rewrite H. reflexivity. Qed.

(** C4. Load fallback.  The stored text [{oops] (not JSON) does not yield a
    fresh session: [loadAnalytics] throws the [SyntaxError] of [JSON.parse],
    the constructor of [Analytics] throws it on, and the corrupt text stays
    in storage. *)
Theorem loadAnalytics_corrupt_storage_throws :
  let w := Sample.world 5000 (Sample.session 0) Sample.corrupt_storage in
  result loadAnalytics w = Throw (SyntaxError "Unexpected token in JSON")
  /\ result constructor w = Throw (SyntaxError "Unexpected token in JSON")
  /\ pmcell_analytics (localStorage (exec constructor w)) = Some Corrupt.
Proof. repeat split. Qed.

(** ** Persistence failures *)

(** [saveAnalytics] has no [try] around [localStorage.setItem]: a refused
    write is thrown to the caller. *)
Lemma saveAnalytics_quota w :
  quotaExceeded (localStorage w) = true ->
  result saveAnalytics w = Throw QuotaExceededError.
Proof. intros H. unfold saveAnalytics. js_unfold. simpl. rewrite H. reflexivity. Qed.

Lemma updateLastActivity_quota w :
  quotaExceeded (localStorage w) = true ->
  result updateLastActivity w = Throw QuotaExceededError.
Proof.
  intros H. unfold updateLastActivity.
  rewrite result_bind. simpl. rewrite result_bind. simpl.
  apply saveAnalytics_quota. exact H.
Qed.

(** Every recorder starts with [updateLastActivity], so a refused write
    reaches the caller of each of them. *)
Lemma recorders_quota w :
  quotaExceeded (localStorage w) = true ->
  (forall name id, result (trackCategoryVisit name id) w = Throw QuotaExceededError)
  /\ (forall term, result (trackSearch term) w = Throw QuotaExceededError)
  /\ (forall id name category, result (trackProductView id name category) w = Throw QuotaExceededError)
  /\ (forall type id quantity name price,
        result (trackCartEvent type id quantity name price) w = Throw QuotaExceededError)
  /\ (forall number, result (trackWhatsAppCollection number) w = Throw QuotaExceededError)
  /\ (forall order, result (trackOrderCompletion order) w = Throw QuotaExceededError).
Proof.
  intros H. pose proof (updateLastActivity_quota w H) as Hu.
  repeat split; intros;
    unfold trackCategoryVisit, trackSearch, trackProductView, trackCartEvent,
      trackWhatsAppCollection, trackOrderCompletion;
    rewrite result_bind, Hu; reflexivity.
Qed.

(** C5. No-throw propagation.  With a browser that refuses the write
    ([setItem] throws [QuotaExceededError]), recording a category visit
    throws that error to its caller, and so does every other recorder. *)
Theorem recorders_throw_on_full_storage :
  let w := Sample.world 5000 (Sample.session 0) (Sample.full_storage (Sample.session 0)) in
  result saveAnalytics w = Throw QuotaExceededError
  /\ result (trackCategoryVisit "Capas" None) w = Throw QuotaExceededError
  /\ result (trackSearch "capinha") w = Throw QuotaExceededError
  /\ result (trackProductView "p1" "Capa Anti-Impacto" "Capas") w = Throw QuotaExceededError
  /\ result (trackCartEvent add "p1" 2 None (Some 10%float)) w = Throw QuotaExceededError
  /\ result (trackWhatsAppCollection "5511999990000") w = Throw QuotaExceededError
  /\ result (trackOrderCompletion (mkOrderData None "{}")) w = Throw QuotaExceededError.
Proof. repeat split. Qed.

(** ** Arrays *)

Lemma slice_last_length {A} (n : nat) (l : list A) : (length (slice_last n l) <= n)%nat.
Proof. unfold slice_last. rewrite length_drop. lia. Qed.

Lemma slice_last_short {A} (n : nat) (l : list A) :
  (length l <= n)%nat -> slice_last n l = l.
Proof.
  intros H. unfold slice_last.
  replace (length l - n)%nat with 0%nat by lia. apply drop_0.
Qed.

(** Trimming before a push does not change what the next trim keeps. *)
Lemma slice_last_app {A} (n : nat) (l k : list A) :
  slice_last n (slice_last n l ++ k) = slice_last n (l ++ k).
Proof.
  destruct (Nat.le_gt_cases (length l) n) as [Hle | Hgt].
  - rewrite (slice_last_short n l Hle). reflexivity.
  - unfold slice_last at 1 3.
    rewrite !length_app. unfold slice_last. rewrite length_drop.
    rewrite <- (drop_app_le l k (length l - n)) by lia.
    rewrite drop_drop. f_equal. lia.
Qed.

(** A push followed by a trim to a positive size keeps the pushed element
    last. *)
Lemma slice_last_snoc {A} (n : nat) (l : list A) (x : A) :
  (0 < n)%nat -> exists l', slice_last n (l ++ [x]) = (l' ++ [x])%list.
Proof.
  intros Hn. unfold slice_last. rewrite length_app. simpl.
  exists (drop (length l + 1 - n) l).
  apply drop_app_le. lia.
Qed.

Lemma slice_last_long {A} (n : nat) (l k : list A) :
  (n <= length k)%nat -> slice_last n (l ++ k) = slice_last n k.
Proof.
  intros H. unfold slice_last. rewrite length_app.
  replace (length l + length k - n)%nat with (length l + (length k - n))%nat by lia.
  rewrite <- drop_drop. rewrite drop_app_length. reflexivity.
Qed.


(** ** Cart events *)

Lemma markAddedToCart_cartEvents productId a :
  cartEvents (markAddedToCart productId a) = cartEvents a.
Proof. unfold markAddedToCart. case_match; reflexivity. Qed.

Lemma markAddedToCart_lastCartActivity productId a :
  lastCartActivity (markAddedToCart productId a) = lastCartActivity a.
Proof. unfold markAddedToCart. case_match; reflexivity. Qed.

Lemma afterCartEvent_cartEvents type productId quantity productName unitPrice t a :
  cartEvents (afterCartEvent type productId quantity productName unitPrice t a)
  = slice_last 100
      (cartEvents a ++ [newCartEvent type productId quantity productName unitPrice t]).
Proof.
  unfold afterCartEvent. simpl.
  destruct (is_add type); [rewrite markAddedToCart_cartEvents |]; reflexivity.
Qed.

(** What one call of [trackCartEvent] does to the session, when the browser
    accepts the writes. *)
Lemma trackCartEvent_ok type productId quantity productName unitPrice w :
  quotaExceeded (localStorage w) = false ->
  result (trackCartEvent type productId quantity productName unitPrice) w = Normal tt
  /\ analytics (exec (trackCartEvent type productId quantity productName unitPrice) w)
     = afterCartEvent type productId quantity productName unitPrice (now w) (analytics w)
  /\ quotaExceeded
       (localStorage (exec (trackCartEvent type productId quantity productName unitPrice) w))
     = false.
Proof.
  intros H.
  unfold trackCartEvent, updateLastActivity, saveAnalytics, debouncedServerSave,
    setupCartAbandonTimer, saveCartToServer, getAnalyticsSnapshot, afterCartEvent.
  js_unfold. simpl. rewrite H. simpl.
  js_cases; repeat split; assumption.
Qed.

(** The session that [trackCartEvent] leaves in storage is the one it leaves
    in memory, as JSON holds it. *)
Lemma trackCartEvent_stored type productId quantity productName unitPrice w :
  quotaExceeded (localStorage w) = false ->
  inSync (exec (trackCartEvent type productId quantity productName unitPrice) w).
Proof.
  intros H.
  unfold inSync, trackCartEvent, updateLastActivity, saveAnalytics, debouncedServerSave,
    setupCartAbandonTimer, saveCartToServer, getAnalyticsSnapshot.
  js_unfold. simpl. rewrite H. simpl.
  js_cases; reflexivity.
Qed.

Lemma callAt_ok c w :
  quotaExceeded (localStorage w) = false ->
  result (callAt c) w = Normal tt
  /\ analytics (exec (callAt c) w)
     = afterCartEvent (call_type c) (call_productId c) (call_quantity c)
         (call_productName c) (call_unitPrice c) (at_time c) (analytics w)
  /\ quotaExceeded (localStorage (exec (callAt c) w)) = false.
Proof.
  intros H. unfold callAt. rewrite result_bind, exec_bind. simpl.
  change (exec (modify (set_now (at_time c))) w) with (set_now (at_time c) w).
  apply (trackCartEvent_ok (call_type c) (call_productId c) (call_quantity c)
           (call_productName c) (call_unitPrice c) (set_now (at_time c) w)).
  exact H.
Qed.

Lemma recordAll_ok cs : forall c w,
  quotaExceeded (localStorage w) = false ->
  result (recordAll (c :: cs)) w = Normal tt
  /\ cartEvents (analytics (exec (recordAll (c :: cs)) w))
     = slice_last 100 (cartEvents (analytics w) ++ map eventOf (c :: cs)).
Proof.
  induction cs as [| c' cs IH]; intros c w H;
    destruct (callAt_ok c w H) as (Hr & Ha & Hq).
  - simpl. rewrite result_bind, exec_bind, Hr. simpl. split; [reflexivity |].
    change (exec (ret tt) (exec (callAt c) w)) with (exec (callAt c) w).
    rewrite Ha. apply afterCartEvent_cartEvents.
  - change (recordAll (c :: c' :: cs)) with (callAt c >> recordAll (c' :: cs)).
    rewrite result_bind, exec_bind, Hr.
    destruct (IH c' (exec (callAt c) w) Hq) as (Hr' & Hl').
    split; [exact Hr' |].
    rewrite Hl', Ha, afterCartEvent_cartEvents.
    rewrite slice_last_app. rewrite <- app_assoc. reflexivity.
Qed.

(** C7. Cart-event log cap.  When the browser accepts the writes, the log
    holds at most 100 entries after a call of [trackCartEvent], whatever it
    held before; and after 150 calls in a row it holds the events of the last
    100 calls, oldest first. *)
Theorem cartEvents_capped w :
  quotaExceeded (localStorage w) = false ->
  (forall type productId quantity productName unitPrice,
      result (trackCartEvent type productId quantity productName unitPrice) w = Normal tt
      /\ (length (cartEvents (analytics
            (exec (trackCartEvent type productId quantity productName unitPrice) w)))
          <= 100)%nat)
  /\ (forall cs, length cs = 150%nat ->
        result (recordAll cs) w = Normal tt
        /\ cartEvents (analytics (exec (recordAll cs) w)) = map eventOf (drop 50 cs)).
Proof.
  intros H. split.
  - intros type productId quantity productName unitPrice.
    destruct (trackCartEvent_ok type productId quantity productName unitPrice w H)
      as (Hr & Ha & _).
    split; [exact Hr |].
    rewrite Ha, afterCartEvent_cartEvents. apply slice_last_length.
  - intros cs Hlen. destruct cs as [| c cs]; [discriminate |].
    destruct (recordAll_ok cs c w H) as (Hr & Hl).
    split; [exact Hr |].
    rewrite Hl, slice_last_long by (rewrite length_map; lia).
    unfold slice_last. rewrite length_map, Hlen.
    change (150 - 100)%nat with 50%nat.
    apply skipn_map.
Qed.

Lemma cartEvents_capped_witness :
  let w := Sample.world 5000 (Sample.session 0) (Sample.storage (Sample.session 0)) in
  (length (cartEvents (analytics (exec (trackCartEvent add "p1" 2 None (Some 10%float)) w)))
   <= 100)%nat
  /\ cartEvents (analytics (exec (recordAll Sample.calls) w))
     = map eventOf (drop 50 Sample.calls).
Proof.
  intros w.
  destruct (cartEvents_capped w eq_refl) as [Hone Hall].
  split.
  - apply (Hone add "p1" 2%float None (Some 10%float)).
  - apply (Hall Sample.calls). reflexivity.
Defined.

(** C8 as stated fails for a price of zero: the event of a call with
    [unitPrice = 0] and [quantity = 2] is stored without [totalPrice], not
    with [0 * 2]. *)
Lemma totalPrice_absent_for_zero_price :
  let w := Sample.world 5000 (Sample.session 0) (Sample.storage (Sample.session 0)) in
  exists e,
    last (cartEvents (analytics (exec (trackCartEvent add "p1" 2 None (Some 0%float)) w)))
    = Some e
    /\ CartEvent.unitPrice e = Some 0%float
    /\ CartEvent.quantity e = 2%float
    /\ CartEvent.totalPrice e = None
    /\ CartEvent.totalPrice e <> Some (PrimFloat.mul 0 2).
Proof.
  eexists. split; [reflexivity |]. repeat split. discriminate.
Qed.

(** The numbers that JavaScript takes for false. *)
Lemma falsy_numbers :
  truthy 0 = false /\ truthy (-0) = false /\ truthy PrimFloat.nan = false
  /\ truthy 10 = true /\ truthy PrimFloat.infinity = true.
Proof. repeat split. Qed.

(** The product is the one of the doubles, not the one of the numbers they
    stand for: 94906267 * 94906267 is 9007199515875289, which no double
    holds, and the event gets the double next to it; a product beyond the
    largest double is [Infinity]; and a quantity that is [NaN] gives the
    total [NaN]. *)
Lemma totalPrice_is_a_double_product :
  let total := fun quantity unitPrice =>
    CartEvent.totalPrice (newCartEvent add "p1" quantity None (Some unitPrice) 5000) in
  total 94906267%float 94906267%float = Some 9007199515875288%float
  /\ total 10%float 0x1p+1023%float = Some PrimFloat.infinity
  /\ total PrimFloat.nan 10%float = Some PrimFloat.nan.
Proof. repeat split. Qed.

(** In storage the total is what JSON keeps of it: a total that is infinite
    or [NaN] is written [null]. *)
Lemma totalPrice_through_JSON :
  let stored := fun quantity unitPrice =>
    CartEvent.totalPrice
      (toJSON_event (newCartEvent add "p1" quantity None (Some unitPrice) 5000)) in
  stored 2%float 10%float = Some 20%float
  /\ stored 10%float 0x1p+1023%float = Some PrimFloat.nan
  /\ stored PrimFloat.nan 10%float = Some PrimFloat.nan.
Proof. repeat split. Qed.

(** What JSON holds comes back from JSON as it is. *)
Lemma toJSON_number_idem x : toJSON_number (toJSON_number x) = toJSON_number x.
Proof.
  unfold toJSON_number.
  destruct (PrimFloat.is_finite x) eqn:Hfinite; [| reflexivity].
  destruct (PrimFloat.eqb x 0) eqn:Hzero; [reflexivity |].
  rewrite Hfinite, Hzero. reflexivity.
Qed.

Lemma toJSON_idem a : toJSON (toJSON a) = toJSON a.
Proof.
  unfold toJSON, set_cartEvents. simpl. f_equal.
  rewrite map_map. apply map_ext. intros e.
  unfold toJSON_event. simpl.
  rewrite toJSON_number_idem.
  destruct (CartEvent.unitPrice e), (CartEvent.totalPrice e); simpl;
    rewrite ?toJSON_number_idem; reflexivity.
Qed.

(** C8, amended.  The event appended by [trackCartEvent] carries the given
    [unitPrice] and [quantity]; its [totalPrice] is the product of the two
    doubles, as JavaScript computes it, when a truthy [unitPrice] is given
    (one that is neither [0], [-0] nor [NaN]), and absent when [unitPrice]
    is absent or falsy.  The session in storage is the one in memory, as
    JSON holds it. *)
Theorem trackCartEvent_totalPrice type productId quantity productName unitPrice w :
  quotaExceeded (localStorage w) = false ->
  exists e,
    result (trackCartEvent type productId quantity productName unitPrice) w = Normal tt
    /\ last (cartEvents (analytics
               (exec (trackCartEvent type productId quantity productName unitPrice) w)))
       = Some e
    /\ CartEvent.unitPrice e = unitPrice
    /\ CartEvent.quantity e = quantity
    /\ (forall price, unitPrice = Some price -> truthy price = true ->
          CartEvent.totalPrice e = Some (PrimFloat.mul price quantity))
    /\ (forall price, unitPrice = Some price -> truthy price = false ->
          CartEvent.totalPrice e = None)
    /\ (unitPrice = None -> CartEvent.totalPrice e = None)
    /\ inSync (exec (trackCartEvent type productId quantity productName unitPrice) w).
Proof.
  intros H.
  destruct (trackCartEvent_ok type productId quantity productName unitPrice w H)
    as (Hr & Ha & _).
  exists (newCartEvent type productId quantity productName unitPrice (now w)).
  split; [exact Hr |]. split.
  - rewrite Ha, afterCartEvent_cartEvents.
    destruct (slice_last_snoc 100 (cartEvents (analytics w))
                (newCartEvent type productId quantity productName unitPrice (now w)))
      as [l' Hl']; [lia |].
    rewrite Hl'. apply last_snoc.
  - split; [reflexivity |]. split; [reflexivity |]. simpl.
    split; [intros price -> Ht; rewrite Ht; reflexivity |].
    split; [intros price -> Hf; rewrite Hf; reflexivity |].
    split; [intros ->; reflexivity |].
    apply trackCartEvent_stored. exact H.
Qed.

Lemma trackCartEvent_totalPrice_witness :
  let w := Sample.world 5000 (Sample.session 0) (Sample.storage (Sample.session 0)) in
  exists e,
    last (cartEvents (analytics (exec (trackCartEvent add "p1" 3 None (Some 0.5%float)) w)))
    = Some e
    /\ CartEvent.totalPrice e = Some 1.5%float.
Proof.
  intros w.
  destruct (trackCartEvent_totalPrice add "p1" 3%float None (Some 0.5%float) w eq_refl)
    as (e & _ & Hlast & _ & _ & Hprice & _).
  exists e. split; [exact Hlast |].
  exact (Hprice 0.5%float eq_refl eq_refl).
Defined.





(** ** Webhook settings *)

Lemma find_snoc {A} (p : A -> bool) (l : list A) (x : A) :
  find p (l ++ [x]) =
  match find p l with
  | Some y => Some y
  | None => if p x then Some x else None
  end.
Proof.
  induction l as [| y l IH]; simpl; [reflexivity |].
  destruct (p y); [reflexivity | exact IH].
Qed.

Lemma convertSettings_from (dbSettings : list Setting.t) :
  forall (settings : gmap string WebhookConfig) (webhookType : string),
  foldl (fun settings setting =>
           <[Setting.webhookType setting :=
               mkConfig (Setting.enabled setting) (toLowerCase (Setting.environment setting))]> settings)
        settings dbSettings !! webhookType
  = match fetchedSetting webhookType dbSettings with
    | Some setting =>
        Some (mkConfig (Setting.enabled setting) (toLowerCase (Setting.environment setting)))
    | None => settings !! webhookType
    end.
Proof.
  unfold fetchedSetting.
  induction dbSettings as [| s rest IH]; intros settings webhookType; simpl; [reflexivity |].
  rewrite IH, find_snoc.
  destruct (find _ (rev rest)); [reflexivity |].
  rewrite lookup_insert.
  destruct (String.eqb_spec (Setting.webhookType s) webhookType) as [-> | Hne].
  - rewrite decide_True by reflexivity. reflexivity.
  - rewrite decide_False by exact Hne. reflexivity.
Qed.

Lemma convertSettings_lookup dbSettings webhookType :
  convertSettings dbSettings !! webhookType
  = (fun setting =>
       mkConfig (Setting.enabled setting) (toLowerCase (Setting.environment setting)))
    <$> fetchedSetting webhookType dbSettings.
Proof.
  unfold convertSettings. rewrite convertSettings_from.
  destruct (fetchedSetting webhookType dbSettings); [reflexivity | apply lookup_empty].
Qed.

(** C9. Production gating.  Outside development, when the settings fetch
    succeeds, each webhook type resolves to [enabled = fetched enabled AND
    fetched environment is production] (the fetched environment is compared
    after lower-casing, and the last fetched row of a type decides); a type
    fetched as enabled with an environment other than production is
    therefore disabled, and the pass of [sendWebhook] that sees it returns
    without any request or change of state. *)
Theorem production_gating (w : World) status statusText dbSettings :
  isDevelopment (location w) = false ->
  ok status = true ->
  let reply := Response status statusText (Normal dbSettings) in
  (forall webhookType,
      getWebhookSettings (location w) reply !! webhookType
      = (fun setting =>
           mkConfig
             (Setting.enabled setting
              && String.eqb (toLowerCase (Setting.environment setting)) "production")
             (toLowerCase (Setting.environment setting)))
        <$> fetchedSetting webhookType dbSettings)
  /\ (forall eventType data postReply maxRetries retryCount net setting,
        fetchedSetting eventType dbSettings = Some setting ->
        String.eqb (toLowerCase (Setting.environment setting)) "production" = false ->
        sendWebhook_try eventType data (mkAttempt reply postReply) w = (Normal tt, w)
        /\ sendWebhook_resume eventType data maxRetries retryCount
             (mkAttempt reply postReply :: net) w = (Normal tt, w)).
Proof.
  intros Hprod Hok reply.
  assert (Hres : forall webhookType,
      getWebhookSettings (location w) reply !! webhookType
      = (fun setting =>
           mkConfig
             (Setting.enabled setting
              && String.eqb (toLowerCase (Setting.environment setting)) "production")
             (toLowerCase (Setting.environment setting)))
        <$> fetchedSetting webhookType dbSettings).
  { intros webhookType. unfold getWebhookSettings, reply, productionSettings.
    rewrite Hok, Hprod, lookup_fmap, convertSettings_lookup.
    destruct (fetchedSetting webhookType dbSettings); reflexivity. }
  split; [exact Hres |].
  intros eventType data postReply maxRetries retryCount net setting Hset Htest.
  assert (Htry : sendWebhook_try eventType data (mkAttempt reply postReply) w = (Normal tt, w)).
  { unfold sendWebhook_try. js_unfold. simpl.
    fold reply. rewrite Hres, Hset. simpl. rewrite Htest, andb_false_r. reflexivity. }
  split; [exact Htry |].
  simpl. unfold try_catch. rewrite Htry. reflexivity.
Qed.

Lemma production_gating_witness :
  let w := Sample.world 5000 (Sample.session 0) (Sample.storage (Sample.session 0)) in
  let reply := Sample.settings true "TEST" in
  (getWebhookSettings (location w) reply !! "cartAbandoned" = Some (mkConfig false "test"))
  /\ sendWebhook_resume "cartAbandoned" (Sample.abandoned 5000 4000) 2 0
       [mkAttempt reply Sample.delivered] w = (Normal tt, w).
Proof.
  intros w reply.
  destruct (production_gating w 200 "OK" [Setting.mk "cartAbandoned" true "TEST"]
              eq_refl eq_refl) as [Hres Hnoop].
  split.
  - exact (eq_trans (Hres "cartAbandoned") eq_refl).
  - apply (Hnoop "cartAbandoned" (Sample.abandoned 5000 4000) Sample.delivered 2 0 []
             (Setting.mk "cartAbandoned" true "TEST") eq_refl eq_refl).
Defined.

(** ** Arming the abandonment timer *)

(** C2 as stated fails when the threshold has already elapsed: with a cart of
    one line, last cart activity at 1000 and the clock at 100000, arming
    computes a remaining time below zero and then does nothing at all: no
    webhook call, no request, no timeout. *)
Lemma expired_arming_does_not_fire :
  let w := Sample.world 100000 (Sample.session 1000) (Sample.storage (Sample.session 1000)) in
  let w' := exec setupCartAbandonTimer w in
  CART_ABANDON_TIME - (now w - lastCartActivity (analytics w)) <= 0
  /\ cart_storage (localStorage w) = Some (Json Sample.cart)
  /\ itemsLength Sample.cart = 1
  /\ w' = w
  /\ cartAbandonedCalls w' = 0%nat
  /\ cartAbandonedPosts w' = 0%nat
  /\ timeouts w' = [].
Proof. repeat split. discriminate. Qed.

(** C2, amended.  Arming first cancels the timeout it holds.  With
    [lastCartActivity > 0] it computes [remaining = threshold - (now -
    lastCartActivity)] and, when [remaining > 0], schedules the abandonment
    callback after [remaining]; when [remaining <= 0] (or there is no cart
    activity) it schedules nothing.  In no case does arming itself call the
    webhook, issue a request or touch the session. *)
Theorem setupCartAbandonTimer_arming w :
  let remaining := CART_ABANDON_TIME - (now w - lastCartActivity (analytics w)) in
  let w' := exec setupCartAbandonTimer w in
  result setupCartAbandonTimer w = Normal tt
  /\ requests w' = requests w
  /\ jobs w' = jobs w
  /\ analytics w' = analytics w
  /\ localStorage w' = localStorage w
  /\ (0 < lastCartActivity (analytics w) -> 0 < remaining ->
        timeouts w'
        = (cancelled (cartAbandonTimer w) (timeouts w)
           ++ [mkTimeout (nextHandle w) (now w) remaining CartAbandonTimerFired])%list
        /\ cartAbandonTimer w' = Some (nextHandle w))
  /\ (lastCartActivity (analytics w) <= 0 \/ remaining <= 0 ->
        timeouts w' = cancelled (cartAbandonTimer w) (timeouts w)
        /\ cartAbandonTimer w' = cartAbandonTimer w).
Proof.
  intros remaining w'. subst remaining w'.
  unfold setupCartAbandonTimer, cancelled. js_unfold. simpl.
  destruct (cartAbandonTimer w) as [h |] eqn:Hh; simpl;
    destruct (Z.gtb_spec (lastCartActivity (analytics w)) 0) as [Hact | Hact]; simpl;
    try destruct (Z.gtb_spec (CART_ABANDON_TIME - (now w - lastCartActivity (analytics w))) 0)
      as [Hrem | Hrem]; simpl;
    repeat split; try reflexivity; try assumption; try lia;
    intros; try lia; try (destruct H; lia).
Qed.

Lemma setupCartAbandonTimer_arming_witness :
  let w := Sample.world 31000 (Sample.session 1000) (Sample.storage (Sample.session 1000)) in
  timeouts (exec setupCartAbandonTimer w) = [mkTimeout 1 31000 30000 CartAbandonTimerFired]
  /\ cartAbandonTimer (exec setupCartAbandonTimer w) = Some 1%nat
  /\ timeouts (exec setupCartAbandonTimer (set_now 61000 w)) = [].
Proof.
  intros w.
  destruct (setupCartAbandonTimer_arming w) as (_ & _ & _ & _ & _ & Harm & _).
  destruct (setupCartAbandonTimer_arming (set_now 61000 w)) as (_ & _ & _ & _ & _ & _ & Hskip).
  destruct Harm as [Ht Hf]; [reflexivity | reflexivity |].
  destruct Hskip as [Ht' _]; [right; discriminate |].
  split; [exact Ht |]. split; [exact Hf | exact Ht'].
Defined.

(** Every recorded cart event re-arms the timer for the whole threshold: the
    event stamps [lastCartActivity] with the current time before arming. *)
Lemma trackCartEvent_rearms type productId quantity productName unitPrice w :
  quotaExceeded (localStorage w) = false ->
  0 < now w ->
  exists ts h,
    timeouts (exec (trackCartEvent type productId quantity productName unitPrice) w)
    = (ts ++ [mkTimeout h (now w) CART_ABANDON_TIME CartAbandonTimerFired])%list
    /\ cartAbandonTimer (exec (trackCartEvent type productId quantity productName unitPrice) w)
       = Some h.
Proof.
  intros H Hnow.
  unfold trackCartEvent, updateLastActivity, saveAnalytics, debouncedServerSave,
    setupCartAbandonTimer, saveCartToServer, getAnalyticsSnapshot.
  js_unfold. simpl. rewrite H. simpl.
  assert (Hlast : forall a, lastCartActivity
     (if is_add type then markAddedToCart productId (set_lastCartActivity (now w) a)
      else set_lastCartActivity (now w) a) = now w).
  { intros a. destruct (is_add type); [apply markAddedToCart_lastCartActivity | reflexivity]. }
  js_cases.
  all: try rewrite Hlast in *.
  all: repeat match goal with
              | H : (?a >? ?b) = _ |- _ =>
                  let H' := fresh in pose proof (Zgt_cases a b) as H'; rewrite H in H'; clear H
              end.
  all: unfold CART_ABANDON_TIME in *; try lia.
  all: rewrite Z.sub_diag; eexists _, _; split; reflexivity.
Qed.

(** ** Server sync: the retry ceiling *)

Lemma saveToLocalQueue_usable w :
  queueUsable w ->
  saveToLocalQueue w
  = (Normal tt,
     set_localStorage
       (set_analytics_queue
          (Some (Json (toJSON_queue (slice_last 50 (storedQueue w ++ [queueItemOf w])%list))))
          (localStorage w)) w).
Proof.
  intros [Hq Hc]. unfold saveToLocalQueue, readQueue, storedQueue, queueItemOf.
  js_unfold. simpl.
  destruct (analytics_queue (localStorage w)) as [[| queue] |]; simpl;
    try rewrite Hq; try reflexivity.
  contradiction Hc. reflexivity.
Qed.

Lemma saveToLocalQueue_frame w :
  result saveToLocalQueue w = Normal tt
  /\ saveToServerRetryCount (exec saveToLocalQueue w) = saveToServerRetryCount w
  /\ requests (exec saveToLocalQueue w) = requests w
  /\ analytics (exec saveToLocalQueue w) = analytics w
  /\ now (exec saveToLocalQueue w) = now w.
Proof.
  unfold saveToLocalQueue, readQueue. js_unfold. simpl.
  js_cases; repeat split.
Qed.

(** The item just queued is the last one of the stored queue. *)
Lemma queued_last (queue : list QueueItem.t) (queueItem : QueueItem.t) :
  exists queue',
    toJSON_queue (slice_last 50 (queue ++ [queueItem]))
    = (queue' ++ [toJSON_queueItem queueItem])%list.
Proof.
  destruct (slice_last_snoc 50 queue queueItem) as [l Hl]; [lia |].
  exists (toJSON_queue l). rewrite Hl. unfold toJSON_queue. rewrite map_app. reflexivity.
Qed.


(** The [catch] block counts the failure; from the third one on it hands the
    session to the local queue, and it never resets the counter. *)
Lemma catch_counts error w :
  let w' := exec (saveAnalyticsToServer_catch error) w in
  result (saveAnalyticsToServer_catch error) w = Normal tt
  /\ saveToServerRetryCount w' = saveToServerRetryCount w + 1
  /\ requests w' = requests w
  /\ analytics w' = analytics w
  /\ now w' = now w
  /\ (MAX_SERVER_SAVE_RETRIES <= saveToServerRetryCount w + 1 ->
        w' = exec saveToLocalQueue
               (set_saveToServerRetryCount (saveToServerRetryCount w + 1) w)).
Proof.
  intros w'. subst w'. unfold saveAnalyticsToServer_catch.
  rewrite !result_bind, !exec_bind. simpl.
  change (exec (modify (fun w => set_saveToServerRetryCount (saveToServerRetryCount w + 1) w)) w)
    with (set_saveToServerRetryCount (saveToServerRetryCount w + 1) w).
  set (w1 := set_saveToServerRetryCount (saveToServerRetryCount w + 1) w).
  destruct (saveToLocalQueue_frame w1) as (Hr & Hc & Hreq & Ha & Hn).
  change (exec (gets saveToServerRetryCount) w1) with w1.
  destruct (Z.ltb_spec (saveToServerRetryCount w + 1) MAX_SERVER_SAVE_RETRIES) as [Hlt | Hge];
    simpl.
  - destruct (_ || _); simpl.
    + repeat split; try reflexivity. intros. lia.
    + rewrite Hr, Hc, Hreq, Ha, Hn. repeat split; reflexivity.
  - rewrite Hr, Hc, Hreq, Ha, Hn. repeat split; reflexivity.
Qed.







(** The counter is zeroed by a 2xx answer or a 503 fallback answer only.
    Once the ceiling is reached no new request goes out, so such an answer
    can only be the one of a request that was still in flight: sync calls
    that overlap, the first of which is answered after the ceiling was
    reached. *)
Lemma late_answer_resets_counter :
  let w := Sample.world 5000 (Sample.session 0) (Sample.storage (Sample.session 0)) in
  let w3 := exec (saveAnalyticsToServer >> syncAttempt Sample.offline
                  >> syncAttempt Sample.offline >> syncAttempt Sample.offline) w in
  let w4 := exec (saveAnalyticsToServer_resume Sample.saved) w3 in
  saveToServerRetryCount w3 = 3
  /\ length (requests w3) = 4%nat
  /\ saveToServerRetryCount w4 = 0.
Proof. vm_compute. repeat split. Qed.



(** ** Abandonment: the timer and the one-shot check *)

Lemma sendCartAbandonedWebhook_fires w cart :
  cart_storage (localStorage w) = Some (Json cart) ->
  0 < itemsLength cart ->
  sendCartAbandonedWebhook w = (Normal tt, withCartAbandonedCall (abandonedData cart w) w).
Proof.
  intros Hc Hn. unfold sendCartAbandonedWebhook, sendWebhook. js_unfold. rewrite Hc. simpl.
  destruct (Z.gtb_spec (itemsLength cart) 0); [reflexivity | lia].
Qed.

(** JSON keeps the fields of a session that are not numbers of cart events. *)
Lemma persisted_inSync w :
  inSync w -> persistedLastCartActivity w = Some (lastCartActivity (analytics w)).
Proof. unfold inSync, persistedLastCartActivity. intros ->. reflexivity. Qed.

(** [saveAnalytics], when the browser accepts the write. *)
Lemma saveAnalytics_ok w :
  quotaExceeded (localStorage w) = false ->
  let w' := exec saveAnalytics w in
  result saveAnalytics w = Normal tt
  /\ analytics w' = analytics w
  /\ pmcell_analytics (localStorage w') = Some (Json (toJSON (analytics w)))
  /\ cart_storage (localStorage w') = cart_storage (localStorage w)
  /\ quotaExceeded (localStorage w') = false
  /\ requests w' = requests w
  /\ jobs w' = jobs w
  /\ now w' = now w
  /\ location w' = location w.
Proof.
  intros H w'. subst w'. unfold saveAnalytics, debouncedServerSave. js_unfold. simpl.
  rewrite H. simpl. js_cases; repeat split; assumption.
Qed.

(** The abandonment callback on a non-empty cart: one call of the webhook
    dispatcher, then the reset, then the save. *)
Lemma cartAbandonTimerFired_run w cart :
  cart_storage (localStorage w) = Some (Json cart) ->
  0 < itemsLength cart ->
  cartAbandonTimerFired w
  = saveAnalytics
      (set_analytics (set_lastCartActivity 0 (analytics w))
         (withCartAbandonedCall (abandonedData cart w) w)).
Proof.
  intros Hc Hn. unfold cartAbandonTimerFired, bind at 1.
  rewrite (sendCartAbandonedWebhook_fires w cart Hc Hn). reflexivity.
Qed.

Lemma cartAbandonTimerFired_fires w cart :
  cart_storage (localStorage w) = Some (Json cart) ->
  0 < itemsLength cart ->
  quotaExceeded (localStorage w) = false ->
  let w' := exec cartAbandonTimerFired w in
  result cartAbandonTimerFired w = Normal tt
  /\ analytics w' = set_lastCartActivity 0 (analytics w)
  /\ pmcell_analytics (localStorage w')
     = Some (Json (toJSON (set_lastCartActivity 0 (analytics w))))
  /\ cart_storage (localStorage w') = cart_storage (localStorage w)
  /\ quotaExceeded (localStorage w') = false
  /\ requests w' = (requests w ++ [GET_webhook_settings])%list
  /\ jobs w' = (jobs w ++ [SendWebhookJob "cartAbandoned" (abandonedData cart w) 2])%list
  /\ now w' = now w
  /\ location w' = location w.
Proof.
  intros Hc Hn Hq w'. subst w'. unfold exec, result.
  rewrite (cartAbandonTimerFired_run w cart Hc Hn).
  apply (saveAnalytics_ok
           (set_analytics (set_lastCartActivity 0 (analytics w))
              (withCartAbandonedCall (abandonedData cart w) w))).
  exact Hq.
Qed.

(** The one-shot check on an expired, non-empty cart does what the timer
    callback does. *)
Lemma checkForAbandonedCart_fires w cart :
  cart_storage (localStorage w) = Some (Json cart) ->
  0 < itemsLength cart ->
  lastCartActivity (analytics w) <> 0 ->
  CART_ABANDON_TIME <= now w - lastCartActivity (analytics w) ->
  quotaExceeded (localStorage w) = false ->
  checkForAbandonedCart w = cartAbandonTimerFired w.
Proof.
  intros Hc Hn Ha He Hq.
  pose proof (cartAbandonTimerFired_fires w cart Hc Hn Hq) as Hfire. cbv zeta in Hfire.
  destruct Hfire as (Hr & _).
  assert (Hbody : checkForAbandonedCart_try w = cartAbandonTimerFired w).
  { unfold checkForAbandonedCart_try. js_unfold. rewrite Hc. simpl.
    destruct (Z.eqb_spec (itemsLength cart) 0); [lia |].
    destruct (Z.eqb_spec (lastCartActivity (analytics w)) 0); [contradiction |].
    destruct (Z.geb_spec (now w - lastCartActivity (analytics w)) CART_ABANDON_TIME); [| lia].
    reflexivity. }
  unfold checkForAbandonedCart, try_catch. rewrite Hbody.
  rewrite (run_eta cartAbandonTimerFired w), Hr. reflexivity.
Qed.


(** ** Abandonment: the sweep *)


(** The sweep works on storage and on the network only. *)
Lemma sweep_frame w net :
  let w' := exec (checkAbandonedCartGlobal net) w in
  analytics w' = analytics w
  /\ jobs w' = jobs w
  /\ timeouts w' = timeouts w
  /\ cartAbandonTimer w' = cartAbandonTimer w
  /\ cart_storage (localStorage w') = cart_storage (localStorage w)
  /\ now w' = now w.
Proof.
  intros w'. subst w'. unfold checkAbandonedCartGlobal. js_unfold. simpl.
  js_cases; repeat split.
Qed.

(** On an expired, non-empty cart the sweep makes its attempt: it asks for
    the webhook settings. *)
Lemma sweep_attempts w net a cart :
  cart_storage (localStorage w) = Some (Json cart) ->
  0 < itemsLength cart ->
  pmcell_analytics (localStorage w) = Some (Json a) ->
  lastCartActivity a <> 0 ->
  CART_ABANDON_TIME <= now w - lastCartActivity a ->
  exists rest,
    requests (exec (checkAbandonedCartGlobal net) w)
    = (requests w ++ GET_webhook_settings :: rest)%list.
Proof.
  intros Hc Hn Hs Ha He.
  unfold checkAbandonedCartGlobal. js_unfold. simpl.
  rewrite Hc. simpl.
  destruct (Z.eqb_spec (itemsLength cart) 0); [lia |].
  rewrite Hs. simpl.
  destruct (Z.eqb_spec (lastCartActivity a) 0); [contradiction |].
  unfold CART_ABANDON_TIME in He.
  destruct (Z.geb_spec (now w - lastCartActivity a) (1 * 60 * 1000)); [| lia].
  simpl.
  js_cases; try rewrite <- app_assoc; simpl; eexists; reflexivity.
Qed.

(** Unless the webhook gets delivered, the sweep writes nothing. *)
Lemma sweep_undelivered w net :
  sweepDelivers net = false ->
  result (checkAbandonedCartGlobal net) w = Normal false
  /\ localStorage (exec (checkAbandonedCartGlobal net) w) = localStorage w.
Proof.
  unfold sweepDelivers. intros Hd.
  unfold checkAbandonedCartGlobal. js_unfold. simpl.
  destruct net as [settings post]. simpl in *.
  js_cases; repeat split.
  all: repeat match goal with
              | H : negb _ = false |- _ => apply negb_false_iff in H; rewrite H in *
              end;
       simpl in *; discriminate.
Qed.



(** ** The webhook job *)

(** Whatever the network answers, the retry loop of [sendWebhook] leaves the
    session, in memory and in storage, and the cart untouched. *)
Lemma sendWebhook_try_frame eventType data a w :
  let w' := exec (sendWebhook_try eventType data a) w in
  analytics w' = analytics w
  /\ pmcell_analytics (localStorage w') = pmcell_analytics (localStorage w)
  /\ cart_storage (localStorage w') = cart_storage (localStorage w)
  /\ now w' = now w.
Proof.
  intros w'. subst w'.
  unfold sendWebhook_try, logWebhook, getAnalyticsSnapshot. js_unfold. simpl.
  destruct (getWebhookSettings (location w) (settingsReply a) !! eventType) as [cfg |];
    [| repeat split].
  destruct (negb (enabled cfg)); [repeat split |].
  destruct (postReply a) as [e | status statusText body]; simpl.
  - js_cases; repeat split.
  - js_cases; repeat split.
Qed.

Lemma sendWebhook_resume_frame eventType data maxRetries net :
  forall retryCount w,
  let w' := exec (sendWebhook_resume eventType data maxRetries retryCount net) w in
  analytics w' = analytics w
  /\ pmcell_analytics (localStorage w') = pmcell_analytics (localStorage w)
  /\ cart_storage (localStorage w') = cart_storage (localStorage w)
  /\ now w' = now w.
Proof.
  induction net as [| a net IH]; intros retryCount w w'; subst w'; simpl.
  - repeat split.
  - rewrite exec_try_catch.
    pose proof (sendWebhook_try_frame eventType data a w) as Ht. cbv zeta in Ht.
    destruct (result (sendWebhook_try eventType data a) w) as [[] | e]; [exact Ht |].
    destruct (retryCount + 1 <=? maxRetries); [| exact Ht].
    rewrite exec_bind. simpl.
    change (exec (fetch GET_webhook_settings) ?v)
      with (set_requests (requests v ++ [GET_webhook_settings]) v).
    pose proof (IH (retryCount + 1)
                  (set_requests
                     (requests (exec (sendWebhook_try eventType data a) w)
                      ++ [GET_webhook_settings])
                     (exec (sendWebhook_try eventType data a) w))) as Hn.
    cbv zeta in Hn. simpl in Hn.
    destruct Ht as (H1 & H2 & H3 & H4). destruct Hn as (H1' & H2' & H3' & H4').
    rewrite H1', H2', H3', H4'. repeat split; assumption.
Qed.



(** The timer callback resets [lastCartActivity] in memory and in storage
    whatever the cart holds, before any answer of the network. *)
Lemma cartAbandonTimerFired_resets w :
  quotaExceeded (localStorage w) = false ->
  lastCartActivity (analytics (exec cartAbandonTimerFired w)) = 0
  /\ persistedLastCartActivity (exec cartAbandonTimerFired w) = Some 0.
Proof.
  intros Hq.
  unfold cartAbandonTimerFired, sendCartAbandonedWebhook, sendWebhook, resetLastCartActivity,
    saveAnalytics, debouncedServerSave, persistedLastCartActivity.
  js_unfold. simpl.
  destruct (cart_storage (localStorage w)) as [[| cart] |]; simpl;
    try destruct (itemsLength cart >? 0); simpl; rewrite Hq; simpl;
    destruct (serverSaveTimeout w); simpl; split; reflexivity.
Qed.

(** After a delivered sweep the instance still holds the old
    [lastCartActivity]: the sweep does not disarm the timer, whose callback
    calls the dispatcher once more. *)
Lemma sweep_leaves_timer_armed :
  let w := Sample.world 100000 (Sample.session 1000) (Sample.storage (Sample.session 1000)) in
  let net := mkAttempt (Sample.settings true "PRODUCTION") Sample.delivered in
  let w1 := exec (checkAbandonedCartGlobal net) w in
  let w2 := exec cartAbandonTimerFired w1 in
  cartAbandonedPosts w1 = 1%nat
  /\ persistedLastCartActivity w1 = Some 0
  /\ lastCartActivity (analytics w1) = 1000
  /\ cartAbandonedCalls w2 = 1%nat.
Proof. vm_compute. repeat split. Qed.

(** C10. Sweep atomicity on failure.  The sweep never touches the instance.
    Unless its webhook gets delivered (settings fetched, [cartAbandoned]
    enabled, POST answered 2xx) it returns [false] and leaves [localStorage],
    and with it the persisted session, as it was; so a change of storage
    implies a delivered POST, and after an undelivered sweep of an expired,
    non-empty cart the next sweep makes its attempt again.  The timer callback and the one-shot check,
    when they fire, zero [lastCartActivity] in memory and in storage before
    any answer arrives, and no answer to their webhook call undoes it. *)
Theorem sweep_resets_only_on_delivery w :
  (forall net,
      sweepDelivers net = false ->
      result (checkAbandonedCartGlobal net) w = Normal false
      /\ localStorage (exec (checkAbandonedCartGlobal net) w) = localStorage w)
  /\ (forall net,
        localStorage (exec (checkAbandonedCartGlobal net) w) <> localStorage w ->
        sweepDelivers net = true)
  /\ (forall net, analytics (exec (checkAbandonedCartGlobal net) w) = analytics w)
  /\ (quotaExceeded (localStorage w) = false ->
      forall eventType data maxRetries retryCount jobnet,
        let w1 := exec cartAbandonTimerFired w in
        let w2 := exec (sendWebhook_resume eventType data maxRetries retryCount jobnet) w1 in
        lastCartActivity (analytics w1) = 0
        /\ persistedLastCartActivity w1 = Some 0
        /\ lastCartActivity (analytics w2) = 0
        /\ persistedLastCartActivity w2 = Some 0)
  /\ (quotaExceeded (localStorage w) = false ->
      forall cart,
        cart_storage (localStorage w) = Some (Json cart) ->
        0 < itemsLength cart ->
        lastCartActivity (analytics w) <> 0 ->
        CART_ABANDON_TIME <= now w - lastCartActivity (analytics w) ->
        forall eventType data maxRetries retryCount jobnet,
          let w1 := exec checkForAbandonedCart w in
          let w2 := exec (sendWebhook_resume eventType data maxRetries retryCount jobnet) w1 in
          lastCartActivity (analytics w1) = 0
          /\ persistedLastCartActivity w1 = Some 0
          /\ lastCartActivity (analytics w2) = 0
          /\ persistedLastCartActivity w2 = Some 0)
  /\ (forall net a cart,
        cart_storage (localStorage w) = Some (Json cart) ->
        0 < itemsLength cart ->
        pmcell_analytics (localStorage w) = Some (Json a) ->
        lastCartActivity a <> 0 ->
        CART_ABANDON_TIME <= now w - lastCartActivity a ->
        sweepDelivers net = false ->
        let w1 := exec (checkAbandonedCartGlobal net) w in
        pmcell_analytics (localStorage w1) = Some (Json a)
        /\ forall net', exists rest,
             requests (exec (checkAbandonedCartGlobal net') w1)
             = (requests w1 ++ GET_webhook_settings :: rest)%list).
Proof.
  assert (Htimer : quotaExceeded (localStorage w) = false ->
      forall eventType data maxRetries retryCount jobnet,
        let w1 := exec cartAbandonTimerFired w in
        let w2 := exec (sendWebhook_resume eventType data maxRetries retryCount jobnet) w1 in
        lastCartActivity (analytics w1) = 0
        /\ persistedLastCartActivity w1 = Some 0
        /\ lastCartActivity (analytics w2) = 0
        /\ persistedLastCartActivity w2 = Some 0).
  { intros Hq eventType data maxRetries retryCount jobnet w1 w2.
    destruct (cartAbandonTimerFired_resets w Hq) as [Hm Hp].
    pose proof (sendWebhook_resume_frame eventType data maxRetries jobnet retryCount w1) as Hf.
    cbv zeta in Hf. destruct Hf as (Ha & Hs & _ & _).
    subst w2. unfold persistedLastCartActivity in *. rewrite Ha, Hs.
    repeat split; assumption. }
  split; [intros net Hd; apply sweep_undelivered; exact Hd |].
  split.
  { intros net Hch. destruct (sweepDelivers net) eqn:Hd; [reflexivity |].
    destruct (sweep_undelivered w net Hd) as [_ Hsame]. contradiction. }
  split.
  { intros net. pose proof (sweep_frame w net) as Hf. cbv zeta in Hf. apply Hf. }
  split; [exact Htimer |].
  split.
  { intros Hq cart Hc Hn Ha He eventType data maxRetries retryCount jobnet.
    assert (Heq : exec checkForAbandonedCart w = exec cartAbandonTimerFired w)
      by (unfold exec; rewrite (checkForAbandonedCart_fires w cart Hc Hn Ha He Hq); reflexivity).
    rewrite Heq. apply (Htimer Hq). }
  intros net a cart Hc Hn Hs Ha He Hd w1.
  destruct (sweep_undelivered w net Hd) as [_ Hsame].
  pose proof (sweep_frame w net) as Hf. cbv zeta in Hf.
  destruct Hf as (_ & _ & _ & _ & _ & Hnow).
  fold w1 in Hsame, Hnow.
  split; [rewrite Hsame; exact Hs |].
  intros net'. apply (sweep_attempts w1 net' a cart).
  - rewrite Hsame. exact Hc.
  - exact Hn.
  - rewrite Hsame. exact Hs.
  - exact Ha.
  - rewrite Hnow. exact He.
Qed.

Lemma sweep_resets_only_on_delivery_witness :
  let w := Sample.world 100000 (Sample.session 1000) (Sample.storage (Sample.session 1000)) in
  let refused := mkAttempt (Sample.settings true "PRODUCTION") Sample.refused in
  let disabled := mkAttempt (Sample.settings false "PRODUCTION") Sample.delivered in
  localStorage (exec (checkAbandonedCartGlobal refused) w) = localStorage w
  /\ localStorage (exec (checkAbandonedCartGlobal disabled) w) = localStorage w
  /\ persistedLastCartActivity
       (exec (sendWebhook_resume "cartAbandoned" (Sample.abandoned 100000 99000) 2 0
                [mkAttempt (Sample.settings true "PRODUCTION") Sample.refused])
          (exec cartAbandonTimerFired w)) = Some 0
  /\ persistedLastCartActivity (exec checkForAbandonedCart w) = Some 0.
Proof.
  intros w refused disabled.
  pose proof (sweep_resets_only_on_delivery w) as H.
  destruct H as (Hfail & _ & _ & Htimer & Hinit & _).
  pose proof (Hfail refused eq_refl) as [_ H1].
  pose proof (Hfail disabled eq_refl) as [_ H2].
  pose proof (Htimer eq_refl "cartAbandoned" (Sample.abandoned 100000 99000) 2 0
                [mkAttempt (Sample.settings true "PRODUCTION") Sample.refused]) as H3.
  cbv zeta in H3. destruct H3 as (_ & _ & _ & H3).
  assert (Hidle : CART_ABANDON_TIME <= now w - lastCartActivity (analytics w))
    by (vm_compute; discriminate).
  assert (Hact : lastCartActivity (analytics w) <> 0) by (vm_compute; discriminate).
  pose proof (Hinit eq_refl Sample.cart eq_refl eq_refl Hact Hidle
                "cartAbandoned" (Sample.abandoned 100000 99000) 2 0 []) as H4.
  cbv zeta in H4. destruct H4 as (_ & H4 & _).
  split; [exact H1 |]. split; [exact H2 |]. split; [exact H3 | exact H4].
Defined.

(** A delivered POST whose log entry cannot be saved makes the pass throw:
    [logWebhook] runs inside the [try] of the loop. *)
Lemma sendWebhook_try_unlogged data a w :
  dispatcherDelivers (location w) a = true ->
  logUnusable w ->
  let w' := exec (sendWebhook_try "cartAbandoned" data a) w in
  (exists e, result (sendWebhook_try "cartAbandoned" data a) w = Throw e)
  /\ cartAbandonedPosts w' = S (cartAbandonedPosts w)
  /\ localStorage w' = localStorage w
  /\ location w' = location w.
Proof.
  intros Hd Hl w'. subst w'. unfold dispatcherDelivers, logUnusable in *.
  destruct (getWebhookSettings (location w) (settingsReply a) !! "cartAbandoned")
    as [cfg |] eqn:Hcfg; simpl in Hd; [| discriminate].
  destruct (enabled cfg) eqn:Hen; simpl in Hd; [| discriminate].
  destruct (postReply a) as [e | status statusText body] eqn:Hp; [discriminate |].
  unfold sendWebhook_try, logWebhook, getAnalyticsSnapshot, cartAbandonedPosts.
  js_unfold. simpl. rewrite Hcfg, Hen, Hp. simpl. rewrite Hd. simpl.
  assert (Hcount : forall url payload,
             WebhookPayload.event payload = "cartAbandoned" ->
             length (List.filter is_cartAbandoned_post
                       (requests w ++ [POST_webhook url payload])%list)
             = S (length (List.filter is_cartAbandoned_post (requests w)))).
  { intros url payload He. rewrite List.filter_app, length_app. simpl. rewrite He. simpl. lia. }
  destruct (webhookLogs (localStorage w)) as [[| logs] |] eqn:Hlogs;
    destruct (quotaExceeded (localStorage w)) eqn:Hq; simpl;
    try rewrite Hq; simpl;
    try (destruct Hl; discriminate);
    (split; [eexists; reflexivity |]);
    (split; [apply Hcount; reflexivity |]); split; reflexivity.
Qed.

Lemma sendWebhook_resume_unlogged data maxRetries net : forall retryCount w,
  logUnusable w ->
  Forall (fun a => dispatcherDelivers (location w) a = true) net ->
  retryCount <= maxRetries ->
  Z.of_nat (length net) = maxRetries + 1 - retryCount ->
  let w' := exec (sendWebhook_resume "cartAbandoned" data maxRetries retryCount net) w in
  result (sendWebhook_resume "cartAbandoned" data maxRetries retryCount net) w = Normal tt
  /\ cartAbandonedPosts w' = (cartAbandonedPosts w + length net)%nat.
Proof.
  induction net as [| a net IH]; intros retryCount w Hl Hd Hle Hlen w'; subst w'.
  - simpl. change (exec (ret tt) w) with w. split; [reflexivity | lia].
  - inversion Hd as [| ? ? Ha Hrest]; subst.
    pose proof (sendWebhook_try_unlogged data a w Ha Hl) as T. cbv zeta in T.
    destruct T as ([e R] & Hposts & Hst & Hloc).
    simpl sendWebhook_resume. rewrite exec_try_catch, result_try_catch, R.
    simpl length in *.
    destruct (Z.leb_spec (retryCount + 1) maxRetries) as [Hmore | Hlast].
    + rewrite exec_bind, result_bind.
      change (result (fetch GET_webhook_settings) ?v) with (@Normal unit tt). cbv beta iota.
      change (exec (fetch GET_webhook_settings) ?v)
        with (set_requests (requests v ++ [GET_webhook_settings]) v).
      set (w0 := exec (sendWebhook_try "cartAbandoned" data a) w) in *.
      set (w1 := set_requests (requests w0 ++ [GET_webhook_settings]) w0).
      assert (Hl1 : logUnusable w1) by (unfold logUnusable, w1 in *; simpl; rewrite Hst; exact Hl).
      assert (Hd1 : Forall (fun a => dispatcherDelivers (location w1) a = true) net).
      { eapply Forall_impl; [exact Hrest |]. simpl. intros x Hx.
        unfold w1. simpl. rewrite Hloc. exact Hx. }
      assert (Hp1 : cartAbandonedPosts w1 = S (cartAbandonedPosts w)).
      { unfold cartAbandonedPosts, w1 in *. simpl.
        rewrite List.filter_app, length_app. simpl. lia. }
      pose proof (IH (retryCount + 1) w1 Hl1 Hd1 Hmore ltac:(lia)) as Hn. cbv zeta in Hn.
      destruct Hn as (Hr & Hn). split; [exact Hr |]. rewrite Hn, Hp1. lia.
    + assert (net = []) by (destruct net; [reflexivity | simpl in Hlen; lia]). subst net.
      change (result (ret tt) ?v) with (@Normal unit tt).
      change (exec (ret tt) ?v) with v.
      split; [reflexivity |]. rewrite Hposts. simpl. lia.
Qed.




(** * Further properties of the analytics module *)

(** ** The local queue processor *)

Lemma processQueueItem_kept queueItem r kept :
  processQueueItem queueItem r = Some kept ->
  kept = bumpRetries queueItem /\ QueueItem.retries kept <= retryCeiling r.
Proof.
  unfold processQueueItem, keepBelow, retryCeiling. intros H.
  repeat case_match; simplify_eq; split; try reflexivity;
    repeat match goal with
           | H : (?a >? ?b) = false |- _ =>
               let H' := fresh in pose proof (Zgt_cases a b) as H'; rewrite H in H'; clear H
           end; lia.
Qed.


(** A walk with an answer for every item: what stays was there before, in
    the same order, with one more retry, and has at most 5 retries. *)
Lemma processQueue_kept queue : forall replies,
  (length queue <= length replies)%nat ->
  exists stays,
    sublist stays queue
    /\ processQueue queue replies = map bumpRetries stays
    /\ Forall (fun kept => QueueItem.retries kept <= 5) (processQueue queue replies).
Proof.
  induction queue as [| q queue IH]; intros [| r replies] Hlen; simpl in *; try lia.
  - exists []. repeat split; constructor.
  - exists []. repeat split; constructor.
  - destruct (IH replies ltac:(lia)) as (stays & Hsub & Heq & Hall).
    destruct (processQueueItem q r) as [kept |] eqn:Hq.
    + destruct (processQueueItem_kept q r kept Hq) as [-> Hle].
      assert (retryCeiling r <= 5) by (unfold retryCeiling; repeat case_match; lia).
      exists (q :: stays). split; [constructor; exact Hsub |].
      split; [simpl; rewrite Heq; reflexivity |].
      constructor; [lia | assumption].
    + exists stays. split; [constructor; exact Hsub |]. split; assumption.
Qed.






Lemma set_requests_same w : set_requests (requests w ++ []) w = w.
Proof. rewrite app_nil_r. destruct w; reflexivity. Qed.

(** The loop, run: the POSTs of the items after the first one that got its
    answer go out, and once every item has its answer the array is written. *)
Lemma processLocalQueue_loop_run queue : forall kept replies w,
  processLocalQueue_loop kept queue replies w
  = if (length replies <? length queue)%nat
    then (Normal tt, set_requests (requests w ++ laterPosts queue replies) w)
    else setItem
           (set_analytics_queue
              (Some (Json (toJSON_queue (kept ++ processQueue queue replies)))))
           (set_requests (requests w ++ laterPosts queue replies) w).
Proof.
  induction queue as [| q queue IH]; intros kept replies w.
  - unfold laterPosts. simpl. rewrite take_nil. simpl.
    rewrite set_requests_same.
    destruct replies; simpl; rewrite app_nil_r; reflexivity.
  - destruct replies as [| r replies].
    + unfold laterPosts. simpl. rewrite set_requests_same. reflexivity.
    + cbn [processLocalQueue_loop]. unfold bind.
      change (length (r :: replies) <? length (q :: queue))%nat
        with (length replies <? length queue)%nat.
      destruct queue as [| next queue].
      * unfold ret. rewrite IH. unfold laterPosts. simpl. rewrite !take_nil. simpl.
        rewrite !set_requests_same.
        destruct (processQueueItem q r); simpl; rewrite ?app_nil_r; reflexivity.
      * unfold fetch, modify. rewrite IH. unfold laterPosts.
        cbn [tail length take map requests set_requests].
        rewrite <- !app_assoc. cbn [app].
        replace (set_requests
                   (requests w
                    ++ POST_analytics_save_queued (queuedPayload next)
                       :: map (fun queueItem => POST_analytics_save_queued (queuedPayload queueItem))
                            (take (length replies) queue))
                   (set_requests
                      (requests w ++ [POST_analytics_save_queued (queuedPayload next)]) w))
          with (set_requests
                  (requests w
                   ++ POST_analytics_save_queued (queuedPayload next)
                      :: map (fun queueItem => POST_analytics_save_queued (queuedPayload queueItem))
                           (take (length replies) queue)) w)
          by reflexivity.
        cbn [processQueue].
        destruct (processQueueItem q r); rewrite <- ?app_assoc; reflexivity.
Qed.

(** A walk commutes with the passage through JSON: it changes the retry
    counts only.  So do several walks, each reading what the one before it
    wrote. *)
Lemma processQueue_toJSON queue : forall replies,
  processQueue (toJSON_queue queue) replies = toJSON_queue (processQueue queue replies).
Proof.
  induction queue as [| q queue IH]; intros [| r replies]; try reflexivity.
  cbn [toJSON_queue map processQueue]. fold (toJSON_queue queue). rewrite IH.
  assert (Hq : processQueueItem (toJSON_queueItem q) r
               = option_map toJSON_queueItem (processQueueItem q r)).
  { unfold processQueueItem, keepBelow, bumpRetries, toJSON_queueItem. simpl.
    repeat case_match; reflexivity. }
  rewrite Hq. destruct (processQueueItem q r); reflexivity.
Qed.

Lemma processPasses_toJSON passes : forall queue,
  processPasses passes (toJSON_queue queue) = toJSON_queue (processPasses passes queue).
Proof.
  induction passes as [| replies passes IH]; intros queue; simpl; [reflexivity |].
  rewrite processQueue_toJSON. apply IH.
Qed.

(** The call, up to its first [await]. *)
Lemma processLocalQueue_start w :
  processLocalQueue w
  = (Normal tt,
     match storedQueue w with
     | [] => w
     | queueItem :: _ =>
         set_jobs (jobs w ++ [ProcessLocalQueueJob (storedQueue w)])
           (set_requests
              (requests w ++ [POST_analytics_save_queued (queuedPayload queueItem)]) w)
     end).
Proof.
  unfold processLocalQueue, readQueue, storedQueue. js_unfold.
  destruct (analytics_queue (localStorage w)) as [[| [| queueItem stored]] |];
    reflexivity.
Qed.

(** X2. The queue processor never fails its caller, reads the queue once and
    writes back the array it read.  The call returns at once on an empty,
    missing or unreadable queue; otherwise it POSTs the oldest item and
    waits, holding the array.  The walk touches neither the session nor the
    cart nor the timers; an answer handled, it POSTs the next item; while an
    answer is missing, and when the browser refuses the write, the storage
    stays as it was; with every item answered it overwrites the stored queue
    with what it kept of the array it had read (items of that array, in
    their order, each with one more retry), whatever the storage held by
    then. *)
Theorem processLocalQueue_walk queue replies w :
  processLocalQueue w
  = (Normal tt,
     match storedQueue w with
     | [] => w
     | queueItem :: _ =>
         set_jobs (jobs w ++ [ProcessLocalQueueJob (storedQueue w)])
           (set_requests
              (requests w ++ [POST_analytics_save_queued (queuedPayload queueItem)]) w)
     end)
  /\ let w' := exec (processLocalQueue_resume queue replies) w in
     result (processLocalQueue_resume queue replies) w = Normal tt
     /\ analytics w' = analytics w
     /\ pmcell_analytics (localStorage w') = pmcell_analytics (localStorage w)
     /\ cart_storage (localStorage w') = cart_storage (localStorage w)
     /\ timeouts w' = timeouts w
     /\ requests w' = (requests w ++ laterPosts queue replies)%list
     /\ ((length replies < length queue)%nat \/ quotaExceeded (localStorage w) = true ->
         localStorage w' = localStorage w)
     /\ ((length queue <= length replies)%nat ->
         quotaExceeded (localStorage w) = false ->
         analytics_queue (localStorage w')
         = Some (Json (toJSON_queue (processQueue queue replies)))
         /\ exists stays,
              sublist stays queue
              /\ processQueue queue replies = map bumpRetries stays).
Proof.
  split; [exact (processLocalQueue_start w) |].
  intros w'. subst w'.
  unfold processLocalQueue_resume, exec, result, try_catch.
  rewrite processLocalQueue_loop_run. cbn [app].
  destruct (Nat.ltb_spec (length replies) (length queue)) as [Hlt | Hge].
  - simpl. repeat split; intros; try reflexivity; lia.
  - unfold setItem. simpl.
    destruct (quotaExceeded (localStorage w)) eqn:Hquota; simpl.
    + repeat split; intros; try reflexivity; discriminate.
    + split; [reflexivity |]. split; [reflexivity |]. split; [reflexivity |].
      split; [reflexivity |]. split; [reflexivity |]. split; [reflexivity |].
      split.
      * intros [H | H]; [lia | discriminate].
      * intros _ _. split; [reflexivity |].
        destruct (processQueue_kept queue replies Hge) as (stays & Hs & He & _).
        exists stays. split; assumption.
Qed.

(** An item queued while a walk waits is lost: the walk read a queue of one
    session, the session is queued again before the answer comes, and the
    answer (2xx) makes the walk write back the empty array it is left
    with. *)
Lemma walk_overwrites_queue :
  let a := Sample.session 0 in
  let w := Sample.world 5000 a
             (mkLocalStorage (Some (Json a)) None (Some (Json [Sample.queued a])) None false) in
  let w1 := exec processLocalQueue w in
  let w2 := exec saveToLocalQueue w1 in
  let w3 := exec (processLocalQueue_resume [Sample.queued a] [Sample.saved]) w2 in
  jobs w1 = [ProcessLocalQueueJob [Sample.queued a]]
  /\ requests w1 = [POST_analytics_save_queued (queuedPayload (Sample.queued a))]
  /\ length (storedQueue w2) = 2%nat
  /\ analytics_queue (localStorage w3) = Some (Json []).
Proof. vm_compute. repeat split. Qed.

(** ** The recorders of visits, views and searches *)

Lemma trackCategoryVisit_ok categoryName categoryId w :
  quotaExceeded (localStorage w) = false ->
  result (trackCategoryVisit categoryName categoryId) w = Normal tt
  /\ analytics (exec (trackCategoryVisit categoryName categoryId) w)
     = afterCategoryVisit categoryName categoryId (now w) (analytics w)
  /\ pmcell_analytics (localStorage (exec (trackCategoryVisit categoryName categoryId) w))
     = Some (Json (toJSON (afterCategoryVisit categoryName categoryId (now w) (analytics w))))
  /\ quotaExceeded (localStorage (exec (trackCategoryVisit categoryName categoryId) w)) = false
  /\ now (exec (trackCategoryVisit categoryName categoryId) w) = now w.
Proof.
  intros H.
  unfold trackCategoryVisit, updateLastActivity, saveAnalytics, debouncedServerSave,
    afterCategoryVisit, revisited.
  js_unfold. simpl. rewrite H. simpl.
  js_cases; repeat split; assumption.
Qed.

Lemma trackProductView_ok productId productName category w :
  quotaExceeded (localStorage w) = false ->
  result (trackProductView productId productName category) w = Normal tt
  /\ analytics (exec (trackProductView productId productName category) w)
     = afterProductView productId productName category (now w) (analytics w)
  /\ pmcell_analytics (localStorage (exec (trackProductView productId productName category) w))
     = Some (Json (toJSON (afterProductView productId productName category (now w) (analytics w))))
  /\ quotaExceeded (localStorage (exec (trackProductView productId productName category) w))
     = false
  /\ now (exec (trackProductView productId productName category) w) = now w.
Proof.
  intros H.
  unfold trackProductView, updateLastActivity, saveAnalytics, debouncedServerSave,
    afterProductView, reviewed.
  js_unfold. simpl. rewrite H. simpl.
  js_cases; repeat split; assumption.
Qed.


(** *** Sorting and searching *)

Lemma insert_desc_perm {A} (key : A -> Z) (x : A) (l : list A) :
  insert_desc key x l ≡ₚ x :: l.
Proof.
  induction l as [| y l IH]; simpl; [reflexivity |].
  destruct (key y <=? key x); [reflexivity |].
  rewrite IH. apply Permutation_swap.
Qed.

Lemma sort_desc_perm {A} (key : A -> Z) (l : list A) : sort_desc key l ≡ₚ l.
Proof.
  induction l as [| x l IH]; simpl; [reflexivity |].
  rewrite insert_desc_perm, IH. reflexivity.
Qed.

Lemma sort_desc_length {A} (key : A -> Z) (l : list A) :
  length (sort_desc key l) = length l.
Proof. apply Permutation_length, sort_desc_perm. Qed.

Lemma insert_desc_descending {A} (key : A -> Z) (x : A) (l : list A) :
  descending key l -> descending key (insert_desc key x l).
Proof.
  induction l as [| y l IH]; simpl; intros Hd.
  - split; [constructor | exact I].
  - destruct Hd as [Hy Hl].
    destruct (Z.leb_spec (key y) (key x)) as [Hle | Hgt]; simpl.
    + split; [| split; assumption].
      constructor; [exact Hle |].
      eapply Forall_impl; [exact Hy |]. simpl. intros z Hz. lia.
    + split; [| apply IH; exact Hl].
      rewrite insert_desc_perm. constructor; [lia | exact Hy].
Qed.

Lemma sort_desc_descending {A} (key : A -> Z) (l : list A) :
  descending key (sort_desc key l).
Proof.
  induction l as [| x l IH]; simpl; [exact I |].
  apply insert_desc_descending. exact IH.
Qed.

(** The sort is stable: a list already in order comes back as it is. *)
Lemma sort_desc_sorted {A} (key : A -> Z) (l : list A) :
  descending key l -> sort_desc key l = l.
Proof.
  induction l as [| x l IH]; simpl; [reflexivity |].
  intros [Hx Hl]. rewrite (IH Hl).
  destruct l as [| y l']; simpl; [reflexivity |].
  inversion Hx as [| ? ? Hy _]; subst.
  destruct (Z.leb_spec (key y) (key x)); [reflexivity | lia].
Qed.

Lemma descending_snoc {A} (key : A -> Z) (l : list A) (x : A) :
  descending key l -> Forall (fun y => key x <= key y) l -> descending key (l ++ [x]).
Proof.
  induction l as [| y l IH]; simpl; intros Hd Hx.
  - split; [constructor | exact I].
  - destruct Hd as [Hy Hl]. inversion Hx as [| ? ? Hxy Hxl]; subst.
    split; [| apply IH; assumption].
    apply Forall_app. split; [exact Hy |]. constructor; [exact Hxy | constructor].
Qed.

Lemma find_filter {A} (p : A -> bool) (l : list A) :
  find p l = head (List.filter p l).
Proof.
  induction l as [| x l IH]; simpl; [reflexivity |].
  destruct (p x); [reflexivity | exact IH].
Qed.

Lemma filter_perm {A} (p : A -> bool) (l l' : list A) :
  l ≡ₚ l' -> List.filter p l ≡ₚ List.filter p l'.
Proof.
  induction 1 as [| x l l' _ IH | x y l | l l' l'' _ IH1 _ IH2]; simpl.
  - reflexivity.
  - destruct (p x); [rewrite IH |]; [reflexivity | exact IH].
  - destruct (p x), (p y); try reflexivity. apply Permutation_swap.
  - rewrite IH1. exact IH2.
Qed.

Lemma filter_update_found {A} (p : A -> bool) (f : A -> A) (l : list A) :
  (forall x, p x = true -> p (f x) = true) ->
  List.filter p (update_found p f l)
  = match List.filter p l with
    | [] => []
    | x :: rest => f x :: rest
    end.
Proof.
  intros Hp. induction l as [| x l IH]; simpl; [reflexivity |].
  destruct (p x) eqn:Hx; simpl.
  - rewrite (Hp x Hx). reflexivity.
  - rewrite Hx. exact IH.
Qed.

Lemma update_found_length {A} (p : A -> bool) (f : A -> A) (l : list A) :
  length (update_found p f l) = length l.
Proof.
  induction l as [| x l IH]; simpl; [reflexivity |].
  destruct (p x); simpl; [reflexivity | rewrite IH; reflexivity].
Qed.

Lemma find_none_filter {A} (p : A -> bool) (l : list A) :
  find p l = None -> List.filter p l = [].
Proof.
  rewrite find_filter. destruct (List.filter p l); [reflexivity | discriminate].
Qed.

(** *** Category visits *)

Lemma afterCategoryVisit_there categoryName categoryId t a existing rest :
  let is_it := fun c => String.eqb (CategoryVisit.name c) categoryName in
  let after := categoriesVisited (afterCategoryVisit categoryName categoryId t a) in
  List.filter is_it (categoriesVisited a) = existing :: rest ->
  after ≡ₚ update_found is_it (revisited t categoryId) (categoriesVisited a)
  /\ length after = length (categoriesVisited a)
  /\ List.filter is_it after ≡ₚ revisited t categoryId existing :: rest.
Proof.
  intros is_it after Hf. subst after. unfold afterCategoryVisit. simpl. fold is_it.
  assert (Hfind : find is_it (categoriesVisited a) = Some existing)
    by (rewrite find_filter, Hf; reflexivity).
  rewrite Hfind.
  split; [apply sort_desc_perm |].
  split; [rewrite sort_desc_length; apply update_found_length |].
  rewrite (filter_perm is_it _ _ (sort_desc_perm _ _)).
  rewrite filter_update_found by (intros x Hx; exact Hx).
  rewrite Hf. reflexivity.
Qed.

Lemma afterCategoryVisit_new categoryName categoryId t a :
  let is_it := fun c => String.eqb (CategoryVisit.name c) categoryName in
  let after := categoriesVisited (afterCategoryVisit categoryName categoryId t a) in
  let new := CategoryVisit.mk categoryName 1 t (Some false) categoryId in
  List.filter is_it (categoriesVisited a) = [] ->
  after ≡ₚ categoriesVisited a ++ [new]
  /\ length after = S (length (categoriesVisited a))
  /\ List.filter is_it after = [new].
Proof.
  intros is_it after new Hf. subst after. unfold afterCategoryVisit. simpl. fold is_it.
  assert (Hfind : find is_it (categoriesVisited a) = None)
    by (rewrite find_filter, Hf; reflexivity).
  rewrite Hfind. fold new.
  assert (Hnew : is_it new = true) by (unfold is_it, new; simpl; apply String.eqb_refl).
  split; [apply sort_desc_perm |].
  split; [rewrite sort_desc_length, length_app; simpl; lia |].
  apply Permutation_singleton_r.
  rewrite (filter_perm is_it _ _ (sort_desc_perm _ _)).
  rewrite List.filter_app, Hf. simpl. rewrite Hnew. reflexivity.
Qed.

(** X3. Find-or-create of category visits.  When the browser accepts the
    writes, [trackCategoryVisit] leaves the categories ordered by visits,
    larger first.  If the category was there, the list keeps its entries and
    its length and the first entry of that name has one more visit and the
    current time; if it was not, one entry with 1 visit and no cart items is
    added, and it is the only one of that name. *)
Theorem trackCategoryVisit_find_or_create categoryName categoryId w :
  quotaExceeded (localStorage w) = false ->
  let is_it := fun c => String.eqb (CategoryVisit.name c) categoryName in
  let before := categoriesVisited (analytics w) in
  let after := categoriesVisited (analytics (exec (trackCategoryVisit categoryName categoryId) w)) in
  result (trackCategoryVisit categoryName categoryId) w = Normal tt
  /\ descending CategoryVisit.visits after
  /\ (forall existing rest,
        List.filter is_it before = existing :: rest ->
        after ≡ₚ update_found is_it (revisited (now w) categoryId) before
        /\ length after = length before
        /\ List.filter is_it after ≡ₚ revisited (now w) categoryId existing :: rest
        /\ (rest = [] -> find is_it after = Some (revisited (now w) categoryId existing)))
  /\ (List.filter is_it before = [] ->
        after ≡ₚ before ++ [CategoryVisit.mk categoryName 1 (now w) (Some false) categoryId]
        /\ length after = S (length before)
        /\ find is_it after
           = Some (CategoryVisit.mk categoryName 1 (now w) (Some false) categoryId)
        /\ List.filter is_it after
           = [CategoryVisit.mk categoryName 1 (now w) (Some false) categoryId]).
Proof.
  intros Hq is_it before after.
  destruct (trackCategoryVisit_ok categoryName categoryId w Hq) as (Hr & Ha & _).
  subst after. rewrite Ha.
  split; [exact Hr |].
  split; [unfold afterCategoryVisit; simpl; apply sort_desc_descending |].
  split.
  - intros existing rest Hf.
    pose proof (afterCategoryVisit_there categoryName categoryId (now w) (analytics w)
                  existing rest Hf) as H.
    cbv zeta in H. destruct H as (Hp & Hl & Hfa).
    split; [exact Hp |]. split; [exact Hl |]. split; [exact Hfa |].
    intros ->. rewrite find_filter.
    apply Permutation_singleton_r in Hfa. unfold is_it. rewrite Hfa. reflexivity.
  - intros Hf.
    pose proof (afterCategoryVisit_new categoryName categoryId (now w) (analytics w) Hf) as H.
    cbv zeta in H. destruct H as (Hp & Hl & Hfa).
    split; [exact Hp |]. split; [exact Hl |].
    split; [rewrite find_filter; unfold is_it; rewrite Hfa; reflexivity | exact Hfa].
Qed.

Lemma trackCategoryVisit_find_or_create_witness :
  let w := Sample.world 5000 (Sample.session 0) (Sample.storage (Sample.session 0)) in
  find (fun c => String.eqb (CategoryVisit.name c) "Capas")
    (categoriesVisited (analytics (exec (trackCategoryVisit "Capas" None) w)))
  = Some (revisited 5000 None Sample.capas)
  /\ length (categoriesVisited (analytics (exec (trackCategoryVisit "Cabos" None) w))) = 2%nat.
Proof.
  intros w.
  pose proof (trackCategoryVisit_find_or_create "Capas" None w eq_refl) as H1.
  cbv zeta in H1. destruct H1 as (_ & _ & Hthere & _).
  destruct (Hthere Sample.capas [] eq_refl) as (_ & _ & _ & Hfound).
  pose proof (trackCategoryVisit_find_or_create "Cabos" None w eq_refl) as H2.
  cbv zeta in H2. destruct H2 as (_ & _ & _ & Hnew).
  destruct (Hnew eq_refl) as (_ & Hlen & _).
  split; [exact (Hfound eq_refl) | exact Hlen].
Defined.

(** X4. Recording the same new category twice in a row gives one entry with
    2 visits, not two entries. *)
Theorem trackCategoryVisit_twice categoryName id1 id2 t2 w :
  quotaExceeded (localStorage w) = false ->
  let is_it := fun c => String.eqb (CategoryVisit.name c) categoryName in
  List.filter is_it (categoriesVisited (analytics w)) = [] ->
  let w1 := exec (trackCategoryVisit categoryName id1) w in
  let w2 := exec (trackCategoryVisit categoryName id2) (set_now t2 w1) in
  List.filter is_it (categoriesVisited (analytics w2))
  = [CategoryVisit.mk categoryName 2 t2 (Some false) (if nonempty id2 then id2 else id1)]
  /\ length (categoriesVisited (analytics w2)) = S (length (categoriesVisited (analytics w))).
Proof.
  intros Hq is_it Hnone w1 w2.
  destruct (trackCategoryVisit_ok categoryName id1 w Hq) as (_ & Ha1 & _ & Hq1 & _).
  fold w1 in Ha1, Hq1.
  destruct (trackCategoryVisit_ok categoryName id2 (set_now t2 w1) Hq1) as (_ & Ha2 & _).
  fold w2 in Ha2. simpl in Ha2.
  pose proof (afterCategoryVisit_new categoryName id1 (now w) (analytics w) Hnone) as H1.
  cbv zeta in H1. destruct H1 as (_ & Hlen1 & Hf1). rewrite <- Ha1 in Hlen1, Hf1.
  pose proof (afterCategoryVisit_there categoryName id2 t2 (analytics w1) _ [] Hf1) as H2.
  cbv zeta in H2. destruct H2 as (_ & Hlen2 & Hf2). rewrite <- Ha2 in Hlen2, Hf2.
  apply Permutation_singleton_r in Hf2.
  split; [exact Hf2 |].
  rewrite Hlen2. exact Hlen1.
Qed.

Lemma trackCategoryVisit_twice_witness :
  let w := Sample.world 5000 (Sample.session 0) (Sample.storage (Sample.session 0)) in
  let w2 := exec (trackCategoryVisit "Cabos" None)
              (set_now 6000 (exec (trackCategoryVisit "Cabos" None) w)) in
  List.filter (fun c => String.eqb (CategoryVisit.name c) "Cabos")
    (categoriesVisited (analytics w2))
  = [CategoryVisit.mk "Cabos" 2 6000 (Some false) None].
Proof.
  intros w w2.
  pose proof (trackCategoryVisit_twice "Cabos" None None 6000 w eq_refl eq_refl) as H.
  cbv zeta in H. destruct H as [H _]. exact H.
Defined.

(** *** Searches *)








(** *** Product views *)

Lemma take_snoc_full {A} (n : nat) (l : list A) (x : A) :
  length l = n -> take n (l ++ [x]) = l.
Proof. intros <-. apply take_app_length. Qed.

(** X7. The viewed products are capped at 50 and a full list admits no new
    product.  When the browser accepts the writes, [trackProductView] leaves
    at most 50 products, ordered by visits; and when 50 products are listed,
    ordered, each with at least one visit, viewing a product that is not
    among them leaves the list exactly as it was: the new entry is sorted
    last and cut off. *)
Theorem trackProductView_capped productId productName category w :
  quotaExceeded (localStorage w) = false ->
  let is_it := fun p => String.eqb (ProductView.id p) productId in
  let before := productsViewed (analytics w) in
  let after := productsViewed (analytics (exec (trackProductView productId productName category) w)) in
  result (trackProductView productId productName category) w = Normal tt
  /\ (length after <= 50)%nat
  /\ descending ProductView.visits after
  /\ (List.filter is_it before = [] -> (length before < 50)%nat ->
        after ≡ₚ before ++ [ProductView.mk productId productName category 1 (now w) (Some false)])
  /\ (List.filter is_it before = [] -> length before = 50%nat ->
        descending ProductView.visits before ->
        Forall (fun p => 1 <= ProductView.visits p) before ->
        after = before).
Proof.
  intros Hq is_it before after.
  destruct (trackProductView_ok productId productName category w Hq) as (Hr & Ha & _).
  subst after. rewrite Ha. unfold afterProductView, slice_first. simpl.
  fold is_it. fold before.
  split; [exact Hr |].
  split; [rewrite length_take; lia |].
  split.
  { match goal with |- descending _ (take 50 (sort_desc _ ?l)) =>
      pose proof (sort_desc_descending ProductView.visits l) as Hd;
      generalize dependent (sort_desc ProductView.visits l) end.
    intros l. generalize 50%nat. induction l as [| x l IH]; intros n Hd; destruct n; simpl;
      try exact I.
    destruct Hd as [Hx Hl]. split; [| apply IH; exact Hl].
    apply Forall_take. exact Hx. }
  split.
  - intros Hf Hlen. rewrite (find_filter is_it before), Hf. simpl.
    rewrite take_ge by (rewrite sort_desc_length, length_app; simpl; lia).
    apply sort_desc_perm.
  - intros Hf Hlen Hd Hall. rewrite (find_filter is_it before), Hf. simpl.
    rewrite sort_desc_sorted.
    + apply take_snoc_full. exact Hlen.
    + apply descending_snoc; [exact Hd |].
      eapply Forall_impl; [exact Hall |]. simpl. intros p Hp. exact Hp.
Qed.

Lemma descending_const {A} (key : A -> Z) (c : Z) (l : list A) :
  Forall (fun x => key x = c) l -> descending key l.
Proof.
  induction l as [| x l IH]; simpl; intros H; [exact I |].
  inversion H as [| ? ? Hx Hl]; subst.
  split; [| apply IH; exact Hl].
  eapply Forall_impl; [exact Hl |]. simpl. intros y Hy. lia.
Qed.

Lemma trackProductView_capped_witness :
  let w := Sample.world 5000 Sample.browsing (Sample.storage Sample.browsing) in
  productsViewed (analytics (exec (trackProductView "novo" "Cabo USB-C" "Cabos") w))
  = Sample.fifty.
Proof.
  intros w.
  pose proof (trackProductView_capped "novo" "Cabo USB-C" "Cabos" w eq_refl) as H.
  cbv zeta in H. destruct H as (_ & _ & _ & _ & Hfull).
  assert (Hone : Forall (fun p => ProductView.visits p = 1) Sample.fifty).
  { unfold Sample.fifty. apply List.Forall_map. apply List.Forall_forall.
    intros i _. reflexivity. }
  apply Hfull.
  - vm_compute. reflexivity.
  - reflexivity.
  - apply (descending_const _ 1). exact Hone.
  - eapply Forall_impl; [exact Hone |]. simpl. intros p Hp. rewrite Hp. lia.
Defined.


(** ** The debounce of the server sync *)

Lemma saveAnalytics_timeouts w :
  quotaExceeded (localStorage w) = false ->
  let w' := exec saveAnalytics w in
  timeouts w'
  = (cancelled (serverSaveTimeout w) (timeouts w)
     ++ [mkTimeout (nextHandle w) (now w) 2000 SaveAnalyticsToServer])%list
  /\ serverSaveTimeout w' = Some (nextHandle w)
  /\ saveToServerRetryCount w' = saveToServerRetryCount w.
Proof.
  intros H w'. subst w'. unfold saveAnalytics, debouncedServerSave, cancelled. js_unfold. simpl.
  rewrite H. simpl. destruct (serverSaveTimeout w); repeat split.
Qed.

Lemma filter_cancelled (p : Timeout -> bool) (field : option nat) (ts : list Timeout) :
  List.filter p (cancelled field ts) = cancelled field (List.filter p ts).
Proof.
  unfold cancelled. destruct field as [h |]; [| reflexivity].
  induction ts as [| t ts IH]; simpl; [reflexivity |].
  destruct (decide (handle t ≠ h)) as [Hne | He].
  - rewrite filter_cons_True by exact Hne. simpl.
    destruct (p t); [rewrite filter_cons_True by exact Hne |]; rewrite IH; reflexivity.
  - rewrite filter_cons_False by exact He.
    destruct (p t); [rewrite filter_cons_False by exact He |]; exact IH.
Qed.

(** One more save keeps one debounce timeout pending: the one it sets. *)
Lemma saveAnalytics_debounce w :
  quotaExceeded (localStorage w) = false ->
  (debouncePending w = []
   \/ exists t, debouncePending w = [t] /\ serverSaveTimeout w = Some (handle t)) ->
  let w' := exec saveAnalytics w in
  debouncePending w' = [mkTimeout (nextHandle w) (now w) 2000 SaveAnalyticsToServer]
  /\ serverSaveTimeout w' = Some (nextHandle w).
Proof.
  intros Hq Hp w'. subst w'.
  pose proof (saveAnalytics_timeouts w Hq) as H. cbv zeta in H. destruct H as (Ht & Hs & _).
  split; [| exact Hs].
  unfold debouncePending in *. rewrite Ht, List.filter_app, filter_cancelled. simpl.
  destruct Hp as [-> | (t & -> & ->)].
  - unfold cancelled. destruct (serverSaveTimeout w); reflexivity.
  - unfold cancelled. rewrite filter_cons_False by (intros Hne; apply Hne; reflexivity).
    reflexivity.
Qed.

Lemma saveAt_debounce times : forall t w,
  quotaExceeded (localStorage w) = false ->
  (debouncePending w = []
   \/ exists tm, debouncePending w = [tm] /\ serverSaveTimeout w = Some (handle tm)) ->
  let w' := exec (saveAt (t :: times)) w in
  result (saveAt (t :: times)) w = Normal tt
  /\ quotaExceeded (localStorage w') = false
  /\ requests w' = requests w
  /\ saveToServerRetryCount w' = saveToServerRetryCount w
  /\ exists h tl,
       last (t :: times) = Some tl
       /\ debouncePending w' = [mkTimeout h tl 2000 SaveAnalyticsToServer]
       /\ serverSaveTimeout w' = Some h.
Proof.
  induction times as [| t' times IH]; intros t w Hq Hp w'; subst w'.
  - simpl. rewrite !result_bind, !exec_bind. simpl.
    change (exec (modify (set_now t)) w) with (set_now t w).
    pose proof (saveAnalytics_ok (set_now t w) Hq) as Hs. cbv zeta in Hs.
    destruct Hs as (Hr & _ & _ & _ & Hq' & Hreq & _).
    pose proof (saveAnalytics_timeouts (set_now t w) Hq) as Ht. cbv zeta in Ht.
    destruct Ht as (_ & _ & Hc).
    pose proof (saveAnalytics_debounce (set_now t w) Hq Hp) as Hd. cbv zeta in Hd.
    destruct Hd as (Hd & Hh).
    rewrite Hr. simpl.
    change (exec (ret tt) ?v) with v.
    split; [reflexivity |]. split; [exact Hq' |]. split; [exact Hreq |]. split; [exact Hc |].
    eexists _, _. split; [reflexivity |]. split; [exact Hd | exact Hh].
  - change (saveAt (t :: t' :: times))
      with (modify (set_now t) >> saveAnalytics >> saveAt (t' :: times)).
    rewrite result_bind, exec_bind.
    change (result (modify (set_now t)) w) with (@Normal unit tt). cbv beta iota.
    change (exec (modify (set_now t)) w) with (set_now t w).
    rewrite result_bind, exec_bind.
    pose proof (saveAnalytics_ok (set_now t w) Hq) as Hs. cbv zeta in Hs.
    destruct Hs as (Hr & _ & _ & _ & Hq' & Hreq & _).
    pose proof (saveAnalytics_timeouts (set_now t w) Hq) as Ht. cbv zeta in Ht.
    destruct Ht as (_ & _ & Hc).
    pose proof (saveAnalytics_debounce (set_now t w) Hq Hp) as Hd. cbv zeta in Hd.
    destruct Hd as (Hd & Hh).
    rewrite Hr. cbv beta iota.
    set (w1 := exec saveAnalytics (set_now t w)) in *.
    assert (Hp1 : debouncePending w1 = []
                  \/ exists tm, debouncePending w1 = [tm] /\ serverSaveTimeout w1 = Some (handle tm)).
    { right. eexists. split; [exact Hd | exact Hh]. }
    pose proof (IH t' w1 Hq' Hp1) as Hn. cbv zeta in Hn.
    destruct Hn as (Hr2 & Hq2 & Hreq2 & Hc2 & h & tl & Hl & Hd2 & Hh2).
    split; [exact Hr2 |]. split; [exact Hq2 |].
    split; [rewrite Hreq2; exact Hreq |]. split; [rewrite Hc2; exact Hc |].
    exists h, tl. split; [exact Hl |]. split; [exact Hd2 | exact Hh2].
Qed.

(** A due sync timeout below the retry ceiling: the timeout is dropped and
    one sync request goes out. *)
Lemma fireTimeout_sync tm w :
  callback tm = SaveAnalyticsToServer ->
  saveToServerRetryCount w < MAX_SERVER_SAVE_RETRIES ->
  requests (exec (fireTimeout tm) w)
  = (requests w ++ [POST_analytics_save (savePayload (analytics w))])%list
  /\ timeouts (exec (fireTimeout tm) w) = cancelled (Some (handle tm)) (timeouts w).
Proof.
  intros Hcb Hlt. unfold fireTimeout, cancelled. rewrite Hcb. simpl runCallback.
  unfold saveAnalyticsToServer. js_unfold. simpl.
  destruct (Z.geb_spec (saveToServerRetryCount w) MAX_SERVER_SAVE_RETRIES); [lia |].
  split; reflexivity.
Qed.

(** X8. The server sync is debounced.  However many times in a row
    [saveAnalytics] runs (the browser accepting the writes), it issues no
    request itself and leaves exactly one debounce timeout pending, set at
    the last call for 2 seconds; and when that timeout comes due below the
    retry ceiling, exactly one sync request goes out and no debounce timeout
    is left. *)
Theorem debounce_coalesces t times w :
  quotaExceeded (localStorage w) = false ->
  debouncePending w = [] ->
  let w' := exec (saveAt (t :: times)) w in
  result (saveAt (t :: times)) w = Normal tt
  /\ requests w' = requests w
  /\ exists tm,
       debouncePending w' = [tm]
       /\ last (t :: times) = Some (setAt tm)
       /\ delay tm = 2000
       /\ (saveToServerRetryCount w < MAX_SERVER_SAVE_RETRIES ->
           requests (exec (fireTimeout tm) w')
           = (requests w ++ [POST_analytics_save (savePayload (analytics w'))])%list
           /\ debouncePending (exec (fireTimeout tm) w') = []).
Proof.
  intros Hq Hp w'.
  pose proof (saveAt_debounce times t w Hq (or_introl Hp)) as H. cbv zeta in H.
  destruct H as (Hr & _ & Hreq & Hc & h & tl & Hl & Hd & _). fold w' in Hreq, Hc, Hd.
  split; [exact Hr |]. split; [exact Hreq |].
  exists (mkTimeout h tl 2000 SaveAnalyticsToServer).
  split; [exact Hd |]. split; [exact Hl |]. split; [reflexivity |].
  intros Hlt. rewrite <- Hc in Hlt.
  destruct (fireTimeout_sync (mkTimeout h tl 2000 SaveAnalyticsToServer) w' eq_refl Hlt)
    as [Hfreq Hft].
  split; [rewrite Hfreq, Hreq; reflexivity |].
  unfold debouncePending in *. rewrite Hft, filter_cancelled, Hd. unfold cancelled. simpl.
  rewrite filter_cons_False by (intros Hne; apply Hne; reflexivity). reflexivity.
Qed.

Lemma debounce_coalesces_witness :
  let w := Sample.world 5000 (Sample.session 0) (Sample.storage (Sample.session 0)) in
  let w' := exec (saveAt [5000; 5100; 5200; 5300; 5400; 5500; 5600; 5700; 5800; 5900]) w in
  requests w' = []
  /\ exists tm, debouncePending w' = [tm] /\ setAt tm = 5900
                /\ length (requests (exec (fireTimeout tm) w')) = 1%nat.
Proof.
  intros w w'.
  pose proof (debounce_coalesces 5000 [5100; 5200; 5300; 5400; 5500; 5600; 5700; 5800; 5900] w
                eq_refl eq_refl) as H.
  cbv zeta in H. destruct H as (_ & Hreq & tm & Hd & Hl & _ & Hfire).
  split; [exact Hreq |].
  exists tm. split; [exact Hd |].
  split; [injection Hl as Hl; symmetry; exact Hl |].
  destruct (Hfire ltac:(vm_compute; reflexivity)) as [Hone _].
  fold w' in Hone. rewrite Hone. reflexivity.
Defined.


(** ** The webhook dispatcher *)

(** One pass of the loop issues at most one POST, and no other request. *)
Lemma sendWebhook_try_requests eventType data a w :
  let w' := exec (sendWebhook_try eventType data a) w in
  location w' = location w
  /\ (requests w' = requests w
      \/ exists url payload,
           requests w' = (requests w ++ [POST_webhook url payload])%list
           /\ WebhookPayload.event payload = eventType
           /\ WebhookPayload.data payload = data
           /\ exists webhookConfig,
                getWebhookSettings (location w) (settingsReply a) !! eventType
                = Some webhookConfig
                /\ enabled webhookConfig = true
                /\ url = ((if String.eqb (environment webhookConfig) "production"
                           then productionUrl else testUrl) ++ eventType)%string).
Proof.
  intros w'. subst w'.
  unfold sendWebhook_try, logWebhook, getAnalyticsSnapshot, productionUrl, testUrl.
  js_unfold. simpl.
  destruct (getWebhookSettings (location w) (settingsReply a) !! eventType) as [cfg |];
    [| split; [reflexivity | left; reflexivity]].
  destruct (enabled cfg) eqn:Hen; simpl; [| split; [reflexivity | left; reflexivity]].
  destruct (postReply a) as [e | status statusText body]; simpl;
    js_cases;
    (split; [reflexivity |]); right; eexists _, _;
    (split; [reflexivity |]); (split; [reflexivity |]); (split; [reflexivity |]);
    exists cfg; (split; [reflexivity |]); (split; [exact Hen |]);
    match goal with
    | H : String.eqb (environment cfg) "production" = _ |- _ => rewrite H
    end; reflexivity.
Qed.

Lemma webhookPosts_try eventType data a w :
  (webhookPosts w <= webhookPosts (exec (sendWebhook_try eventType data a) w)
   <= S (webhookPosts w))%nat.
Proof.
  pose proof (sendWebhook_try_requests eventType data a w) as H. cbv zeta in H.
  destruct H as [_ [Hreq | (url & payload & Hreq & _)]]; unfold webhookPosts; rewrite Hreq.
  - lia.
  - rewrite List.filter_app, length_app. simpl. lia.
Qed.

Lemma sendWebhook_resume_bounded eventType data maxRetries net : forall retryCount w,
  retryCount <= maxRetries ->
  let w' := exec (sendWebhook_resume eventType data maxRetries retryCount net) w in
  result (sendWebhook_resume eventType data maxRetries retryCount net) w = Normal tt
  /\ (webhookPosts w <= webhookPosts w')%nat
  /\ (webhookPosts w' <= webhookPosts w + length net)%nat
  /\ Z.of_nat (webhookPosts w') <= Z.of_nat (webhookPosts w) + (maxRetries + 1 - retryCount).
Proof.
  induction net as [| a net IH]; intros retryCount w Hle w'; subst w'; simpl.
  - change (exec (ret tt) w) with w. repeat split; lia.
  - rewrite exec_try_catch, result_try_catch.
    pose proof (webhookPosts_try eventType data a w) as Hone.
    destruct (result (sendWebhook_try eventType data a) w) as [[] | e].
    + repeat split; lia.
    + destruct (Z.leb_spec (retryCount + 1) maxRetries) as [Hmore | Hlast].
      * rewrite exec_bind, result_bind. simpl.
        change (exec (fetch GET_webhook_settings) ?v)
          with (set_requests (requests v ++ [GET_webhook_settings]) v).
        set (w1 := set_requests _ _).
        assert (Hw1 : webhookPosts w1 = webhookPosts (exec (sendWebhook_try eventType data a) w)).
        { unfold webhookPosts, w1. simpl. rewrite List.filter_app, length_app. simpl. lia. }
        pose proof (IH (retryCount + 1) w1 Hmore) as Hn. cbv zeta in Hn.
        destruct Hn as (Hr & Hlo & Hhi & Hmax).
        split; [exact Hr |]. repeat split; lia.
      * change (exec (ret tt) ?v) with v. repeat split; lia.
Qed.

(** X9. The dispatcher never fails its caller and is bounded.  Whatever the
    network answers, the retry loop of [sendWebhook] ends normally, issues at
    most one POST per pass and at most [maxRetries + 1] POSTs in all, that
    is 3 with the default of 2 retries. *)
Theorem sendWebhook_never_throws_and_is_bounded eventType data net w :
  let w' := exec (sendWebhook_resume eventType data 2 0 net) w in
  result (sendWebhook eventType data 2) w = Normal tt
  /\ result (sendWebhook_resume eventType data 2 0 net) w = Normal tt
  /\ (webhookPosts w <= webhookPosts w' <= webhookPosts w + 3)%nat
  /\ (webhookPosts w' <= webhookPosts w + length net)%nat.
Proof.
  intros w'.
  pose proof (sendWebhook_resume_bounded eventType data 2 net 0 w ltac:(lia)) as H.
  cbv zeta in H. destruct H as (Hr & Hlo & Hhi & Hmax). fold w' in Hlo, Hhi, Hmax.
  split; [reflexivity |]. split; [exact Hr |]. split; [lia | exact Hhi].
Qed.


(** X10. A webhook whose delivery cannot be logged is sent again and again.
    When the stored [webhookLogs] is non-empty text that is not JSON or the
    browser refuses the write, each delivered POST is followed by a throw inside the retry loop:
    passes that all get a 2xx answer issue [maxRetries + 1] POSTs of the
    same [cartAbandoned] webhook, 3 with the default of 2 retries. *)
Theorem unlogged_webhook_is_resent data maxRetries net w :
  logUnusable w ->
  Forall (fun a => dispatcherDelivers (location w) a = true) net ->
  0 <= maxRetries ->
  Z.of_nat (length net) = maxRetries + 1 ->
  let w' := exec (sendWebhook_resume "cartAbandoned" data maxRetries 0 net) w in
  result (sendWebhook_resume "cartAbandoned" data maxRetries 0 net) w = Normal tt
  /\ Z.of_nat (cartAbandonedPosts w') = Z.of_nat (cartAbandonedPosts w) + maxRetries + 1.
Proof.
  intros Hl Hd Hm Hlen w'.
  pose proof (sendWebhook_resume_unlogged data maxRetries net 0 w Hl Hd Hm ltac:(lia)) as H.
  cbv zeta in H. destruct H as [Hr Hp]. fold w' in Hp.
  split; [exact Hr |]. rewrite Hp. lia.
Qed.

Lemma unlogged_webhook_is_resent_witness :
  let w := Sample.world 100000 (Sample.session 1000)
             (mkLocalStorage (Some (Json (Sample.session 1000))) (Some (Json Sample.cart))
                None (Some Corrupt) false) in
  let a := mkAttempt (Sample.settings true "PRODUCTION") Sample.delivered in
  cartAbandonedPosts
    (exec (sendWebhook_resume "cartAbandoned" (Sample.abandoned 100000 99000) 2 0 [a; a; a]) w)
  = 3%nat.
Proof.
  intros w a.
  assert (Hl : logUnusable w) by (left; reflexivity).
  assert (Hd : Forall (fun x => dispatcherDelivers (location w) x = true) [a; a; a])
    by (repeat constructor).
  assert (Hm : 0 <= 2) by lia.
  assert (Hn : Z.of_nat (length [a; a; a]) = 2 + 1) by reflexivity.
  pose proof (unlogged_webhook_is_resent (Sample.abandoned 100000 99000) 2 [a; a; a] w
                Hl Hd Hm Hn) as H.
  cbv zeta in H. destruct H as [_ H].
  change (cartAbandonedPosts w) with 0%nat in H.
  apply Nat2Z.inj. rewrite H. reflexivity.
Defined.

(** *** Where the dispatcher posts *)

(** Outside development a webhook type that resolves to enabled resolves to
    the production environment, fetched or fallen back on. *)
Lemma enabled_is_production loc reply eventType webhookConfig :
  isDevelopment loc = false ->
  getWebhookSettings loc reply !! eventType = Some webhookConfig ->
  enabled webhookConfig = true ->
  environment webhookConfig = "production".
Proof.
  intros Hdev Hlook Hen. unfold getWebhookSettings in Hlook. rewrite Hdev in Hlook.
  assert (Hfall : fallbackSettings false !! eventType = Some webhookConfig ->
                  environment webhookConfig = "production").
  { unfold fallbackSettings. rewrite !lookup_insert, lookup_empty.
    repeat case_decide; intros; simplify_eq; reflexivity. }
  destruct reply as [e | status statusText [dbSettings | e]]; try (apply Hfall; exact Hlook).
  destruct (ok status); [| apply Hfall; exact Hlook].
  unfold productionSettings in Hlook. rewrite lookup_fmap in Hlook.
  destruct (convertSettings dbSettings !! eventType) as [cfg |]; simpl in Hlook; [| discriminate].
  injection Hlook as <-. simpl in *.
  apply andb_true_iff in Hen as [_ Hen]. apply String.eqb_eq in Hen. exact Hen.
Qed.

Lemma sendWebhook_resume_production eventType data maxRetries net : forall retryCount w,
  isDevelopment (location w) = false ->
  exists extra,
    requests (exec (sendWebhook_resume eventType data maxRetries retryCount net) w)
    = (requests w ++ extra)%list
    /\ postsGoTo (productionUrl ++ eventType) extra.
Proof.
  induction net as [| a net IH]; intros retryCount w Hdev; simpl.
  - exists []. split; [rewrite app_nil_r; reflexivity | constructor].
  - rewrite exec_try_catch.
    pose proof (sendWebhook_try_requests eventType data a w) as Ht. cbv zeta in Ht.
    destruct Ht as [Hloc Hreq].
    assert (Hone : exists extra,
               requests (exec (sendWebhook_try eventType data a) w) = (requests w ++ extra)%list
               /\ postsGoTo (productionUrl ++ eventType) extra).
    { destruct Hreq as [Hreq | (url & payload & Hreq & _ & _ & cfg & Hcfg & Hen & Hurl)].
      - exists []. split; [rewrite app_nil_r; exact Hreq | constructor].
      - exists [POST_webhook url payload]. split; [exact Hreq |].
        constructor; [| constructor].
        rewrite (enabled_is_production _ _ _ _ Hdev Hcfg Hen) in Hurl. exact Hurl. }
    destruct Hone as (extra & Hextra & Hgo).
    destruct (result (sendWebhook_try eventType data a) w) as [[] | e];
      [exists extra; split; assumption |].
    destruct (retryCount + 1 <=? maxRetries); [| exists extra; split; assumption].
    rewrite exec_bind.
    change (result (fetch GET_webhook_settings) ?v) with (@Normal unit tt). cbv beta iota.
    change (exec (fetch GET_webhook_settings) ?v)
      with (set_requests (requests v ++ [GET_webhook_settings]) v).
    set (w1 := set_requests _ _).
    assert (Hdev1 : isDevelopment (location w1) = false).
    { unfold w1. simpl. rewrite Hloc. exact Hdev. }
    destruct (IH (retryCount + 1) w1 Hdev1) as (extra' & Hextra' & Hgo').
    exists (extra ++ GET_webhook_settings :: extra')%list. split.
    + rewrite Hextra'. unfold w1. simpl. rewrite Hextra, <- !app_assoc. reflexivity.
    + apply Forall_app. split; [exact Hgo |]. constructor; [exact I | exact Hgo'].
Qed.

(** X11. Outside development every POST of the dispatcher goes to the
    production endpoint.  Whatever the settings requests and the POSTs are
    answered, over all the passes of a [sendWebhook] call made on a page that
    is not a development page, each webhook POST goes to
    [https://n8n.pmcell.shop/webhook/<eventType>]; the test endpoint is never
    used. *)
Theorem production_page_posts_to_production eventType data maxRetries net w :
  isDevelopment (location w) = false ->
  exists extra,
    requests (exec (sendWebhook_resume eventType data maxRetries 0 net) w)
    = (requests w ++ extra)%list
    /\ postsGoTo ("https://n8n.pmcell.shop/webhook/" ++ eventType) extra.
Proof.
  intros Hdev. exact (sendWebhook_resume_production eventType data maxRetries net 0 w Hdev).
Qed.

Lemma production_page_posts_to_production_witness :
  let w := Sample.world 100000 (Sample.session 1000) (Sample.storage (Sample.session 1000)) in
  let net := [mkAttempt (Sample.settings true "PRODUCTION") Sample.refused;
              mkAttempt (Rejected (mkError "TypeError" "Failed to fetch")) Sample.delivered] in
  exists extra,
    requests (exec (sendWebhook_resume "cartAbandoned" (Sample.abandoned 100000 99000) 2 0 net) w)
    = (requests w ++ extra)%list
    /\ postsGoTo "https://n8n.pmcell.shop/webhook/cartAbandoned" extra.
Proof.
  intros w net.
  exact (production_page_posts_to_production "cartAbandoned" (Sample.abandoned 100000 99000)
           2 net w eq_refl).
Defined.

(** The settings that stand when the request for them brought nothing. *)
Lemma getWebhookSettings_unavailable loc reply :
  settingsUnavailable reply = true ->
  getWebhookSettings loc reply = fallbackSettings (isDevelopment loc).
Proof.
  unfold settingsUnavailable, getWebhookSettings.
  destruct reply as [e | status statusText [dbSettings | e]]; try reflexivity.
  destruct (ok status); [discriminate | reflexivity].
Qed.

Lemma fallbackSettings_lookup dev eventType :
  fallbackSettings dev !! eventType
  = if knownWebhook eventType
    then Some (if dev then mkConfig false "test" else mkConfig true "production")
    else None.
Proof.
  unfold fallbackSettings, knownWebhook. rewrite !lookup_insert, lookup_empty.
  repeat case_decide; subst; try reflexivity;
    repeat match goal with
           | H : ?s <> eventType |- _ =>
               apply not_eq_sym in H; apply String.eqb_neq in H; rewrite H; clear H
           end; reflexivity.
Qed.

(** X12. Without settings the dispatcher falls back on the page.  When the
    settings request is rejected, answered with another status than 2xx or
    with an unreadable body, a pass of [sendWebhook] for one of the four
    listed webhook types on a page outside development POSTs the webhook to
    the production endpoint, with the data it was given; on a development
    page, and for any other type, the pass returns without a request or a
    change of state. *)
Theorem settings_unavailable_fallback eventType data a w :
  settingsUnavailable (settingsReply a) = true ->
  if knownWebhook eventType && negb (isDevelopment (location w))
  then exists payload,
         requests (exec (sendWebhook_try eventType data a) w)
         = (requests w
            ++ [POST_webhook ("https://n8n.pmcell.shop/webhook/" ++ eventType) payload])%list
         /\ WebhookPayload.event payload = eventType
         /\ WebhookPayload.data payload = data
  else sendWebhook_try eventType data a w = (Normal tt, w).
Proof.
  intros Hun.
  unfold sendWebhook_try, logWebhook, getAnalyticsSnapshot. js_unfold. simpl.
  rewrite (getWebhookSettings_unavailable _ _ Hun), fallbackSettings_lookup.
  destruct (knownWebhook eventType); simpl; [| reflexivity].
  destruct (isDevelopment (location w)); simpl; [reflexivity |].
  destruct (postReply a) as [e | status statusText body]; simpl;
    js_cases; eexists; (split; [reflexivity |]); split; reflexivity.
Qed.

Lemma settings_unavailable_fallback_witness :
  let w := Sample.world 100000 (Sample.session 1000) (Sample.storage (Sample.session 1000)) in
  let a := mkAttempt (Rejected (mkError "TypeError" "Failed to fetch")) Sample.delivered in
  exists payload,
    requests (exec (sendWebhook_try "orderCompleted" (Sample.abandoned 100000 99000) a) w)
    = [POST_webhook "https://n8n.pmcell.shop/webhook/orderCompleted" payload]
    /\ WebhookPayload.event payload = "orderCompleted"
    /\ WebhookPayload.data payload = Sample.abandoned 100000 99000.
Proof.
  intros w a.
  exact (settings_unavailable_fallback "orderCompleted" (Sample.abandoned 100000 99000) a w
           eq_refl).
Defined.

(** *** What the webhooks carry *)

Lemma removeImagesFromCartItems_noImages cartItems :
  Forall (fun item => CartItem.image item = None) (removeImagesFromCartItems cartItems).
Proof.
  unfold removeImagesFromCartItems.
  induction cartItems as [| item rest IH]; simpl; constructor; [reflexivity | exact IH].
Qed.

Lemma removeImagesFromCartItems_lines cartItems :
  map (fun item => (CartItem.productId item, CartItem.quantity item))
    (removeImagesFromCartItems cartItems)
  = map (fun item => (CartItem.productId item, CartItem.quantity item)) cartItems.
Proof.
  unfold removeImagesFromCartItems.
  induction cartItems as [| item rest IH]; simpl; [reflexivity |]. rewrite IH. reflexivity.
Qed.

(** X13. Webhooks carry the cart lines without their images.  Whatever
    [sendCartAbandonedWebhook] and [sendOrderCompletedWebhook] hand to the
    dispatcher, and whatever the periodic sweep POSTs, holds line items whose
    [image] field is gone; the abandoned cart's lines keep their product ids
    and quantities, in order. *)
Theorem webhooks_carry_no_images w orderData net :
  (exists extra,
     jobs (exec sendCartAbandonedWebhook w) = (jobs w ++ extra)%list
     /\ Forall jobNoImages extra)
  /\ (exists extra,
        jobs (exec (sendOrderCompletedWebhook orderData) w) = (jobs w ++ extra)%list
        /\ Forall jobNoImages extra)
  /\ (exists extra,
        requests (exec (checkAbandonedCartGlobal net) w) = (requests w ++ extra)%list
        /\ Forall requestNoImages extra)
  /\ (forall cart,
        cart_storage (localStorage w) = Some (Json cart) ->
        0 < itemsLength cart ->
        exists cartItems abandonedAt idle session whatsapp,
          jobs (exec sendCartAbandonedWebhook w)
          = (jobs w ++ [SendWebhookJob "cartAbandoned"
                          (CartAbandonedData cartItems abandonedAt idle session whatsapp) 2])%list
          /\ map (fun item => (CartItem.productId item, CartItem.quantity item)) cartItems
             = map (fun item => (CartItem.productId item, CartItem.quantity item))
                 (cartItemsOf cart)).
Proof.
  split; [| split; [| split]].
  - unfold sendCartAbandonedWebhook, sendWebhook. js_unfold. simpl.
    js_cases;
      first [ exists []; split; [symmetry; apply app_nil_r | constructor]
            | eexists; split; [reflexivity |]; constructor; [| constructor]; simpl;
              apply removeImagesFromCartItems_noImages ].
  - unfold sendOrderCompletedWebhook, sendWebhook. js_unfold. simpl.
    eexists. split; [reflexivity |]. constructor; [| constructor]. simpl.
    destruct (order_items orderData) as [items |] eqn:Hitems; simpl.
    + apply removeImagesFromCartItems_noImages.
    + rewrite Hitems. exact I.
  - unfold checkAbandonedCartGlobal. js_unfold. simpl.
    js_cases;
      first [ exists []; split; [symmetry; apply app_nil_r | constructor]
            | eexists; split; [rewrite <- ?app_assoc; reflexivity |];
              repeat constructor; simpl; apply removeImagesFromCartItems_noImages ].
  - intros cart Hc Hn.
    rewrite (f_equal snd (sendCartAbandonedWebhook_fires w cart Hc Hn) : exec _ w = _).
    eexists _, _, _, _, _. split; [reflexivity |].
    apply removeImagesFromCartItems_lines.
Qed.

Lemma webhooks_carry_no_images_witness :
  let w := Sample.world 100000 (Sample.session 1000) (Sample.storage (Sample.session 1000)) in
  exists cartItems abandonedAt idle session whatsapp,
    jobs (exec sendCartAbandonedWebhook w)
    = [SendWebhookJob "cartAbandoned"
         (CartAbandonedData cartItems abandonedAt idle session whatsapp) 2]
    /\ map (fun item => (CartItem.productId item, CartItem.quantity item)) cartItems
       = [("p1", 2%float)].
Proof.
  intros w.
  pose proof (webhooks_carry_no_images w (mkOrderData None EmptyString)
                (mkAttempt (Sample.settings true "PRODUCTION") Sample.delivered)) as H.
  destruct H as (_ & _ & _ & H).
  exact (H Sample.cart eq_refl eq_refl).
Defined.

(** ** The delivery log *)

(** X19. A delivered webhook ends the call and is logged once.  When the
    first pass finds the webhook type enabled and its POST is answered 2xx,
    in a browser whose delivery log can be read and written, the call
    returns after that one POST, whatever answers would follow, and the log
    gains one [success] entry at its head, with the endpoint and the
    environment used; the log is cut to its first 50 entries. *)
Theorem delivered_webhook_is_logged eventType data maxRetries a net w webhookConfig
    status statusText body :
  getWebhookSettings (location w) (settingsReply a) !! eventType = Some webhookConfig ->
  enabled webhookConfig = true ->
  postReply a = Response status statusText body ->
  ok status = true ->
  quotaExceeded (localStorage w) = false ->
  webhookLogs (localStorage w) <> Some Corrupt ->
  let w' := exec (sendWebhook_resume eventType data maxRetries 0 (a :: net)) w in
  let url := ((if String.eqb (environment webhookConfig) "production"
               then "https://n8n.pmcell.shop/webhook/"
               else "https://n8n.pmcell.shop/webhook-test/") ++ eventType)%string in
  result (sendWebhook_resume eventType data maxRetries 0 (a :: net)) w = Normal tt
  /\ (exists payload, requests w' = (requests w ++ [POST_webhook url payload])%list
                      /\ WebhookPayload.data payload = data)
  /\ storedLogs w'
     = slice_first 50
         (WebhookLog.mk (now w) (now w) eventType (environment webhookConfig) "success" url
          :: storedLogs w)
  /\ (length (storedLogs w') <= 50)%nat.
Proof.
  intros Hcfg Hen Hp Hok Hq Hl w' url. subst w' url.
  simpl sendWebhook_resume. rewrite exec_try_catch, result_try_catch.
  assert (Htry : result (sendWebhook_try eventType data a) w = Normal tt
                 /\ (exists payload,
                       requests (exec (sendWebhook_try eventType data a) w)
                       = (requests w
                          ++ [POST_webhook
                                ((if String.eqb (environment webhookConfig) "production"
                                  then "https://n8n.pmcell.shop/webhook/"
                                  else "https://n8n.pmcell.shop/webhook-test/") ++ eventType)
                                payload])%list
                       /\ WebhookPayload.data payload = data)
                 /\ storedLogs (exec (sendWebhook_try eventType data a) w)
                    = slice_first 50
                        (WebhookLog.mk (now w) (now w) eventType (environment webhookConfig)
                           "success"
                           ((if String.eqb (environment webhookConfig) "production"
                             then "https://n8n.pmcell.shop/webhook/"
                             else "https://n8n.pmcell.shop/webhook-test/") ++ eventType)
                         :: storedLogs w)).
  { unfold sendWebhook_try, logWebhook, getAnalyticsSnapshot, storedLogs.
    js_unfold. simpl. rewrite Hcfg, Hen, Hp. simpl. rewrite Hok. simpl.
    destruct (webhookLogs (localStorage w)) as [[| logs] |]; simpl;
      try (contradiction Hl; reflexivity);
      rewrite Hq; simpl;
      (split; [reflexivity |]); (split; [eexists; split; reflexivity |]); reflexivity. }
  destruct Htry as (Hr & Hreq & Hlogs). rewrite Hr.
  split; [reflexivity |]. split; [exact Hreq |]. split; [exact Hlogs |].
  rewrite Hlogs. unfold slice_first. rewrite length_take. lia.
Qed.

Lemma delivered_webhook_is_logged_witness :
  let w := Sample.world 100000 (Sample.session 1000) (Sample.storage (Sample.session 1000)) in
  let a := mkAttempt (Sample.settings true "Production") Sample.delivered in
  let w' := exec (sendWebhook_resume "cartAbandoned" (Sample.abandoned 100000 99000) 2 0
                    [a; mkAttempt (Sample.settings true "Production") Sample.refused]) w in
  storedLogs w'
  = [WebhookLog.mk 100000 100000 "cartAbandoned" "production" "success"
       "https://n8n.pmcell.shop/webhook/cartAbandoned"].
Proof.
  intros w a w'.
  assert (Hq : quotaExceeded (localStorage w) = false) by reflexivity.
  assert (Hl : webhookLogs (localStorage w) <> Some Corrupt) by discriminate.
  pose proof (delivered_webhook_is_logged "cartAbandoned" (Sample.abandoned 100000 99000) 2 a
                [mkAttempt (Sample.settings true "Production") Sample.refused] w
                (mkConfig true "production") 200 "OK" tt
                eq_refl eq_refl eq_refl eq_refl Hq Hl) as H.
  cbv zeta in H. destruct H as (_ & _ & H & _). exact H.
Defined.

(** ** The sweep and the dispatcher *)

(** X18. The sweep is not gated like the dispatcher.  On an expired,
    non-empty cart, when the settings arrive with a 2xx status, the sweep
    POSTs a [cartAbandoned] webhook as soon as the first [cartAbandoned] row
    is enabled, on any page and whatever the environment of the row: to the
    production endpoint when the row says exactly [PRODUCTION], to the test
    endpoint otherwise.  On a page outside development the dispatcher, given
    the same answer, sends nothing when the last [cartAbandoned] row names
    another environment than production. *)
Theorem sweep_bypasses_production_gating w a cart status statusText settings post row row' :
  cart_storage (localStorage w) = Some (Json cart) ->
  0 < itemsLength cart ->
  pmcell_analytics (localStorage w) = Some (Json a) ->
  lastCartActivity a <> 0 ->
  CART_ABANDON_TIME <= now w - lastCartActivity a ->
  ok status = true ->
  find (fun s => String.eqb (Setting.webhookType s) "cartAbandoned") settings = Some row ->
  Setting.enabled row = true ->
  let net := mkAttempt (Response status statusText (Normal settings)) post in
  (exists payload,
     requests (exec (checkAbandonedCartGlobal net) w)
     = (requests w
        ++ [GET_webhook_settings;
            POST_webhook
              (if String.eqb (Setting.environment row) "PRODUCTION"
               then "https://n8n.pmcell.shop/webhook/cartAbandoned"
               else "https://n8n.pmcell.shop/webhook-test/cartAbandoned") payload])%list
     /\ WebhookPayload.event payload = "cartAbandoned"
     /\ WebhookPayload.data payload
        = CartAbandonedData (removeImagesFromCartItems (cartItemsOf cart)) (now w)
            (now w - lastCartActivity a) (sessionId a) (whatsappCollected a))
  /\ (isDevelopment (location w) = false ->
      fetchedSetting "cartAbandoned" settings = Some row' ->
      String.eqb (toLowerCase (Setting.environment row')) "production" = false ->
      forall data, sendWebhook_try "cartAbandoned" data net w = (Normal tt, w)).
Proof.
  intros Hc Hn Hs Ha He Hok Hfind Hen net. split.
  - unfold checkAbandonedCartGlobal, net. js_unfold. simpl.
    rewrite Hc. simpl.
    destruct (Z.eqb_spec (itemsLength cart) 0); [lia |].
    rewrite Hs. simpl.
    destruct (Z.eqb_spec (lastCartActivity a) 0); [contradiction |].
    unfold CART_ABANDON_TIME in He.
    destruct (Z.geb_spec (now w - lastCartActivity a) (1 * 60 * 1000)); [| lia].
    simpl. rewrite Hok. simpl. rewrite Hfind, Hen. simpl.
    destruct post as [e | status' statusText' body']; simpl;
      js_cases; rewrite <- ?app_assoc; simpl;
      eexists; (split; [reflexivity |]); split; reflexivity.
  - intros Hdev Hlast Henv data.
    unfold sendWebhook_try, net. js_unfold. simpl.
    unfold getWebhookSettings. rewrite Hok, Hdev. unfold productionSettings.
    rewrite lookup_fmap, convertSettings_lookup, Hlast. simpl.
    rewrite Henv, andb_false_r. reflexivity.
Qed.

Lemma sweep_bypasses_production_gating_witness :
  let a := Sample.session 1000 in
  let w := Sample.world 100000 a (Sample.storage a) in
  let net := mkAttempt (Sample.settings true "TEST") Sample.delivered in
  (exists payload,
     requests (exec (checkAbandonedCartGlobal net) w)
     = [GET_webhook_settings;
        POST_webhook "https://n8n.pmcell.shop/webhook-test/cartAbandoned" payload])
  /\ sendWebhook_try "cartAbandoned" (Sample.abandoned 100000 99000) net w = (Normal tt, w).
Proof.
  intros a w net.
  assert (He : CART_ABANDON_TIME <= now w - lastCartActivity a) by (vm_compute; discriminate).
  assert (Hn : 0 < itemsLength Sample.cart) by reflexivity.
  assert (Ha : lastCartActivity a <> 0) by discriminate.
  pose proof (sweep_bypasses_production_gating w a Sample.cart 200 "OK"
                [Setting.mk "cartAbandoned" true "TEST"] Sample.delivered
                (Setting.mk "cartAbandoned" true "TEST") (Setting.mk "cartAbandoned" true "TEST")
                eq_refl Hn eq_refl Ha He eq_refl eq_refl eq_refl) as H.
  cbv zeta in H. destruct H as [(payload & Hreq & _) Hgate].
  split.
  - exists payload. exact Hreq.
  - exact (Hgate eq_refl eq_refl eq_refl (Sample.abandoned 100000 99000)).
Defined.

(** ** The local queue *)

(** X17. The local queue keeps the newest 50 sessions and never fails its
    caller.  [saveToLocalQueue] returns normally in every browser state.
    When the queue can be read and written, the current session is appended
    with [retries = 0] and the queue is cut to its last 50 items and written
    as JSON, so it never holds more than 50 and its newest item is the one
    just saved; when the stored queue is non-empty text that is not JSON or
    the browser refuses the write, storage is left as it was. *)
Theorem saveToLocalQueue_keeps_newest w :
  let w' := exec saveToLocalQueue w in
  result saveToLocalQueue w = Normal tt
  /\ analytics w' = analytics w
  /\ requests w' = requests w
  /\ (queueUsable w ->
      storedQueue w' = toJSON_queue (slice_last 50 (storedQueue w ++ [queueItemOf w]))
      /\ length (storedQueue w') = Nat.min 50 (S (length (storedQueue w)))
      /\ last (storedQueue w') = Some (queuedItemOf w)
      /\ QueueItem.data (queuedItemOf w) = toJSON (analytics w)
      /\ QueueItem.retries (queuedItemOf w) = 0)
  /\ (~ queueUsable w -> localStorage w' = localStorage w).
Proof.
  intros w'. subst w'.
  destruct (saveToLocalQueue_frame w) as (Hr & _ & Hreq & Ha & _).
  split; [exact Hr |]. split; [exact Ha |]. split; [exact Hreq |]. split.
  - intros Hu.
    assert (Hq : storedQueue (exec saveToLocalQueue w)
                 = toJSON_queue (slice_last 50 (storedQueue w ++ [queueItemOf w])))
      by (unfold exec; rewrite (saveToLocalQueue_usable w Hu); reflexivity).
    rewrite Hq. split; [reflexivity |].
    split.
    { unfold toJSON_queue, slice_last.
      rewrite length_map, length_drop, length_app.
      change (length [queueItemOf w]) with 1%nat. lia. }
    split; [| split; reflexivity].
    destruct (queued_last (storedQueue w) (queueItemOf w)) as [queue Hqueue].
    rewrite Hqueue. apply last_snoc.
  - intros Hn. unfold queueUsable in Hn.
    unfold saveToLocalQueue, readQueue. js_unfold. simpl.
    destruct (analytics_queue (localStorage w)) as [[| queue] |] eqn:Hqueue; simpl;
      try reflexivity;
      destruct (quotaExceeded (localStorage w)) eqn:Hq; simpl; try reflexivity;
      exfalso; apply Hn; (split; [first [reflexivity | assumption] | rewrite ?Hqueue; discriminate]).
Qed.

Lemma saveToLocalQueue_keeps_newest_witness :
  let a := Sample.session 0 in
  let full := map (fun i => QueueItem.mk (sessionId a) (Z.of_nat i) a 1) (seq 0 50) in
  let w := Sample.world 5000 a
             (mkLocalStorage (Some (Json a)) (Some (Json Sample.cart)) (Some (Json full))
                None false) in
  let w' := exec saveToLocalQueue w in
  length (storedQueue w') = 50%nat
  /\ last (storedQueue w') = Some (QueueItem.mk (sessionId a) 5000 a 0)
  /\ head (storedQueue w') = Some (QueueItem.mk (sessionId a) 1 a 1).
Proof.
  intros a full w w'.
  pose proof (saveToLocalQueue_keeps_newest w) as H. cbv zeta in H. fold w' in H.
  destruct H as (_ & _ & _ & H & _).
  assert (Hu : queueUsable w) by (split; [reflexivity | discriminate]).
  destruct (H Hu) as (Hq & Hlen & Hlast & _).
  split; [exact Hlen |]. split; [exact Hlast |].
  rewrite Hq. vm_compute. reflexivity.
Defined.

(** ** The recorders, one call after the other *)

(** *** Pending abandonment timeouts *)

Lemma kept_filter h l X :
  sublist (List.filter is_abandon l) X ->
  sublist (List.filter is_abandon (filter (fun t => handle t ≠ h) l)) X.
Proof.
  intros H.
  change (filter (fun t => handle t ≠ h) l) with (cancelled (Some h) l).
  rewrite (filter_cancelled is_abandon (Some h) l). unfold cancelled.
  etransitivity; [apply sublist_filter | exact H].
Qed.

Lemma kept_snoc t l X :
  is_abandon t = false ->
  sublist (List.filter is_abandon l) X ->
  sublist (List.filter is_abandon (l ++ [t])) X.
Proof.
  intros Ht H. rewrite List.filter_app. simpl. rewrite Ht, app_nil_r. exact H.
Qed.

Ltac timers_kept :=
  repeat first [ apply kept_snoc; [reflexivity |] | apply kept_filter | reflexivity ].

Lemma timerKept_tracked w w' : timerKept w w' -> timerTracked w -> timerTracked w'.
Proof.
  unfold timerKept, timerTracked. intros [Hs Hc] [Hn | (tm & Hone & Hh)].
  - left. rewrite Hn in Hs. apply sublist_nil_r in Hs. exact Hs.
  - rewrite Hone in Hs. inversion Hs as [| ? l1 l2 Hs' | ? l1 l2 Hs']; subst.
    + apply sublist_nil_r in Hs'. subst. right. exists tm. split; [congruence | congruence].
    + apply sublist_nil_r in Hs'. left. exact Hs'.
Qed.

Lemma trackCategoryVisit_summary categoryName categoryId w :
  quotaExceeded (localStorage w) = false ->
  let w' := exec (trackCategoryVisit categoryName categoryId) w in
  result (trackCategoryVisit categoryName categoryId) w = Normal tt
  /\ quotaExceeded (localStorage w') = false
  /\ inSync w'
  /\ sessionId (analytics w') = sessionId (analytics w)
  /\ startTime (analytics w') = startTime (analytics w)
  /\ lastActivity (analytics w') = now w
  /\ timeOnSite (analytics w') = now w - startTime (analytics w)
  /\ timerKept w w'.
Proof.
  intros H w'. subst w'.
  unfold inSync, timerKept, abandonPending,
    trackCategoryVisit, updateLastActivity, saveAnalytics, debouncedServerSave.
  js_unfold. simpl. rewrite H. simpl.
  js_cases; repeat split; try assumption; timers_kept.
Qed.

Lemma trackProductView_summary productId productName category w :
  quotaExceeded (localStorage w) = false ->
  let w' := exec (trackProductView productId productName category) w in
  result (trackProductView productId productName category) w = Normal tt
  /\ quotaExceeded (localStorage w') = false
  /\ inSync w'
  /\ sessionId (analytics w') = sessionId (analytics w)
  /\ startTime (analytics w') = startTime (analytics w)
  /\ lastActivity (analytics w') = now w
  /\ timeOnSite (analytics w') = now w - startTime (analytics w)
  /\ timerKept w w'.
Proof.
  intros H w'. subst w'.
  unfold inSync, timerKept, abandonPending,
    trackProductView, updateLastActivity, saveAnalytics, debouncedServerSave.
  js_unfold. simpl. rewrite H. simpl.
  js_cases; repeat split; try assumption; timers_kept.
Qed.

Lemma trackSearch_summary searchTerm w :
  quotaExceeded (localStorage w) = false ->
  let w' := exec (trackSearch searchTerm) w in
  result (trackSearch searchTerm) w = Normal tt
  /\ quotaExceeded (localStorage w') = false
  /\ inSync w'
  /\ sessionId (analytics w') = sessionId (analytics w)
  /\ startTime (analytics w') = startTime (analytics w)
  /\ lastActivity (analytics w') = now w
  /\ timeOnSite (analytics w') = now w - startTime (analytics w)
  /\ timerKept w w'.
Proof.
  intros H w'. subst w'.
  unfold inSync, timerKept, abandonPending,
    trackSearch, updateLastActivity, saveAnalytics, debouncedServerSave.
  js_unfold. simpl. rewrite H. simpl.
  js_cases; repeat split; try assumption; timers_kept.
Qed.

Lemma trackWhatsAppCollection_summary whatsapp w :
  quotaExceeded (localStorage w) = false ->
  let w' := exec (trackWhatsAppCollection whatsapp) w in
  result (trackWhatsAppCollection whatsapp) w = Normal tt
  /\ quotaExceeded (localStorage w') = false
  /\ inSync w'
  /\ sessionId (analytics w') = sessionId (analytics w)
  /\ startTime (analytics w') = startTime (analytics w)
  /\ lastActivity (analytics w') = now w
  /\ timeOnSite (analytics w') = now w - startTime (analytics w)
  /\ timerKept w w'.
Proof.
  intros H w'. subst w'.
  unfold inSync, timerKept, abandonPending,
    trackWhatsAppCollection, sendWhatsAppCollectedWebhook, sendWebhook,
    updateLastActivity, saveAnalytics, debouncedServerSave.
  js_unfold. simpl. rewrite H. simpl.
  js_cases; repeat split; try assumption; timers_kept.
Qed.

(** Clearing the handle the instance holds leaves no abandonment timeout. *)
Lemma cleared_some w h Y :
  timerTracked w ->
  cartAbandonTimer w = Some h ->
  sublist (List.filter is_abandon Y) (abandonPending w) ->
  List.filter is_abandon (filter (fun t => handle t ≠ h) Y) = [].
Proof.
  intros Ht Hh Hs.
  change (filter (fun t => handle t ≠ h) Y) with (cancelled (Some h) Y).
  rewrite (filter_cancelled is_abandon (Some h) Y). unfold cancelled.
  destruct Ht as [Hn | (tm & Hone & Hh')].
  - rewrite Hn in Hs. apply sublist_nil_r in Hs. rewrite Hs. reflexivity.
  - rewrite Hone in Hs. rewrite Hh in Hh'. injection Hh' as ->.
    inversion Hs as [| ? l1 l2 Hs' | ? l1 l2 Hs']; subst.
    + apply sublist_nil_r in Hs'. subst.
      rewrite filter_cons_False by (intros Hne; apply Hne; reflexivity). reflexivity.
    + apply sublist_nil_r in Hs'. rewrite Hs'. reflexivity.
Qed.

Lemma cleared_none w Y :
  timerTracked w ->
  cartAbandonTimer w = None ->
  sublist (List.filter is_abandon Y) (abandonPending w) ->
  List.filter is_abandon Y = [].
Proof.
  intros [Hn | (tm & _ & Hh)] Hnone Hs.
  - rewrite Hn in Hs. apply sublist_nil_r in Hs. exact Hs.
  - rewrite Hnone in Hh. discriminate.
Qed.

Ltac timer_cleared :=
  first [ eapply cleared_some; [eassumption | eassumption | timers_kept]
        | eapply cleared_none; [eassumption | eassumption | timers_kept] ].

Lemma trackOrderCompletion_summary orderData w :
  quotaExceeded (localStorage w) = false ->
  timerTracked w ->
  let w' := exec (trackOrderCompletion orderData) w in
  result (trackOrderCompletion orderData) w = Normal tt
  /\ quotaExceeded (localStorage w') = false
  /\ inSync w'
  /\ sessionId (analytics w') = sessionId (analytics w)
  /\ startTime (analytics w') = startTime (analytics w)
  /\ lastActivity (analytics w') = now w
  /\ timeOnSite (analytics w') = now w - startTime (analytics w)
  /\ abandonPending w' = []
  /\ cartAbandonTimer w' = None
  /\ lastCartActivity (analytics w') = lastCartActivity (analytics w).
Proof.
  intros H Ht w'. subst w'.
  unfold inSync, abandonPending at 1,
    trackOrderCompletion, sendOrderCompletedWebhook, markCartAsCompleted, sendWebhook,
    updateLastActivity, saveAnalytics, debouncedServerSave.
  js_unfold. simpl. rewrite H. simpl.
  js_cases; repeat split; try assumption; try congruence; timer_cleared.
Qed.

Lemma trackCartEvent_summary type productId quantity productName unitPrice w :
  quotaExceeded (localStorage w) = false ->
  timerTracked w ->
  let w' := exec (trackCartEvent type productId quantity productName unitPrice) w in
  result (trackCartEvent type productId quantity productName unitPrice) w = Normal tt
  /\ quotaExceeded (localStorage w') = false
  /\ inSync w'
  /\ sessionId (analytics w') = sessionId (analytics w)
  /\ startTime (analytics w') = startTime (analytics w)
  /\ lastActivity (analytics w') = now w
  /\ timeOnSite (analytics w') = now w - startTime (analytics w)
  /\ timerTracked w'.
Proof.
  intros H Ht w'. subst w'.
  assert (Hid : forall a,
            sessionId (markAddedToCart productId a) = sessionId a
            /\ startTime (markAddedToCart productId a) = startTime a
            /\ lastActivity (markAddedToCart productId a) = lastActivity a
            /\ timeOnSite (markAddedToCart productId a) = timeOnSite a).
  { intros a. unfold markAddedToCart. simpl. destruct (find _ _); repeat split. }
  unfold inSync, timerTracked, abandonPending,
    trackCartEvent, updateLastActivity, saveAnalytics, debouncedServerSave,
    setupCartAbandonTimer, saveCartToServer, getAnalyticsSnapshot.
  js_unfold. simpl. rewrite H. simpl.
  js_cases.
  all: simpl.
  all: repeat split; try assumption.
  all: try (destruct (Hid (set_lastCartActivity (now w)
              (set_cartEvents
                 (cartEvents (analytics w) ++
                  [newCartEvent type productId quantity productName unitPrice (now w)])
                 (set_activity (now w) (now w - startTime (analytics w)) (analytics w)))))
              as (Hid1 & Hid2 & Hid3 & Hid4);
            first [ rewrite Hid1 | rewrite Hid2 | rewrite Hid3 | rewrite Hid4 ]; reflexivity).
  all: first
    [ right; eexists; split;
      [rewrite List.filter_app; simpl;
       match goal with |- (?l ++ _)%list = _ => replace l with (@nil Timeout) end;
       [reflexivity | symmetry; timer_cleared]
      | reflexivity]
    | left; timer_cleared ].
Qed.

(** *** Any call of a recorder *)

Lemma record_summary r w :
  quotaExceeded (localStorage w) = false ->
  timerTracked w ->
  let w' := exec (record r) w in
  result (record r) w = Normal tt
  /\ quotaExceeded (localStorage w') = false
  /\ inSync w'
  /\ sessionId (analytics w') = sessionId (analytics w)
  /\ startTime (analytics w') = startTime (analytics w)
  /\ lastActivity (analytics w') = now w
  /\ timeOnSite (analytics w') = now w - startTime (analytics w)
  /\ timerTracked w'.
Proof.
  intros Hq Ht w'. subst w'.
  destruct r as [categoryName categoryId | searchTerm | productId productName category
                | type productId quantity productName unitPrice | whatsapp | orderData];
    simpl record.
  - pose proof (trackCategoryVisit_summary categoryName categoryId w Hq) as H. cbv zeta in H.
    destruct H as (H1 & H2 & H3 & H4 & H5 & H6 & H7 & H8).
    repeat (split; [assumption |]). exact (timerKept_tracked _ _ H8 Ht).
  - pose proof (trackSearch_summary searchTerm w Hq) as H. cbv zeta in H.
    destruct H as (H1 & H2 & H3 & H4 & H5 & H6 & H7 & H8).
    repeat (split; [assumption |]). exact (timerKept_tracked _ _ H8 Ht).
  - pose proof (trackProductView_summary productId productName category w Hq) as H.
    cbv zeta in H. destruct H as (H1 & H2 & H3 & H4 & H5 & H6 & H7 & H8).
    repeat (split; [assumption |]). exact (timerKept_tracked _ _ H8 Ht).
  - exact (trackCartEvent_summary type productId quantity productName unitPrice w Hq Ht).
  - pose proof (trackWhatsAppCollection_summary whatsapp w Hq) as H. cbv zeta in H.
    destruct H as (H1 & H2 & H3 & H4 & H5 & H6 & H7 & H8).
    repeat (split; [assumption |]). exact (timerKept_tracked _ _ H8 Ht).
  - pose proof (trackOrderCompletion_summary orderData w Hq Ht) as H. cbv zeta in H.
    destruct H as (H1 & H2 & H3 & H4 & H5 & H6 & H7 & H8 & _).
    repeat (split; [assumption |]). left. exact H8.
Qed.
Lemma recordTrace_cons t r calls w :
  result (record r) (set_now t w) = Normal tt ->
  recordTrace ((t, r) :: calls) w = recordTrace calls (exec (record r) (set_now t w)).
Proof.
  intros Hr. simpl. unfold bind at 1. unfold modify at 1. unfold bind at 1.
  rewrite (run_eta (record r) (set_now t w)), Hr. reflexivity.
Qed.

Lemma recordTrace_invariant calls : forall w,
  quotaExceeded (localStorage w) = false ->
  inSync w ->
  timerTracked w ->
  let w' := exec (recordTrace calls) w in
  result (recordTrace calls) w = Normal tt
  /\ quotaExceeded (localStorage w') = false
  /\ inSync w'
  /\ timerTracked w'
  /\ sessionId (analytics w') = sessionId (analytics w)
  /\ startTime (analytics w') = startTime (analytics w)
  /\ (forall t r, last calls = Some (t, r) ->
        lastActivity (analytics w') = t
        /\ timeOnSite (analytics w') = t - startTime (analytics w)).
Proof.
  induction calls as [| [t r] calls IH]; intros w Hq Hs Ht w'; subst w'.
  - simpl. change (exec (ret tt) w) with w.
    repeat (split; [first [assumption | reflexivity] |]). intros t r Hl. discriminate Hl.
  - pose proof (record_summary r (set_now t w) Hq Ht) as H. cbv zeta in H.
    destruct H as (Hr & Hq1 & Hs1 & Hid & Hst & Hla & Hto & Ht1).
    unfold exec, result. rewrite (recordTrace_cons t r calls w Hr).
    fold (exec (recordTrace calls) (exec (record r) (set_now t w))).
    fold (result (recordTrace calls) (exec (record r) (set_now t w))).
    pose proof (IH (exec (record r) (set_now t w)) Hq1 Hs1 Ht1) as Hn. cbv zeta in Hn.
    destruct Hn as (Hr' & Hq' & Hs' & Ht' & Hid' & Hst' & Hlast).
    simpl in Hid, Hst, Hla, Hto.
    repeat (split; [first [assumption | congruence] |]).
    intros t' r' Hl. destruct calls as [| c calls'].
    + injection Hl as <- <-. simpl.
      change (exec (ret tt) ?v) with v. split; assumption.
    + rewrite last_cons_cons in Hl. rewrite <- Hst. exact (Hlast t' r' Hl).
Qed.

Lemma recordTrace_app calls more : forall w,
  result (recordTrace calls) w = Normal tt ->
  recordTrace (calls ++ more) w = recordTrace more (exec (recordTrace calls) w).
Proof.
  induction calls as [| [t r] calls IH]; intros w Hr; [reflexivity |].
  destruct (result (record r) (set_now t w)) as [[] | e] eqn:Hone.
  - unfold result in Hr. rewrite (recordTrace_cons t r calls w Hone) in Hr.
    change (((t, r) :: calls) ++ more)%list with ((t, r) :: (calls ++ more))%list.
    rewrite (recordTrace_cons t r (calls ++ more)%list w Hone).
    change (exec (recordTrace ((t, r) :: calls)) w)
      with (snd (recordTrace ((t, r) :: calls) w)).
    rewrite (recordTrace_cons t r calls w Hone).
    apply IH. exact Hr.
  - exfalso. revert Hr. simpl. unfold result, bind at 1, modify at 1, bind at 1.
    rewrite (run_eta (record r) (set_now t w)), Hone. discriminate.
Qed.

(** X14. The session survives the recorders.  Whatever recorder calls the
    pages make, at whatever times, on a browser that accepts the writes:
    no call throws, the session keeps its id and its start time, its
    [lastActivity] is the time of the last call and its [timeOnSite] the
    time from the start to that call, the stored session is the one in
    memory (as JSON holds it), and at most one abandonment timeout is
    pending, the one whose handle the instance holds. *)
Theorem session_survives_recorders calls w :
  quotaExceeded (localStorage w) = false ->
  inSync w ->
  timerTracked w ->
  let w' := exec (recordTrace calls) w in
  result (recordTrace calls) w = Normal tt
  /\ sessionId (analytics w') = sessionId (analytics w)
  /\ startTime (analytics w') = startTime (analytics w)
  /\ inSync w'
  /\ timerTracked w'
  /\ (forall t r, last calls = Some (t, r) ->
        lastActivity (analytics w') = t
        /\ timeOnSite (analytics w') = t - startTime (analytics w)).
Proof.
  intros Hq Hs Ht w'.
  pose proof (recordTrace_invariant calls w Hq Hs Ht) as H. cbv zeta in H. fold w' in H.
  destruct H as (H1 & _ & H3 & H4 & H5 & H6 & H7).
  repeat (split; [assumption |]). exact H7.
Qed.

Lemma session_survives_recorders_witness :
  let w := Sample.world 5000 (Sample.session 0) (Sample.storage (Sample.session 0)) in
  let calls := [(6000, TrackCategoryVisit "Capas" None);
                (7000, TrackSearch "  Capa iPhone ");
                (8000, TrackProductView "p1" "Capa Anti-Impacto" "Capas");
                (9000, TrackCartEvent add "p1" 1 None (Some 10%float));
                (9500, TrackWhatsAppCollection "5511999990000")] in
  let w' := exec (recordTrace calls) w in
  sessionId (analytics w') = "m2r1bz7kx9"
  /\ startTime (analytics w') = 500
  /\ lastActivity (analytics w') = 9500
  /\ timeOnSite (analytics w') = 9000
  /\ inSync w'.
Proof.
  intros w calls w'.
  assert (Hq : quotaExceeded (localStorage w) = false) by reflexivity.
  assert (Hs : inSync w) by reflexivity.
  assert (Ht : timerTracked w) by (left; reflexivity).
  pose proof (session_survives_recorders calls w Hq Hs Ht) as H. cbv zeta in H.
  destruct H as (_ & H2 & H3 & H4 & _ & H6).
  destruct (H6 9500 (TrackWhatsAppCollection "5511999990000") eq_refl) as [H7 H8].
  split; [exact H2 |]. split; [exact H3 |]. split; [exact H7 |].
  split; [exact H8 | exact H4].
Defined.

(** *** The abandonment timer along the calls *)

Lemma afterCartEvent_lastCartActivity type productId quantity productName unitPrice t a :
  lastCartActivity (afterCartEvent type productId quantity productName unitPrice t a) = t.
Proof.
  unfold afterCartEvent. simpl.
  destruct (is_add type); [apply markAddedToCart_lastCartActivity | reflexivity].
Qed.

(** A call made after the calls of [calls] runs in the world they leave. *)
Lemma recordTrace_then calls t r w :
  quotaExceeded (localStorage w) = false ->
  inSync w ->
  timerTracked w ->
  let w1 := set_now t (exec (recordTrace calls) w) in
  quotaExceeded (localStorage w1) = false
  /\ timerTracked w1
  /\ exec (recordTrace (calls ++ [(t, r)])) w = exec (record r) w1.
Proof.
  intros Hq Hs Ht w1.
  pose proof (recordTrace_invariant calls w Hq Hs Ht) as H. cbv zeta in H.
  destruct H as (Hr & Hq1 & _ & Ht1 & _).
  split; [exact Hq1 |]. split; [exact Ht1 |].
  pose proof (record_summary r w1 Hq1 Ht1) as Hone. cbv zeta in Hone.
  destruct Hone as (Hr1 & _).
  unfold exec at 1. rewrite (recordTrace_app calls [(t, r)] w Hr).
  rewrite (recordTrace_cons t r [] (exec (recordTrace calls) w) Hr1). reflexivity.
Qed.

(** X15. A cart event restarts the abandonment timer.  After any recorder
    calls that end with a cart event at a time [t > 0] (the browser
    accepting the writes), exactly one abandonment timeout is pending: it was
    set at [t] for the whole idle threshold, the instance holds its handle,
    and [lastCartActivity] is [t]. *)
Theorem cart_event_restarts_timer calls t type productId quantity productName unitPrice w :
  quotaExceeded (localStorage w) = false ->
  inSync w ->
  timerTracked w ->
  0 < t ->
  let w' := exec (recordTrace
                    (calls ++ [(t, TrackCartEvent type productId quantity productName
                                     unitPrice)])) w in
  exists h,
    abandonPending w' = [mkTimeout h t CART_ABANDON_TIME CartAbandonTimerFired]
    /\ cartAbandonTimer w' = Some h
    /\ lastCartActivity (analytics w') = t.
Proof.
  intros Hq Hs Ht Hpos w'.
  pose proof (recordTrace_then calls t
                (TrackCartEvent type productId quantity productName unitPrice) w Hq Hs Ht) as H.
  cbv zeta in H. destruct H as (Hq1 & Ht1 & Hrun). subst w'. rewrite Hrun. simpl record.
  set (w1 := set_now t (exec (recordTrace calls) w)) in *.
  pose proof (trackCartEvent_summary type productId quantity productName unitPrice w1 Hq1 Ht1)
    as Hsum. cbv zeta in Hsum. destruct Hsum as (_ & _ & _ & _ & _ & _ & _ & Ht2).
  destruct (trackCartEvent_rearms type productId quantity productName unitPrice w1 Hq1 Hpos)
    as (ts & h & Hts & Hh).
  destruct (trackCartEvent_ok type productId quantity productName unitPrice w1 Hq1)
    as (_ & Ha & _).
  exists h. change (now w1) with t in *.
  split; [| split; [exact Hh | rewrite Ha; apply afterCartEvent_lastCartActivity]].
  assert (Hp : abandonPending
                 (exec (trackCartEvent type productId quantity productName unitPrice) w1)
               = (List.filter is_abandon ts
                  ++ [mkTimeout h t CART_ABANDON_TIME CartAbandonTimerFired])%list).
  { unfold abandonPending. rewrite Hts, List.filter_app. reflexivity. }
  destruct Ht2 as [Hn | (tm & Hone & _)].
  - rewrite Hp in Hn. apply app_eq_nil in Hn as [_ Hn]. discriminate.
  - rewrite Hp in Hone |- *.
    destruct (List.filter is_abandon ts) as [| x l]; [reflexivity |].
    simpl in Hone. injection Hone as _ Hone. apply app_eq_nil in Hone as [_ Hone]. discriminate.
Qed.

Lemma cart_event_restarts_timer_witness :
  let w := Sample.world 5000 (Sample.session 0) (Sample.storage (Sample.session 0)) in
  let calls := [(6000, TrackCartEvent add "p1" 1 None (Some 10%float));
                (7000, TrackProductView "p2" "Pelicula 3D" "Peliculas");
                (8000, TrackCartEvent remove "p1" 1 None None)] in
  let w' := exec (recordTrace (calls ++ [(9000, TrackCartEvent add "p2" 2 None (Some 5%float))])) w in
  exists h,
    abandonPending w' = [mkTimeout h 9000 60000 CartAbandonTimerFired]
    /\ cartAbandonTimer w' = Some h
    /\ lastCartActivity (analytics w') = 9000.
Proof.
  intros w calls w'.
  assert (Hq : quotaExceeded (localStorage w) = false) by reflexivity.
  assert (Hs : inSync w) by reflexivity.
  assert (Ht : timerTracked w) by (left; reflexivity).
  assert (Hpos : 0 < 9000) by lia.
  exact (cart_event_restarts_timer calls 9000 add "p2" 2 None (Some 5%float) w Hq Hs Ht Hpos).
Defined.

Lemma trackOrderCompletion_calls orderData w :
  quotaExceeded (localStorage w) = false ->
  let w' := exec (trackOrderCompletion orderData) w in
  exists data,
    jobs w' = (jobs w ++ [SendWebhookJob "orderCompleted" (OrderCompletedData data) 2])%list
    /\ order_items data = option_map removeImagesFromCartItems (order_items orderData)
    /\ order_rest data = order_rest orderData
    /\ requests w'
       = (requests w ++ [GET_webhook_settings; POST_mark_contacted (sessionId (analytics w))])%list.
Proof.
  intros H w'. subst w'.
  destruct orderData as [[items |] rest];
    unfold trackOrderCompletion, sendOrderCompletedWebhook, markCartAsCompleted, sendWebhook,
      updateLastActivity, saveAnalytics, debouncedServerSave;
    js_unfold; simpl; rewrite H; simpl;
    js_cases; eexists; (split; [reflexivity |]); simpl;
    rewrite <- ?app_assoc; repeat split.
Qed.

(** X16. An order completion disarms the timer, not the sweep.  After any
    recorder calls that end with [trackOrderCompletion] (the browser
    accepting the writes), no abandonment timeout is pending and the instance
    holds no handle; the call has handed one [orderCompleted] webhook to the
    dispatcher, its line items without images, and has asked the server to
    mark the cart contacted; [lastCartActivity] is left as it was, in memory
    and in storage. *)
Theorem order_completion_disarms_timer calls t orderData w :
  quotaExceeded (localStorage w) = false ->
  inSync w ->
  timerTracked w ->
  let w1 := exec (recordTrace calls) w in
  let w' := exec (recordTrace (calls ++ [(t, TrackOrderCompletion orderData)])) w in
  abandonPending w' = []
  /\ cartAbandonTimer w' = None
  /\ lastCartActivity (analytics w') = lastCartActivity (analytics w1)
  /\ persistedLastCartActivity w' = Some (lastCartActivity (analytics w1))
  /\ exists data,
       jobs w' = (jobs w1 ++ [SendWebhookJob "orderCompleted" (OrderCompletedData data) 2])%list
       /\ noImages (OrderCompletedData data)
       /\ requests w'
          = (requests w1
             ++ [GET_webhook_settings; POST_mark_contacted (sessionId (analytics w))])%list.
Proof.
  intros Hq Hs Ht w1 w'.
  pose proof (recordTrace_then calls t (TrackOrderCompletion orderData) w Hq Hs Ht) as H.
  cbv zeta in H. destruct H as (Hq1 & Ht1 & Hrun). subst w'. rewrite Hrun. simpl record.
  pose proof (recordTrace_invariant calls w Hq Hs Ht) as Hinv. cbv zeta in Hinv.
  destruct Hinv as (_ & _ & _ & _ & Hid & _). fold w1 in Hid, Hq1, Ht1 |- *.
  pose proof (trackOrderCompletion_summary orderData (set_now t w1) Hq1 Ht1) as Hsum.
  cbv zeta in Hsum.
  destruct Hsum as (_ & _ & Hsync & _ & _ & _ & _ & Hp & Hh & Hlca).
  pose proof (trackOrderCompletion_calls orderData (set_now t w1) Hq1) as Hc. cbv zeta in Hc.
  destruct Hc as (data & Hjobs & Hitems & _ & Hreq).
  split; [exact Hp |]. split; [exact Hh |]. split; [exact Hlca |].
  split.
  - rewrite (persisted_inSync _ Hsync), Hlca. reflexivity.
  - exists data. split; [exact Hjobs |]. split.
    + simpl. rewrite Hitems. destruct (order_items orderData); simpl;
        [apply removeImagesFromCartItems_noImages | exact I].
    + rewrite Hreq. simpl. rewrite Hid. reflexivity.
Qed.

Lemma order_completion_disarms_timer_witness :
  let w := Sample.world 5000 (Sample.session 0) (Sample.storage (Sample.session 0)) in
  let calls := [(6000, TrackCartEvent add "p1" 1 None (Some 10%float))] in
  let w' := exec (recordTrace
                    (calls ++ [(7000, TrackOrderCompletion
                                        (mkOrderData (Some [Sample.item]) "total: 20"))])) w in
  abandonPending w' = []
  /\ cartAbandonTimer w' = None
  /\ lastCartActivity (analytics w') = 6000
  /\ persistedLastCartActivity w' = Some 6000.
Proof.
  intros w calls w'.
  assert (Hq : quotaExceeded (localStorage w) = false) by reflexivity.
  assert (Hs : inSync w) by reflexivity.
  assert (Ht : timerTracked w) by (left; reflexivity).
  pose proof (order_completion_disarms_timer calls 7000
                (mkOrderData (Some [Sample.item]) "total: 20") w Hq Hs Ht) as H.
  cbv zeta in H. destruct H as (H1 & H2 & H3 & H4 & _).
  split; [exact H1 |]. split; [exact H2 |]. split; [exact H3 | exact H4].
Defined.

(** ** The constructor *)

Lemma kept_nil w Y :
  abandonPending w = [] ->
  sublist (List.filter is_abandon Y) (abandonPending w) ->
  List.filter is_abandon Y = [].
Proof. intros Hn Hs. rewrite Hn in Hs. apply sublist_nil_r in Hs. exact Hs. Qed.

Lemma sameSession_trans a b c : sameSession a b -> sameSession b c -> sameSession a c.
Proof.
  unfold sameSession. intros (H1 & H2 & H3 & H4 & H5 & H6 & H7) (K1 & K2 & K3 & K4 & K5 & K6 & K7).
  repeat split; congruence.
Qed.

Lemma timerKept_trans w1 w2 w3 : timerKept w1 w2 -> timerKept w2 w3 -> timerKept w1 w3.
Proof.
  unfold timerKept. intros [H1 H2] [K1 K2]. split; [| congruence].
  etransitivity; [exact K1 | exact H1].
Qed.

Lemma loadAnalytics_loaded w :
  pmcell_analytics (localStorage w) <> Some Corrupt ->
  loadAnalytics w = (Normal (loadedSession w), w).
Proof.
  intros Hc.
  unfold loadAnalytics, loadedSession, createNewSession, generateSessionId, freshSession.
  js_unfold.
  destruct (pmcell_analytics (localStorage w)) as [[| a] |]; simpl;
    [contradiction Hc; reflexivity | | reflexivity].
  destruct (now w - lastActivity a >? 24 * 60 * 60 * 1000); reflexivity.
Qed.

Lemma updateLastActivity_summary w :
  quotaExceeded (localStorage w) = false ->
  let w' := exec updateLastActivity w in
  result updateLastActivity w = Normal tt
  /\ sameSession (analytics w) (analytics w')
  /\ lastActivity (analytics w') = now w
  /\ inSync w'
  /\ quotaExceeded (localStorage w') = false
  /\ timerKept w w'
  /\ intervals w' = intervals w
  /\ saveToServerRetryCount w' = saveToServerRetryCount w
  /\ jobs w' = jobs w
  /\ now w' = now w.
Proof.
  intros H w'. subst w'.
  unfold sameSession, inSync, timerKept, abandonPending,
    updateLastActivity, saveAnalytics, debouncedServerSave.
  js_unfold. simpl. rewrite H. simpl.
  js_cases; repeat split; try assumption; timers_kept.
Qed.

Lemma checkForAbandonedCart_summary w :
  quotaExceeded (localStorage w) = false ->
  inSync w ->
  let w' := exec checkForAbandonedCart w in
  result checkForAbandonedCart w = Normal tt
  /\ sameSession (analytics w) (analytics w')
  /\ lastActivity (analytics w') = lastActivity (analytics w)
  /\ inSync w'
  /\ quotaExceeded (localStorage w') = false
  /\ timerKept w w'
  /\ intervals w' = intervals w
  /\ saveToServerRetryCount w' = saveToServerRetryCount w
  /\ now w' = now w.
Proof.
  intros H Hs w'. subst w'.
  unfold sameSession, inSync, timerKept, abandonPending in *.
  unfold checkForAbandonedCart, checkForAbandonedCart_try, sendCartAbandonedWebhook,
    sendWebhook, resetLastCartActivity, saveAnalytics, debouncedServerSave.
  js_unfold. simpl.
  js_cases; simpl.
  all: try match goal with
           | H1 : quotaExceeded ?s = false, H2 : quotaExceeded ?s = true |- _ =>
               rewrite H1 in H2; discriminate H2
           end.
  all: repeat match goal with |- _ /\ _ => split end; try reflexivity; try assumption.
  all: timers_kept.
Qed.

Lemma setupCartAbandonTimer_summary w :
  abandonPending w = [] ->
  let w' := exec setupCartAbandonTimer w in
  result setupCartAbandonTimer w = Normal tt
  /\ analytics w' = analytics w
  /\ localStorage w' = localStorage w
  /\ timerTracked w'
  /\ intervals w' = intervals w
  /\ saveToServerRetryCount w' = saveToServerRetryCount w
  /\ jobs w' = jobs w.
Proof.
  intros Hp w'. subst w'.
  unfold timerTracked, abandonPending at 1 2, setupCartAbandonTimer.
  js_unfold. simpl.
  js_cases; simpl.
  all: repeat match goal with |- _ /\ _ => split end; try reflexivity.
  all: first
    [ right; eexists; split;
      [rewrite List.filter_app; simpl;
       match goal with
       | |- (?l ++ _)%list = _ =>
           replace l with (@nil Timeout)
             by (symmetry; eapply kept_nil; [eassumption | timers_kept])
       end;
       reflexivity
      | reflexivity]
    | left; eapply kept_nil; [eassumption | timers_kept] ].
Qed.

(** Up to its call of [processLocalQueue] the constructor starts no walk of
    the local queue, POSTs no queued session and leaves the stored queue as
    it is. *)
Lemma updateLastActivity_queue w :
  let w' := exec updateLastActivity w in
  queueWalks w' = queueWalks w
  /\ queuedPosts w' = queuedPosts w
  /\ analytics_queue (localStorage w') = analytics_queue (localStorage w).
Proof.
  intros w'. subst w'.
  unfold queueWalks, queuedPosts, updateLastActivity, saveAnalytics, debouncedServerSave.
  js_unfold. simpl. js_cases; repeat split.
Qed.

Lemma checkForAbandonedCart_queue w :
  let w' := exec checkForAbandonedCart w in
  queueWalks w' = queueWalks w
  /\ queuedPosts w' = queuedPosts w
  /\ analytics_queue (localStorage w') = analytics_queue (localStorage w).
Proof.
  intros w'. subst w'.
  unfold queueWalks, queuedPosts.
  unfold checkForAbandonedCart, checkForAbandonedCart_try, sendCartAbandonedWebhook,
    sendWebhook, resetLastCartActivity, saveAnalytics, debouncedServerSave.
  js_unfold. simpl.
  js_cases; simpl; rewrite ?List.filter_app; simpl; rewrite ?app_nil_r; repeat split.
Qed.

Lemma setupCartAbandonTimer_queue w :
  let w' := exec setupCartAbandonTimer w in
  queueWalks w' = queueWalks w
  /\ queuedPosts w' = queuedPosts w
  /\ analytics_queue (localStorage w') = analytics_queue (localStorage w).
Proof.
  intros w'. subst w'. unfold queueWalks, queuedPosts, setupCartAbandonTimer.
  js_unfold. simpl. js_cases; repeat split.
Qed.

(** X20. The constructor resumes a recent session and restarts a stale one.
    On a page with no abandonment timeout pending, in a browser that accepts
    the writes and whose stored session, if any, is JSON: [new Analytics()]
    returns normally; its session is the stored one, with its id, start time
    and history, when that was active in the last 24 hours, and a new empty
    one otherwise; [lastActivity] is now, the stored session is the one in
    memory (as JSON holds it), at most one abandonment timeout is pending
    and the instance holds its handle, the retry counter is 0, and the queue
    processor was called
    once and scheduled every 2 minutes: with sessions in the stored queue
    one walk of that queue is under way and the oldest session was POSTed;
    with none, no walk was started and no queued session was POSTed. *)
Theorem constructor_resumes_or_restarts w :
  quotaExceeded (localStorage w) = false ->
  pmcell_analytics (localStorage w) <> Some Corrupt ->
  abandonPending w = [] ->
  let w' := exec constructor w in
  result constructor w = Normal tt
  /\ sameSession (loadedSession w) (analytics w')
  /\ lastActivity (analytics w') = now w
  /\ inSync w'
  /\ timerTracked w'
  /\ quotaExceeded (localStorage w') = false
  /\ saveToServerRetryCount w' = 0
  /\ intervals w' = (intervals w ++ [(120000, ProcessLocalQueue)])%list
  /\ queueWalks w'
     = (queueWalks w
        ++ match storedQueue w with
           | [] => []
           | _ :: _ => [ProcessLocalQueueJob (storedQueue w)]
           end)%list
  /\ queuedPosts w'
     = (queuedPosts w
        ++ match storedQueue w with
           | [] => []
           | queueItem :: _ => [POST_analytics_save_queued (queuedPayload queueItem)]
           end)%list.
Proof.
  intros Hq Hc Hp w'.
  set (w0 := set_serverSaveTimeout None
               (set_saveToServerRetryCount 0 (set_cartAbandonTimer None w))).
  set (w1 := set_analytics (loadedSession w) w0).
  set (w2 := exec updateLastActivity w1).
  set (w3 := exec checkForAbandonedCart w2).
  set (w4 := exec setupCartAbandonTimer w3).
  pose proof (updateLastActivity_summary w1 Hq) as H2. cbv zeta in H2. fold w2 in H2.
  destruct H2 as (R2 & S2 & L2 & Y2 & Q2 & K2 & I2 & C2 & J2 & N2).
  pose proof (checkForAbandonedCart_summary w2 Q2 Y2) as H3. cbv zeta in H3. fold w3 in H3.
  destruct H3 as (R3 & S3 & L3 & Y3 & Q3 & K3 & I3 & C3 & N3).
  assert (Hp3 : abandonPending w3 = []).
  { destruct (timerKept_trans _ _ _ K2 K3) as [Hsub _].
    change (abandonPending w1) with (abandonPending w) in Hsub.
    rewrite Hp in Hsub. apply sublist_nil_r in Hsub. exact Hsub. }
  pose proof (setupCartAbandonTimer_summary w3 Hp3) as H4. cbv zeta in H4. fold w4 in H4.
  destruct H4 as (R4 & A4 & S4 & T4 & I4 & C4 & J4).
  pose proof (updateLastActivity_queue w1) as G2. cbv zeta in G2. fold w2 in G2.
  destruct G2 as (W2 & P2 & U2).
  pose proof (checkForAbandonedCart_queue w2) as G3. cbv zeta in G3. fold w3 in G3.
  destruct G3 as (W3 & P3 & U3).
  pose proof (setupCartAbandonTimer_queue w3) as G4. cbv zeta in G4. fold w4 in G4.
  destruct G4 as (W4 & P4 & U4).
  assert (Hqueue : storedQueue w4 = storedQueue w).
  { unfold storedQueue. rewrite U4, U3, U2. reflexivity. }
  assert (Hwalks : queueWalks w4 = queueWalks w) by (rewrite W4, W3, W2; reflexivity).
  assert (Hposts : queuedPosts w4 = queuedPosts w) by (rewrite P4, P3, P2; reflexivity).
  set (w5 := match storedQueue w4 with
             | [] => w4
             | queueItem :: _ =>
                 set_jobs (jobs w4 ++ [ProcessLocalQueueJob (storedQueue w4)])
                   (set_requests
                      (requests w4 ++ [POST_analytics_save_queued (queuedPayload queueItem)])
                      w4)
             end).
  assert (Hstart : processLocalQueue w4 = (Normal tt, w5))
    by exact (processLocalQueue_start w4).
  assert (Hrun : constructor w
                 = (Normal tt, set_intervals (intervals w5 ++ [(120000, ProcessLocalQueue)]) w5)).
  { unfold constructor.
    unfold bind at 1. unfold modify at 1. unfold bind at 1. unfold modify at 1.
    unfold bind at 1. unfold modify at 1. fold w0.
    unfold bind at 1. rewrite (loadAnalytics_loaded w0 Hc).
    change (loadedSession w0) with (loadedSession w).
    unfold bind at 1. unfold modify at 1. fold w1.
    unfold bind at 1. rewrite (run_eta updateLastActivity w1), R2. fold w2.
    unfold bind at 1. rewrite (run_eta checkForAbandonedCart w2), R3. fold w3.
    unfold bind at 1. rewrite (run_eta setupCartAbandonTimer w3), R4. fold w4.
    unfold bind at 1. rewrite Hstart.
    reflexivity. }
  assert (Hsame : analytics w5 = analytics w4
                  /\ localStorage w5 = localStorage w4
                  /\ timeouts w5 = timeouts w4
                  /\ cartAbandonTimer w5 = cartAbandonTimer w4
                  /\ saveToServerRetryCount w5 = saveToServerRetryCount w4
                  /\ intervals w5 = intervals w4)
    by (unfold w5; destruct (storedQueue w4); repeat split).
  destruct Hsame as (A5 & S5 & T5 & H5 & C5 & I5).
  subst w'. unfold exec, result. rewrite Hrun. simpl.
  split; [reflexivity |].
  split; [rewrite A5, A4; exact (sameSession_trans _ _ _ S2 S3) |].
  split; [rewrite A5, A4, L3, L2; reflexivity |].
  split; [unfold inSync in *; simpl; rewrite S5, A5, S4, A4; exact Y3 |].
  split.
  { unfold timerTracked, abandonPending in *. simpl. rewrite T5, H5. exact T4. }
  split; [rewrite S5, S4; exact Q3 |].
  split; [rewrite C5, C4, C3, C2; reflexivity |].
  split; [rewrite I5, I4, I3, I2; reflexivity |].
  rewrite <- Hqueue, <- Hwalks, <- Hposts.
  unfold queueWalks, queuedPosts, w5. simpl.
  destruct (storedQueue w4) as [| queueItem stored]; simpl.
  - rewrite !app_nil_r. split; reflexivity.
  - rewrite !List.filter_app. simpl. rewrite ?app_nil_r. split; reflexivity.
Qed.

Lemma constructor_resumes_or_restarts_witness :
  let a := Sample.session 1000 in
  let w := Sample.world 50000 a (Sample.storage a) in
  let w' := exec constructor w in
  sessionId (analytics w') = "m2r1bz7kx9"
  /\ productsViewed (analytics w') = [Sample.capa]
  /\ lastActivity (analytics w') = 50000
  /\ inSync w'
  /\ queueWalks w' = [].
Proof.
  intros a w w'.
  assert (Hq : quotaExceeded (localStorage w) = false) by reflexivity.
  assert (Hc : pmcell_analytics (localStorage w) <> Some Corrupt) by discriminate.
  assert (Hp : abandonPending w = []) by reflexivity.
  pose proof (constructor_resumes_or_restarts w Hq Hc Hp) as H. cbv zeta in H. fold w' in H.
  destruct H as (_ & (H1 & _ & _ & _ & H5 & _) & H3 & H4 & _ & _ & _ & _ & H9 & _).
  split; [exact H1 |]. split; [exact H5 |]. split; [exact H3 |]. split; [exact H4 | exact H9].
Defined.

(** ** The cart mirror *)

Lemma bind_Date_now {B} (k : Z -> Js B) w : (let! t := Date_now in k t) w = k (now w) w.
Proof. reflexivity. Qed.

Lemma bind_modify {B} (f : World -> World) (k : Js B) w : (modify f >> k) w = k (f w).
Proof. reflexivity. Qed.

Lemma setupCartAbandonTimer_frame w :
  let w' := exec setupCartAbandonTimer w in
  result setupCartAbandonTimer w = Normal tt
  /\ analytics w' = analytics w
  /\ localStorage w' = localStorage w
  /\ requests w' = requests w
  /\ now w' = now w.
Proof.
  intros w'. subst w'. unfold setupCartAbandonTimer. js_unfold. simpl.
  js_cases; repeat split.
Qed.

Lemma saveCartToServer_effect w :
  let w' := exec saveCartToServer w in
  result saveCartToServer w = Normal tt
  /\ analytics w' = analytics w
  /\ localStorage w' = localStorage w
  /\ timeouts w' = timeouts w
  /\ requests w'
     = match cart_storage (localStorage w) with
       | Some (Json cartData) =>
           (requests w
            ++ [POST_cart_simple_update
                  (CartUpdatePayload.mk (sessionId (analytics w))
                     (whatsappCollected (analytics w)) (stateOrCart cartData)
                     (Snapshot.mk (sessionId (analytics w))
                        ((now w - startTime (analytics w)) / 1000)
                        (categoriesVisited (analytics w)) (searchTerms (analytics w))
                        (slice_first 10 (productsViewed (analytics w)))
                        (Z.of_nat (length (cartEvents (analytics w))))
                        (lastCartActivity (analytics w))
                        (Some (whatsappCollected (analytics w),
                               whatsappCollectedAt (analytics w))))
                     (lastCartActivity (analytics w)))])%list
       | _ => requests w
       end.
Proof.
  intros w'. subst w'. unfold saveCartToServer, getAnalyticsSnapshot. js_unfold. simpl.
  destruct (cart_storage (localStorage w)) as [[| cartData] |]; simpl; repeat split.
Qed.

(** X21. Every cart event is mirrored to the server, and a bad cart does not
    stop the recorder.  When the browser accepts the writes,
    [trackCartEvent] returns normally and records the event whatever
    [cart-storage] holds; when it holds JSON, exactly one request goes out,
    a POST to [/api/cart/simple-update] that carries the [state] of the
    stored value when it has one (the wrapper the cart store persists) and
    the whole stored value otherwise, the session id, and the time of this
    event as [lastActivity]; when it is missing, empty or not JSON, no
    request goes out. *)
Theorem cart_event_mirrors_cart type productId quantity productName unitPrice w :
  quotaExceeded (localStorage w) = false ->
  let w' := exec (trackCartEvent type productId quantity productName unitPrice) w in
  result (trackCartEvent type productId quantity productName unitPrice) w = Normal tt
  /\ last (cartEvents (analytics w'))
     = Some (newCartEvent type productId quantity productName unitPrice (now w))
  /\ match cart_storage (localStorage w) with
     | Some (Json cartData) =>
         exists payload,
           requests w' = (requests w ++ [POST_cart_simple_update payload])%list
           /\ CartUpdatePayload.cartData payload
              = match state_items cartData with
                | Some state => CartState state
                | None => WholeCart cartData
                end
           /\ CartUpdatePayload.sessionId payload = sessionId (analytics w)
           /\ CartUpdatePayload.lastActivity payload = now w
     | _ => requests w' = requests w
     end.
Proof.
  intros Hq w'.
  destruct (trackCartEvent_ok type productId quantity productName unitPrice w Hq)
    as (Hr & Ha & _). fold w' in Ha.
  split; [exact Hr |]. split.
  { rewrite Ha, afterCartEvent_cartEvents. unfold slice_last.
    rewrite drop_app_le by (rewrite length_app; simpl; lia). apply last_snoc. }
  pose proof (saveAnalytics_ok
                (set_analytics (set_activity (now w) (now w - startTime (analytics w))
                                  (analytics w)) w) Hq) as H1.
  cbv zeta in H1.
  change (exec saveAnalytics
            (set_analytics (set_activity (now w) (now w - startTime (analytics w))
                              (analytics w)) w))
    with (exec updateLastActivity w) in H1.
  change (result saveAnalytics
            (set_analytics (set_activity (now w) (now w - startTime (analytics w))
                              (analytics w)) w))
    with (result updateLastActivity w) in H1.
  destruct H1 as (R1 & A1 & _ & C1 & Q1 & Rq1 & _ & N1 & _).
  simpl in A1, C1, Rq1, N1.
  set (w1 := exec updateLastActivity w) in *.
  set (w2 := set_analytics
               (afterCartEvent type productId quantity productName unitPrice (now w)
                  (analytics w)) w1).
  pose proof (saveAnalytics_ok w2 Q1) as H3. cbv zeta in H3.
  destruct H3 as (R3 & A3 & _ & C3 & _ & Rq3 & _ & N3 & _).
  set (w3 := exec saveAnalytics w2) in *.
  pose proof (setupCartAbandonTimer_frame w3) as H4. cbv zeta in H4.
  destruct H4 as (R4 & A4 & S4 & Rq4 & N4).
  set (w4 := exec setupCartAbandonTimer w3) in *.
  assert (Hrun : trackCartEvent type productId quantity productName unitPrice w
                 = saveCartToServer w4).
  { unfold trackCartEvent.
    unfold bind at 1. rewrite (run_eta updateLastActivity w), R1. fold w1.
    rewrite bind_Date_now, bind_modify.
    replace (set_analytics _ w1) with w2
      by (unfold w2, afterCartEvent; rewrite N1, A1; reflexivity).
    unfold bind at 1. rewrite (run_eta saveAnalytics w2), R3. fold w3.
    unfold bind at 1. rewrite (run_eta setupCartAbandonTimer w3), R4. fold w4.
    reflexivity. }
  pose proof (saveCartToServer_effect w4) as H5. cbv zeta in H5.
  destruct H5 as (_ & _ & _ & _ & Hreq).
  subst w'.
  change (exec (trackCartEvent type productId quantity productName unitPrice) w)
    with (snd (trackCartEvent type productId quantity productName unitPrice w)).
  rewrite Hrun.
  fold (exec saveCartToServer w4). rewrite Hreq.
  rewrite S4, C3. change (cart_storage (localStorage w2)) with (cart_storage (localStorage w1)).
  rewrite C1, Rq4, Rq3. change (requests w2) with (requests w1). rewrite Rq1.
  destruct (cart_storage (localStorage w)) as [[| cartData] |]; try reflexivity.
  eexists. split; [reflexivity |]. simpl.
  rewrite A4, A3. unfold w2. simpl.
  split; [reflexivity |]. split.
  - unfold afterCartEvent. simpl. destruct (is_add type); simpl; [| reflexivity].
    unfold markAddedToCart. simpl. destruct (find _ _); reflexivity.
  - apply afterCartEvent_lastCartActivity.
Qed.

Lemma cart_event_mirrors_cart_witness :
  let a := Sample.session 0 in
  let w := Sample.world 5000 a (Sample.storage a) in
  let w' := exec (trackCartEvent add "p1" 2 None (Some 10%float)) w in
  exists payload,
    requests w' = [POST_cart_simple_update payload]
    /\ CartUpdatePayload.cartData payload = CartState (Some [Sample.item])
    /\ CartUpdatePayload.sessionId payload = "m2r1bz7kx9"
    /\ CartUpdatePayload.lastActivity payload = 5000.
Proof.
  intros a w w'.
  assert (Hq : quotaExceeded (localStorage w) = false) by reflexivity.
  pose proof (cart_event_mirrors_cart add "p1" 2 None (Some 10%float) w Hq) as H.
  cbv zeta in H. destruct H as (_ & _ & H). exact H.
Defined.

(** ** Server sync: retry or queue *)

Lemma resume_thrown r error w :
  thrownBy r = Some error ->
  saveAnalyticsToServer_resume r w = saveAnalyticsToServer_catch error w.
Proof.
  intros Hf. unfold saveAnalyticsToServer_resume.
  destruct r as [e | status statusText body]; simpl in Hf.
  - injection Hf as <-. reflexivity.
  - destruct (ok status) eqn:Hok; [discriminate |].
    destruct (status =? 503) eqn:H503.
    + destruct (json body) as [responseData | e] eqn:Hj.
      * destruct (fallback responseData) eqn:Hfb; [discriminate |].
        injection Hf as <-.
        unfold try_catch, bind, lift. rewrite Hfb. reflexivity.
      * injection Hf as <-. reflexivity.
    + injection Hf as <-. reflexivity.
Qed.

Lemma includes_cons c s sub : includes s sub = true -> includes (String c s) sub = true.
Proof.
  unfold includes. intros H.
  change (index 0 sub (String c s))
    with (if String.prefix sub (String c s) then Some 0%nat
          else match index 0 sub s with
               | Some n => Some (S n)
               | None => None
               end).
  destruct (String.prefix sub (String c s)); [reflexivity |].
  destruct (index 0 sub s); [reflexivity | discriminate].
Qed.

Lemma includes_here c rest : includes (String c rest) (String c EmptyString) = true.
Proof.
  unfold includes. simpl.
  destruct (ascii_dec c c) as [_ | Hne]; [| contradiction].
  destruct rest; reflexivity.
Qed.

Lemma pretty_5xx status :
  500 <= status <= 599 -> exists rest, pretty status = String "5" rest.
Proof.
  intros H. replace status with (500 + Z.of_nat (Z.to_nat (status - 500))) by lia.
  assert (Hn : (Z.to_nat (status - 500) < 100)%nat) by lia.
  generalize dependent (Z.to_nat (status - 500)). clear H. intros n Hn.
  do 100 (destruct n as [| n]; [vm_compute; eexists; reflexivity |]). lia.
Qed.

Lemma catch_run error w :
  saveAnalyticsToServer_catch error w
  = (let c := saveToServerRetryCount w + 1 in
     let w1 := set_saveToServerRetryCount c w in
     if (c <? MAX_SERVER_SAVE_RETRIES) && retryable error
     then (Normal tt,
           set_timeouts
             (timeouts w ++ [mkTimeout (nextHandle w) (now w) (2 ^ c * 2500) SaveAnalyticsToServer])
             (S (nextHandle w)) w1)
     else saveToLocalQueue w1).
Proof.
  unfold saveAnalyticsToServer_catch, retryable.
  unfold bind at 1. unfold modify at 1. unfold bind at 1. unfold gets at 1.
  cbv beta iota zeta.
  change (saveToServerRetryCount
            (set_saveToServerRetryCount (saveToServerRetryCount w + 1) w))
    with (saveToServerRetryCount w + 1).
  destruct ((saveToServerRetryCount w + 1 <? MAX_SERVER_SAVE_RETRIES) && _); reflexivity.
Qed.

(** X22. A failed sync is retried with backoff or queued.  A sync call whose
    answer makes the [try] block throw, made with the retry counter [c - 1]
    below the ceiling, counts the failure; if [c < 3] and the error is an
    [AbortError] or its message contains [fetch], [network], [timeout] or the
    character [5], one retry is scheduled after [2^c * 2500] ms, that is 5 s
    after the first failure and 10 s after the second, and nothing is
    queued; otherwise no retry is scheduled and the session goes to the local
    queue.  An answer with a status from 500 to 599 other than 503 is always
    of the first kind. *)
Theorem sync_failure_backoff r error w :
  thrownBy r = Some error ->
  0 <= saveToServerRetryCount w < MAX_SERVER_SAVE_RETRIES ->
  let c := saveToServerRetryCount w + 1 in
  let w' := exec (syncAttempt r) w in
  result (syncAttempt r) w = Normal tt
  /\ saveToServerRetryCount w' = c
  /\ (if (c <? MAX_SERVER_SAVE_RETRIES) && retryable error
      then timeouts w'
           = (timeouts w
              ++ [mkTimeout (nextHandle w) (now w) (2 ^ c * 2500) SaveAnalyticsToServer])%list
           /\ (2 ^ c * 2500 = 5000 \/ 2 ^ c * 2500 = 10000)
           /\ localStorage w' = localStorage w
      else timeouts w' = timeouts w
           /\ (queueUsable w ->
               storedQueue w'
               = toJSON_queue (slice_last 50 (storedQueue w ++ [queueItemOf w]))))
  /\ (forall status statusText body,
        500 <= status <= 599 -> status <> 503 ->
        r = Response status statusText body ->
        retryable error = true).
Proof.
  intros Hf Hc c w'. subst c w'.
  pose (w1 := set_jobs (jobs w ++ [SaveAnalyticsJob])
                (set_requests (requests w ++ [POST_analytics_save (savePayload (analytics w))]) w)).
  assert (Hrun : syncAttempt r w = saveAnalyticsToServer_catch error w1).
  { rewrite <- (resume_thrown r error w1 Hf).
    unfold syncAttempt, saveAnalyticsToServer. js_unfold. simpl.
    destruct (Z.geb_spec (saveToServerRetryCount w) MAX_SERVER_SAVE_RETRIES); [lia |].
    reflexivity. }
  unfold exec, result. rewrite Hrun.
  destruct (catch_counts error w1) as (Hr & Hcount & _).
  split; [exact Hr |]. split; [exact Hcount |]. split.
  - rewrite (catch_run error w1). cbv zeta.
    change (saveToServerRetryCount w1) with (saveToServerRetryCount w).
    destruct ((saveToServerRetryCount w + 1 <? MAX_SERVER_SAVE_RETRIES) && retryable error)
      eqn:Hretry.
    + apply andb_true_iff in Hretry as [Hlt _]. apply Z.ltb_lt in Hlt.
      unfold MAX_SERVER_SAVE_RETRIES in *.
      split; [reflexivity |]. split; [| reflexivity].
      assert (Hcase : saveToServerRetryCount w + 1 = 1 \/ saveToServerRetryCount w + 1 = 2)
        by lia.
      destruct Hcase as [-> | ->]; [left | right]; reflexivity.
    + set (w2 := set_saveToServerRetryCount (saveToServerRetryCount w + 1) w1).
      split.
      * unfold saveToLocalQueue, readQueue. js_unfold. simpl. js_cases; reflexivity.
      * intros Hu. assert (Hu2 : queueUsable w2) by exact Hu.
        rewrite (saveToLocalQueue_usable w2 Hu2). reflexivity.
  - intros status statusText body Hs H503 ->. simpl in Hf.
    destruct (ok status) eqn:Hok.
    { unfold ok in Hok. apply andb_true_iff in Hok as [_ Hok]. apply Z.leb_le in Hok. lia. }
    destruct (Z.eqb_spec status 503); [contradiction |].
    injection Hf as <-. destruct (pretty_5xx status Hs) as [rest Hp].
    unfold retryable. simpl. rewrite Hp. simpl.
    match goal with
    | |- context [includes ?m "5"] =>
        assert (H5 : includes m "5" = true)
          by (do 5 apply includes_cons; apply includes_here);
        rewrite H5
    end.
    apply orb_true_r.
Qed.

Lemma sync_failure_backoff_witness :
  let a := Sample.session 0 in
  let w := Sample.world 5000 a (Sample.storage a) in
  let busy := Response 502 "Bad Gateway" (mkSaveBody (Throw (SyntaxError "Unexpected token")) "<html>") in
  let limited := Response 429 "Too Many Requests" (mkSaveBody (Throw (SyntaxError "Unexpected token")) "slow down") in
  timeouts (exec (syncAttempt busy) w) = [mkTimeout 1 5000 5000 SaveAnalyticsToServer]
  /\ timeouts (exec (syncAttempt limited) w) = []
  /\ length (storedQueue (exec (syncAttempt limited) w)) = 1%nat.
Proof.
  intros a w busy limited.
  assert (Hc : 0 <= saveToServerRetryCount w < MAX_SERVER_SAVE_RETRIES) by (split; reflexivity || discriminate).
  pose proof (sync_failure_backoff busy (Error "HTTP 502: <html>") w eq_refl Hc) as H1.
  pose proof (sync_failure_backoff limited (Error "HTTP 429: slow down") w eq_refl Hc) as H2.
  cbv zeta in H1, H2.
  destruct H1 as (_ & _ & H1 & _). destruct H2 as (_ & _ & H2 & _).
  change ((saveToServerRetryCount w + 1 <? MAX_SERVER_SAVE_RETRIES)
          && retryable (Error "HTTP 502: <html>")) with true in H1.
  change ((saveToServerRetryCount w + 1 <? MAX_SERVER_SAVE_RETRIES)
          && retryable (Error "HTTP 429: slow down")) with false in H2.
  cbv iota in H1, H2. destruct H1 as (H1 & _). destruct H2 as (H2 & H3).
  split; [exact H1 |]. split; [exact H2 |].
  assert (Hu : queueUsable w) by (split; [reflexivity | discriminate]).
  rewrite (H3 Hu). reflexivity.
Defined.

(** ** The rate limiter of the save endpoint *)

Lemma checkRateLimit_other now s sessionId rateLimitMap :
  s <> sessionId ->
  snd (RateLimit.checkRateLimit now s rateLimitMap) !! sessionId = rateLimitMap !! sessionId.
Proof.
  intros Hne. unfold RateLimit.checkRateLimit.
  destruct (rateLimitMap !! s) as [clientData |]; simpl;
    repeat case_match; simpl; try reflexivity; apply lookup_insert_ne; exact Hne.
Qed.

Lemma checkAll_in_window sessionId t calls : forall budget rateLimitMap,
  (budget <= 59)%nat ->
  rateLimitMap !! sessionId
  = Some (RateLimit.mkClientData (60 - Z.of_nat budget) (t + RateLimit.RATE_LIMIT_WINDOW)) ->
  Forall (fun call => fst call <= t + RateLimit.RATE_LIMIT_WINDOW)
    (RateLimit.callsOf sessionId calls) ->
  let n := length (RateLimit.callsOf sessionId calls) in
  let checked := RateLimit.checkAll calls rateLimitMap in
  RateLimit.answersTo sessionId calls (fst checked)
  = (repeat true (Nat.min budget n) ++ repeat false (n - budget))%list
  /\ snd checked !! sessionId
     = Some (RateLimit.mkClientData (60 - Z.of_nat (budget - n))
               (t + RateLimit.RATE_LIMIT_WINDOW)).
Proof.
  induction calls as [| [now s] calls IH]; intros budget rateLimitMap Hb Hm Hw n checked;
    subst n checked.
  - simpl. rewrite Nat.min_0_r, Nat.sub_0_r. split; [reflexivity | exact Hm].
  - simpl RateLimit.checkAll. cbv zeta. simpl fst. simpl snd.
    unfold RateLimit.callsOf in *. simpl List.filter in *. simpl RateLimit.answersTo.
    destruct (String.eqb_spec s sessionId) as [-> | Hne].
    + simpl in Hw. inversion Hw as [| ? ? Hnow Hrest]; subst. simpl in Hnow.
      destruct budget as [| budget].
      * assert (Hcheck : RateLimit.checkRateLimit now sessionId rateLimitMap
                         = (false, rateLimitMap)).
        { unfold RateLimit.checkRateLimit. rewrite Hm. simpl.
          destruct (Z.gtb_spec now (t + RateLimit.RATE_LIMIT_WINDOW)) as [Hgt | _]; [lia |].
          reflexivity. }
        rewrite Hcheck. simpl fst. simpl snd.
        pose proof (IH 0%nat rateLimitMap Hb Hm Hrest) as Hn. cbv zeta in Hn.
        destruct Hn as [Ha Hs]. rewrite Ha, Hs. simpl length.
        rewrite !Nat.min_0_l, !Nat.sub_0_r. split; reflexivity.
      * assert (Hcheck : RateLimit.checkRateLimit now sessionId rateLimitMap
                         = (true,
                            <[sessionId := RateLimit.mkClientData (60 - Z.of_nat (S budget) + 1)
                                             (t + RateLimit.RATE_LIMIT_WINDOW)]> rateLimitMap)).
        { unfold RateLimit.checkRateLimit. rewrite Hm. simpl RateLimit.resetTime.
          simpl RateLimit.count.
          destruct (Z.gtb_spec now (t + RateLimit.RATE_LIMIT_WINDOW)) as [Hgt | _]; [lia |].
          unfold RateLimit.RATE_LIMIT_MAX_REQUESTS.
          destruct (Z.geb_spec (60 - Z.of_nat (S budget)) 60) as [Hge | _]; [lia |].
          reflexivity. }
        rewrite Hcheck. simpl fst. simpl snd.
        assert (Hm1 : <[sessionId := RateLimit.mkClientData (60 - Z.of_nat (S budget) + 1)
                                       (t + RateLimit.RATE_LIMIT_WINDOW)]> rateLimitMap
                      !! sessionId
                      = Some (RateLimit.mkClientData (60 - Z.of_nat budget)
                                (t + RateLimit.RATE_LIMIT_WINDOW))).
        { rewrite lookup_insert_eq. do 2 f_equal. lia. }
        pose proof (IH budget _ ltac:(lia) Hm1 Hrest) as Hn. cbv zeta in Hn.
        destruct Hn as [Ha Hs]. rewrite Ha, Hs. simpl length.
        split; reflexivity.
    + simpl in Hw.
      pose proof (checkRateLimit_other now s sessionId rateLimitMap Hne) as Hsame.
      rewrite Hm in Hsame.
      pose proof (IH budget _ Hb Hsame Hw) as Hn. cbv zeta in Hn. exact Hn.
Qed.

(** X23. The save endpoint admits 60 requests per session and window.  When
    a request of a session opens a window at time [t] (the session is not in
    the map, or its window is over), then among the requests that follow
    until [t] + 1 minute, whatever requests of other sessions come in
    between, that request and the next 59 of the session are admitted and
    every further one is refused; the session's counter ends at the number
    admitted, and the window still ends at [t] + 1 minute. *)
Theorem rate_limit_window sessionId t calls rateLimitMap :
  (forall clientData,
      rateLimitMap !! sessionId = Some clientData -> RateLimit.resetTime clientData < t) ->
  Forall (fun call => fst call <= t + 60 * 1000) (RateLimit.callsOf sessionId calls) ->
  let n := length (RateLimit.callsOf sessionId calls) in
  let checked := RateLimit.checkAll ((t, sessionId) :: calls) rateLimitMap in
  RateLimit.answersTo sessionId ((t, sessionId) :: calls) (fst checked)
  = (true :: repeat true (Nat.min 59 n) ++ repeat false (n - 59))%list
  /\ snd checked !! sessionId
     = Some (RateLimit.mkClientData (Z.of_nat (1 + Nat.min 59 n)) (t + 60 * 1000)).
Proof.
  intros Hopen Hw n checked. subst n checked.
  simpl RateLimit.checkAll. cbv zeta. simpl fst. simpl snd. simpl RateLimit.answersTo.
  rewrite String.eqb_refl.
  assert (Hfirst : RateLimit.checkRateLimit t sessionId rateLimitMap
                   = (true, <[sessionId := RateLimit.mkClientData 1
                                             (t + RateLimit.RATE_LIMIT_WINDOW)]> rateLimitMap)).
  { unfold RateLimit.checkRateLimit.
    destruct (rateLimitMap !! sessionId) as [clientData |] eqn:Hm; [| reflexivity].
    specialize (Hopen clientData eq_refl).
    destruct (Z.gtb_spec t (RateLimit.resetTime clientData)); [reflexivity | lia]. }
  rewrite Hfirst. simpl fst. simpl snd.
  assert (Hm1 : <[sessionId := RateLimit.mkClientData 1 (t + RateLimit.RATE_LIMIT_WINDOW)]>
                  rateLimitMap !! sessionId
                = Some (RateLimit.mkClientData (60 - Z.of_nat 59)
                          (t + RateLimit.RATE_LIMIT_WINDOW)))
    by (rewrite lookup_insert_eq; reflexivity).
  pose proof (checkAll_in_window sessionId t calls 59 _ (le_n 59) Hm1 Hw) as H.
  cbv zeta in H. destruct H as [Ha Hs]. rewrite Ha, Hs.
  split; [reflexivity |]. do 2 f_equal. lia.
Qed.

Lemma rate_limit_window_witness :
  let calls := map (fun i => (1000 + Z.of_nat i, if Nat.even i then "s1" else "s2")) (seq 0 130) in
  let checked := RateLimit.checkAll ((1000, "s1") :: calls) ∅ in
  RateLimit.answersTo "s1" ((1000, "s1") :: calls) (fst checked)
  = (repeat true 60 ++ repeat false 6)%list
  /\ snd checked !! "s1" = Some (RateLimit.mkClientData 60 61000).
Proof.
  intros calls checked.
  assert (Hopen : forall clientData,
             (∅ : gmap string RateLimit.ClientData) !! "s1" = Some clientData ->
             RateLimit.resetTime clientData < 1000)
    by (intros clientData H; rewrite lookup_empty in H; discriminate H).
  assert (Hw : Forall (fun call => fst call <= 1000 + 60 * 1000) (RateLimit.callsOf "s1" calls)).
  { unfold RateLimit.callsOf, calls. simpl.
    repeat (constructor; [simpl; lia |]). constructor. }
  pose proof (rate_limit_window "s1" 1000 calls ∅ Hopen Hw) as H. cbv zeta in H.
  fold checked in H. destruct H as [Ha Hs].
  change (length (RateLimit.callsOf "s1" calls)) with 65%nat in Ha, Hs.
  split; [exact Ha | exact Hs].
Defined.
